(** * make-capacitor-key-sdk: a shallow embedding of the protocol engine

    The development follows the TypeScript sources:
    - [PhysicalLayer]            class PhysicalLayer (protocol/PhysicalLayer.ts)
    - [DefaultApplicationLayer]  class DefaultApplicationLayer
    - [TransportLayerV1]         class TransportLayerV1 (protocol/TransportLayer.ts)
    - [CommandUtils]             class CommandUtils (utils/CommandUtils.ts)
    - [BluetoothKeySDK]          class BluetoothKeySDK (BluetoothKeySDK.ts)
    and the enums and error class of the types module.

    Conventions.  A [Uint8Array] is a [list Z] whose elements are bytes
    (0..255); array indices and lengths are [nat]; a JS integer-valued
    [number] is a [Z], with the 32-bit coercions of the bit operators
    written out.  [a.slice(i, j)] is [slice i j a].  An [async] method is
    run to its end in one turn; its [await]s are not interleaving points
    here.  The first part holds the definitions, the second the
    properties. *)

From Stdlib Require Import ZArith List Lia Bool Ascii String.
From Stdlib Require HexString.
From stdpp Require Import gmap strings list fin_maps sorting pretty.

Local Open Scope Z_scope.

(** ** Array helpers shared by the layers *)

(** [a.slice(lo, hi)] for [0 <= lo]; JS clamps [hi] to the length and
    returns the empty array when [hi <= lo]. *)
Definition slice {A} (lo hi : nat) (a : list A) : list A :=
  take (hi - lo) (drop lo a).

(** [a[i]] on a byte array, for the in-range reads the code performs. *)
Definition byteAt (a : list Z) (i : nat) : Z := nth i a 0.

(** [for (...) sum += a[i]] over a whole array. *)
Definition sumBytes (a : list Z) : Z := fold_left Z.add a 0.

Module PhysicalLayer.

Definition header : list Z := [0xA5; 0x5A].

(** [intToLittleEndian(value, bytes)]: [result[i] = (value >> (i*8)) & 0xFF]. *)
Definition intToLittleEndian (value : Z) (bytes : nat) : list Z :=
  map (fun i : nat => Z.land (Z.shiftr value (Z.of_nat i * 8)) 0xFF) (seq 0 bytes).

(** [pack(data)] *)
Definition pack (data : list Z) : list Z :=
  let len := Z.of_nat (length data) + 1 in
  let lengthBytes := intToLittleEndian len 2 in
  let checksum := sumBytes header + sumBytes lengthBytes + sumBytes data in
  let checksum := Z.land checksum 0xFF in
  header ++ lengthBytes ++ data ++ [checksum].

(** The [while (index + 5 <= data.length)] loop of [unpackWithRemain].
    The cursor grows at every iteration, so [length data] iterations are
    always enough (see [unpackLoop_fuel]); the loop returns the frames
    collected and the final cursor. *)
Fixpoint unpackLoop (fuel : nat) (data : list Z) (index : nat)
    (result : list (list Z)) : list (list Z) * nat :=
  match fuel with
  | O => (result, index)
  | S fuel' =>
    if negb (index + 5 <=? length data)%nat then (result, index)
    else if negb (byteAt data index =? byteAt header 0)
            || negb (byteAt data (index + 1) =? byteAt header 1)
    then unpackLoop fuel' data (index + 1)%nat result
    else
      let len := Z.to_nat (byteAt data (index + 2)
                           + Z.shiftl (byteAt data (index + 3)) 8) in
      let totalLen := (4 + len)%nat in
      if (length data <? index + totalLen)%nat then (result, index)
      else
        let sum := Z.land (sumBytes (slice index (index + totalLen - 1) data)) 0xFF in
        let checksum := byteAt data (index + totalLen - 1) in
        if negb (sum =? checksum)
        then unpackLoop fuel' data (index + 1)%nat result
        else unpackLoop fuel' data (index + totalLen)%nat
               (result ++ [slice index (index + totalLen) data])
  end.

(** [unpackWithRemain(data)]: the frames and the unconsumed tail. *)
Definition unpackWithRemain (data : list Z) : list (list Z) * list Z :=
  let '(result, index) := unpackLoop (length data) data 0 [] in
  (result, drop index data).

(** [unpack(data)] *)
Definition unpack (data : list Z) : list (list Z) :=
  fst (unpackWithRemain data).

(** *** The scan, read on the suffix at the cursor
    Every access of the loop is [data[index + k]], so one turn of the
    loop at [index] is decided by [data.slice(index)] alone:
    [unpackLoop_step] and [unpackWithRemain_scan] say so.  These two
    definitions serve the proofs. *)
Inductive Step :=
  | Stop                      (* the [while] test fails, or [break] *)
  | Skip                      (* [index++; continue] *)
  | Emit (totalLen : nat).    (* [result.push(frame); index += totalLen] *)

Definition step (buf : list Z) : Step :=
  if negb (5 <=? length buf)%nat then Stop
  else if negb (byteAt buf 0 =? byteAt header 0)
          || negb (byteAt buf 1 =? byteAt header 1)
  then Skip
  else
    let len := Z.to_nat (byteAt buf 2 + Z.shiftl (byteAt buf 3) 8) in
    let totalLen := (4 + len)%nat in
    if (length buf <? totalLen)%nat then Stop
    else
      let sum := Z.land (sumBytes (take (totalLen - 1) buf)) 0xFF in
      let checksum := byteAt buf (totalLen - 1) in
      if negb (sum =? checksum) then Skip else Emit totalLen.

Fixpoint scan (fuel : nat) (buf : list Z) : list (list Z) * list Z :=
  match fuel with
  | O => ([], buf)
  | S fuel' =>
    match step buf with
    | Stop => ([], buf)
    | Skip => scan fuel' (drop 1 buf)
    | Emit totalLen =>
      let '(frames, remain) := scan fuel' (drop totalLen buf) in
      (take totalLen buf :: frames, remain)
    end
  end.

(** *** What the loop tests at a cursor, named for the statements *)


(** [totalLen] of the candidate at [index] *)
Definition totalLenAt (data : list Z) (index : nat) : nat :=
  (4 + Z.to_nat (byteAt data (index + 2) + Z.shiftl (byteAt data (index + 3)) 8))%nat.

(** [sum === checksum] for the candidate at [index] *)
Definition checksumOkAt (data : list Z) (index : nat) : bool :=
  Z.land (sumBytes (slice index (index + totalLenAt data index - 1) data)) 0xFF
  =? byteAt data (index + totalLenAt data index - 1).


(** *** The payload of a frame
    [_processPhysicalFrame] (BluetoothKeySDK.ts) takes the payload out of
    a frame given by [unpackWithRemain]: the two length checks, then
    [physicalFrame.slice(4, 4 + dataLength - 1)]. *)
Definition framePayload (physicalFrame : list Z) : option (list Z) :=
  if (length physicalFrame <? 5)%nat then None
  else
    let dataLength :=
      Z.to_nat (byteAt physicalFrame 2 + Z.shiftl (byteAt physicalFrame 3) 8) in
    if negb (length physicalFrame =? 4 + dataLength)%nat then None
    else Some (slice 4 (4 + dataLength - 1) physicalFrame).

(** The payloads of the frames found in [data]: [unpack], then the
    extraction above on every frame. *)
Definition physicalUnpack (data : list Z) : list (list Z) :=
  omap framePayload (unpack data).

(** The reassembler of [handleReceivedData]: each chunk joins the
    buffered remainder and [unpackWithRemain] runs on the sum. *)
Fixpoint feedChunks (buffer : list Z) (chunks : list (list Z))
    : list (list Z) * list Z :=
  match chunks with
  | [] => ([], buffer)
  | chunk :: chunks' =>
    let '(frames, remain) := unpackWithRemain (buffer ++ chunk) in
    let '(frames', remain') := feedChunks remain chunks' in
    (frames ++ frames', remain')
  end.

End PhysicalLayer.

(** ** Application framing codec (DefaultApplicationLayer) *)

(** A store into a [Uint8Array] slot keeps the value modulo 256. *)
Definition toUint8 (v : Z) : Z := v mod 256.

Record ApplicationData := mkApplicationData {
  frameIndex : Z;
  data : list Z;
}.

Module DefaultApplicationLayer.

(** [pack(data, frameIndex)]: [result[0] = frameIndex; result[1] = length;
    result.set(data, 2)]. *)
Definition pack (data : list Z) (frameIndex : Z) : list Z :=
  let len := length data in
  toUint8 frameIndex :: toUint8 (Z.of_nat len) :: data.

(** [unpack(data)] *)
Definition unpack (data : list Z) : ApplicationData :=
  let result := mkApplicationData 0 [] in
  if (length data <? 2)%nat then result
  else if negb (byteAt data 1 =? Z.of_nat (length data) - 2) then result
  else mkApplicationData (byteAt data 0) (drop 2 data).

End DefaultApplicationLayer.

(** ** Transport codec (TransportLayer.ts) *)

Inductive TransportAckType :=
  | REQUEST_WITHOUT_ACK | REQUEST_WITH_ACK | ACK | NONE.

Inductive TransportEncryptType := NO_ENCRYPT | ENCRYPT.

Global Instance TransportAckType_eq_dec : EqDecision TransportAckType.
Proof. solve_decision. Defined.

Global Instance TransportEncryptType_eq_dec : EqDecision TransportEncryptType.
Proof. solve_decision. Defined.

(** The [CryptoFactory] interface.  A rejected promise is [None]. *)
Class CryptoFactory := {
  encrypt : list Z -> list Z -> option (list Z);
  decrypt : list Z -> list Z -> option (list Z);
}.

Record TransportData := mkTransportData {
  version : Z;
  ackType : TransportAckType;
  encryptType : TransportEncryptType;
  tdata : list Z;
}.

(** The options object of [TransportLayerV1.pack]; an absent field is [None]. *)
Record PackOptions := mkPackOptions {
  optVersion : option Z;
  optAckType : option TransportAckType;
  optEncryptType : option TransportEncryptType;
  optCryptoFactory : option CryptoFactory;
  optSecretKey : option (list Z);
}.

Module TransportLayerV1.
Section WithAes.

(** [new AesEcbCryptoFactory()]: AES-ECB/PKCS7 through CryptoJS, an
    external collaborator. *)
Context (AesEcbCryptoFactory : CryptoFactory).

Definition controlByte (ackType : TransportAckType)
    (encryptType : TransportEncryptType) : Z :=
  match ackType with
  | REQUEST_WITHOUT_ACK => if decide (encryptType = ENCRYPT) then 0xFC else 0xF4
  | REQUEST_WITH_ACK => if decide (encryptType = ENCRYPT) then 0xFE else 0xF6
  | ACK => if decide (encryptType = ENCRYPT) then 0xFD else 0xF5
  | NONE => if decide (encryptType = ENCRYPT) then 0xFF else 0xF7
  end.

(** [pack(data, options)]; [None] when the cipher throws. *)
Definition pack (data : list Z) (options : PackOptions) : option (list Z) :=
  let version := default 0x01 (optVersion options) in
  let ackType := default REQUEST_WITH_ACK (optAckType options) in
  let encryptType := default ENCRYPT (optEncryptType options) in
  let cryptoFactory := default AesEcbCryptoFactory (optCryptoFactory options) in
  let secretKey := default [] (optSecretKey options) in
  let result := [version] in
  let result := result ++ [controlByte ackType encryptType] in
  match
    match encryptType with
    | ENCRYPT => @encrypt cryptoFactory data secretKey
    | NO_ENCRYPT => Some data
    end
  with
  | Some formatData => Some (map toUint8 result ++ formatData)
  | None => None
  end.

(** [unpack(data, secretKey)]; [None] when the cipher throws. *)
Definition unpack (data secretKey : list Z) : option TransportData :=
  let result := mkTransportData 0x01 REQUEST_WITH_ACK ENCRYPT [] in
  if (length data <? 2)%nat then Some result
  else
    let version := byteAt data 0 in
    if negb (version =? 0x01)
    then Some (mkTransportData version REQUEST_WITH_ACK ENCRYPT [])
    else
      let controlByte := byteAt data 1 in
      let ackBits := Z.land controlByte 0x03 in
      let ackType :=
        if ackBits =? 0 then REQUEST_WITHOUT_ACK
        else if ackBits =? 2 then REQUEST_WITH_ACK
        else if ackBits =? 1 then ACK
        else NONE in
      if negb (Z.land controlByte 0x04 =? 0) then
        match @decrypt AesEcbCryptoFactory (drop 2 data) secretKey with
        | Some tmp => Some (mkTransportData version ackType ENCRYPT tmp)
        | None => None
        end
      else Some (mkTransportData version ackType NO_ENCRYPT (drop 2 data)).

End WithAes.
End TransportLayerV1.

(** ** JS number coercions and errors *)

(** [ToInt32]: the coercion applied by [>>], [<<], [&] and [^]. *)
Definition toInt32 (v : Z) : Z := (v + 2 ^ 31) mod 2 ^ 32 - 2 ^ 31.

(** [x << n] on numbers: 32-bit, the count taken modulo 32. *)
Definition shl32 (x : Z) (n : Z) : Z := toInt32 (Z.shiftl (toInt32 x) (n mod 32)).

(** [BluetoothKeyError], the kinds the modelled paths raise. *)
Inductive BluetoothKeyError :=
  | COMMAND_TIMEOUT | PROTOCOL_ERROR | UNKNOWN_ERROR | DEVICE_NOT_CONNECTED.

(** A thrown value: a plain [Error], or a [BluetoothKeySDKError] with its
    [errorType] (the [originalError] link is not kept). *)
Inductive Error :=
  | PlainError (message : string)
  | SDKError (errorType : BluetoothKeyError) (message : string).

Definition errorMessage (e : Error) : string :=
  match e with PlainError m => m | SDKError _ m => m end.

Module BluetoothKeySDKError.
Definition readTimeout : Error := SDKError COMMAND_TIMEOUT "读取响应超时".
Definition protocolError (message : string) : Error :=
  SDKError PROTOCOL_ERROR ("协议错误: " +:+ message).
Definition unknownError (message : string) : Error :=
  SDKError UNKNOWN_ERROR ("未知错误: " +:+ message).
Definition deviceNotConnected : Error :=
  SDKError DEVICE_NOT_CONNECTED "设备未连接".
End BluetoothKeySDKError.

(** The outcome of a call that may throw. *)
Inductive result (A : Type) :=
  | Ok (a : A)
  | Throw (e : Error).
Arguments Ok {A} a.
Arguments Throw {A} e.

(** ** The types module: the enums the modelled paths read *)

Module BusinessCmd.
Definition CONN : Z := 0x01.
Definition TIME_SYNC : Z := 0x05.
Definition GET_SYS_PARAM : Z := 0x06.
Definition UPLOAD_STATUS : Z := 0x07.
End BusinessCmd.

Inductive LockState :=
  | UNCONNECTED | UNKNOWN | UNKNOWN_OPEN | UNKNOWN_CLOSED
  | UNLOCKED_OPEN | UNLOCKED_CLOSED | LOCKED_OPEN | LOCKED_CLOSED.

Record LockStatus := mkLockStatus {
  state : LockState;
  isLocked : bool;
  batteryLevel : Z;
  isConnected : bool;
}.

(** The object returned by [parseDeviceStatusReport].  [lockId] is the
    number the source renders with [toString()]; [deviceInfo.deviceId] is
    the same rendering; [timestamp] ([new Date()]) is not kept. *)
Record DeviceStatusReport := mkDeviceStatusReport {
  command : Z;
  lockStatus : LockStatus;
  deviceInfo : Z;
  lockId : Z;
  operationResult : option bool;
}.

(** A lock id as the API takes it: [string | number]. *)
Inductive LockId :=
  | LockIdString (s : string)
  | LockIdNumber (n : Z).

(** ** Command codec and segment encoder (CommandUtils.ts) *)

Module CommandUtils.

(** *** [parseInt(s, 10)]
    Leading white space is skipped, one sign is read, then the longest
    prefix of decimal digits; [None] is [NaN].  (White space outside
    ASCII and the rounding of integers beyond 2^53 are not modelled.) *)
Definition isWhiteSpace (c : ascii) : bool :=
  let n := Ascii.N_of_ascii c in
  ((9 <=? n) && (n <=? 13) || (n =? 32))%N.

Definition digitValue (c : ascii) : option Z :=
  let n := Z.of_N (Ascii.N_of_ascii c) in
  if (48 <=? n) && (n <=? 57) then Some (n - 48) else None.

Fixpoint trimStart (s : string) : string :=
  match s with
  | String c s' => if isWhiteSpace c then trimStart s' else s
  | EmptyString => s
  end.

Fixpoint parseDigits (s : string) (acc : option Z) : option Z :=
  match s with
  | String c s' =>
    match digitValue c with
    | Some d => parseDigits s' (Some (10 * default 0 acc + d))
    | None => acc
    end
  | EmptyString => acc
  end.

Definition parseInt (s : string) : option Z :=
  match trimStart s with
  | String "-" rest => Z.opp <$> parseDigits rest None
  | String "+" rest => parseDigits rest None
  | rest => parseDigits rest None
  end.

(** [typeof id === 'string' ? parseInt(id, 10) || 0 : id] *)
Definition lockIdToNumber (id : LockId) : Z :=
  match id with
  | LockIdString s => default 0 (parseInt s)
  | LockIdNumber n => n
  end.

(** The [for (let i = 1; i < ids.length; i++)] loop and the final
    [segments.push([start, end])]. *)
Fixpoint segmentLoop (ids : list Z) (start end_ : Z)
    (segments : list (Z * Z)) : list (Z * Z) :=
  match ids with
  | [] => segments ++ [(start, end_)]
  | id :: ids' =>
    if id =? end_ + 1 then segmentLoop ids' start id segments
    else segmentLoop ids' id id (segments ++ [(start, end_)])
  end.

(** [convertLockIdsToSegments(lockIds)]; [.sort((a, b) => a - b)] is the
    ascending numeric sort. *)
Definition convertLockIdsToSegments (lockIds : list LockId) : list (Z * Z) :=
  let ids := merge_sort Z.le
               (filter (fun id => 0 < id) (map lockIdToNumber lockIds)) in
  match ids with
  | [] => []
  | first :: rest => segmentLoop rest first first []
  end.

(** [number & 0xFF, (number >> 8) & 0xFF, (number >> 16) & 0xFF,
    (number >> 24) & 0xFF] *)
Definition wordBytes (number : Z) : list Z :=
  [ Z.land (toInt32 number) 0xFF;
    Z.land (Z.shiftr (toInt32 number) 8) 0xFF;
    Z.land (Z.shiftr (toInt32 number) 16) 0xFF;
    Z.land (Z.shiftr (toInt32 number) 24) 0xFF ].

(** [new Uint8Array([0x0D, currentChunk.length / 8, ...currentChunk]) ] *)
Definition segmentPacket (currentChunk : list Z) : list Z :=
  toUint8 0x0D :: toUint8 (Z.of_nat (length currentChunk) / 8) :: currentChunk.

(** One turn of the inner [for (const number of segment)] loop, on the
    pair [(packets, currentChunk)]. *)
Definition pushNumber (st : list (list Z) * list Z) (number : Z)
    : list (list Z) * list Z :=
  let '(packets, currentChunk) := st in
  let currentChunk := currentChunk ++ wordBytes number in
  if (25 * 8 <=? length currentChunk)%nat
  then (packets ++ [segmentPacket currentChunk], [])
  else (packets, currentChunk).

Definition pushSegment (st : list (list Z) * list Z) (segment : Z * Z)
    : list (list Z) * list Z :=
  pushNumber (pushNumber st (fst segment)) (snd segment).

(** [convertSegmentsToPackets(segments)] *)
Definition convertSegmentsToPackets (segments : list (Z * Z)) : list (list Z) :=
  let '(packets, currentChunk) := fold_left pushSegment segments ([], []) in
  if (0 <? length currentChunk)%nat
  then packets ++ [segmentPacket currentChunk]
  else packets.

(** [validateResponse(response, expectedLength)] with a length given. *)
Definition validateResponse (response : list Z) (expectedLength : nat) : bool :=
  if (length response =? 0)%nat then false
  else if negb (expectedLength =? 0)%nat
          && negb (length response =? expectedLength)%nat then false
  else true.

(** [uint8ArrayToNumber(array)]: [result += array[i] << (i * 8)] *)
Definition uint8ArrayToNumber (array : list Z) : Z :=
  fold_left (fun result '(i, b) => result + shl32 b (Z.of_nat i * 8))
            (combine (seq 0 (length array)) array) 0.

Definition parseLockState (lockStateValue : Z) : LockState :=
  if lockStateValue =? 0xFF then UNCONNECTED
  else if lockStateValue =? 0xFE then UNKNOWN
  else if lockStateValue =? 0 then UNKNOWN_OPEN
  else if lockStateValue =? 1 then UNKNOWN_CLOSED
  else if lockStateValue =? 2 then UNLOCKED_OPEN
  else if lockStateValue =? 3 then UNLOCKED_CLOSED
  else if lockStateValue =? 4 then LOCKED_OPEN
  else if lockStateValue =? 5 then LOCKED_CLOSED
  else UNKNOWN.

Definition isLockedByState (lockState : LockState) : bool :=
  match lockState with
  | LOCKED_OPEN | LOCKED_CLOSED => true
  | _ => false
  end.

Definition convertBatteryStateToLevel (batteryState : Z) : Z :=
  if batteryState =? 0 then 20
  else if batteryState =? 1 then 60
  else if batteryState =? 2 then 100
  else if batteryState =? 3 then 100
  else 0.

(** [parseDeviceStatusReport(data)] *)
Definition parseDeviceStatusReport (data : list Z) : result DeviceStatusReport :=
  let command := byteAt data 0 in
  let finish lockStateValue batteryStateValue lockIdBytes operationResult :=
    let lockId := uint8ArrayToNumber lockIdBytes in
    let isConnected := negb (forallb (fun byte => byte =? 0xFF) lockIdBytes) in
    let lockState := parseLockState lockStateValue in
    let batteryLevel := convertBatteryStateToLevel batteryStateValue in
    Ok (mkDeviceStatusReport command
          (mkLockStatus lockState (isLockedByState lockState) batteryLevel isConnected)
          lockId lockId operationResult) in
  if (length data =? 0)%nat
  then Throw (PlainError "未知的上报命令: undefined")
  else if command =? BusinessCmd.UPLOAD_STATUS then
    if negb (validateResponse data 7)
    then Throw (PlainError "无效的锁具状态上报数据")
    else finish (byteAt data 1) (byteAt data 2) (slice 3 7 data) None
  else if command =? BusinessCmd.GET_SYS_PARAM then
    if negb (validateResponse data 8)
    then Throw (PlainError "无效的设备信息上报数据")
    else finish (byteAt data 2) (byteAt data 3) (slice 4 8 data)
                (Some (byteAt data 1 =? 1))
  else Throw (PlainError ("未知的上报命令: " +:+ pretty command)).


(** *** Numbers and byte arrays *)

(** [n.toString(16)] on an integer. *)
Definition toString16 (n : Z) : string :=
  match n with
  | Z0 => "0"
  | Zpos p => HexString.Raw.of_pos p ""
  | Zneg p => "-" +:+ HexString.Raw.of_pos p ""
  end.

(** [numberToUint8Array(num, bytes)]: [array[i] = (num >> (i * 8)) & 0xFF],
    the shift count being taken modulo 32. *)
Definition numberToUint8Array (num : Z) (bytes : nat) : list Z :=
  map (fun i : nat =>
         Z.land (Z.shiftr (toInt32 num) ((Z.of_nat i * 8) mod 32)) 0xFF)
      (seq 0 bytes).

(** [lockIdToBytes(lockId)]: [parseInt] for a string ([NaN >>> 0] is 0),
    [idNum >>> 0], then the four bytes, low byte first. *)
Definition lockIdToBytes (lockId : LockId) : list Z :=
  let idNum :=
    match lockId with
    | LockIdNumber n => n
    | LockIdString s => default 0 (parseInt s)
    end in
  let idNum := idNum mod 2 ^ 32 in
  [ Z.land (Z.shiftr (toInt32 idNum) 0) 0xFF;
    Z.land (Z.shiftr (toInt32 idNum) 8) 0xFF;
    Z.land (Z.shiftr (toInt32 idNum) 16) 0xFF;
    Z.land (Z.shiftr (toInt32 idNum) 24) 0xFF ].

(** [CommandUtils.isDeviceReport(data)]: [validateResponse(data, 1)]
    first, then the opcode. *)
Definition isDeviceReport (data : list Z) : bool :=
  if negb (validateResponse data 1) then false
  else
    let command := byteAt data 0 in
    (command =? BusinessCmd.UPLOAD_STATUS) || (command =? BusinessCmd.GET_SYS_PARAM).

(** *** BCD time *)

(** A [Date] by its local-time fields: the values [dateToBCD] reads with
    [getFullYear()], [getMonth()] (0 to 11), [getDate()], [getHours()],
    [getMinutes()], [getSeconds()], and the six arguments [bcdToDate]
    gives to [new Date(year, month, day, hour, minute, second)]. *)
Record Date := mkDate {
  year : Z;
  month : Z;
  day : Z;
  hour : Z;
  minute : Z;
  second : Z;
}.

(** [dateToBCD(date)]: six numbers
    [((Math.floor(v / 10)) << 4) | (v % 10)]. *)
Definition dateToBCD (date : Date) : list Z :=
  let bcd v := Z.lor (shl32 (v / 10) 4) (toInt32 (Z.rem v 10)) in
  let y := Z.rem (year date) 100 in
  let m := month date + 1 in
  let d := day date in
  let h := hour date in
  let min := minute date in
  let s := second date in
  [bcd y; bcd m; bcd d; bcd h; bcd min; bcd s].

(** [bcdToDate(bcdTime)]: each byte is [(b >> 4) * 10 + (b & 0x0F)]. *)
Definition bcdToDate (bcdTime : list Z) : result Date :=
  if negb (length bcdTime =? 6)%nat then
    Throw (PlainError ("BCD时间数据长度错误，期望: 6字节，实际: "
                       +:+ pretty (length bcdTime) +:+ "字节"))
  else
    let dec i :=
      Z.shiftr (toInt32 (byteAt bcdTime i)) 4 * 10
      + Z.land (toInt32 (byteAt bcdTime i)) 0x0F in
    Ok (mkDate (dec 0%nat + 2000) (dec 1%nat - 1) (dec 2%nat)
               (dec 3%nat) (dec 4%nat) (dec 5%nat)).

(** *** Unlock log records (0x0B) *)

Inductive UnlockOperationType :=
  | NORMAL_UNLOCK | FORCE_UNLOCK | NORMAL_LOCK | FORCE_LOCK.

(** The object returned by [parseUnlockLogData]; [logSuccess] is
    ['SUCCESS'] or ['FAILED'], [logLockId] the number rendered by
    [toString()]. *)
Record UnlockLog := mkUnlockLog {
  logOperationType : UnlockOperationType;
  logSuccess : bool;
  logLockId : Z;
  logOperationTime : Date;
  logRawData : list Z;
}.

(** [parseUnlockLogData(data)] *)
Definition parseUnlockLogData (data : list Z) : result UnlockLog :=
  if negb (length data =? 13)%nat then
    Throw (PlainError ("开锁日志数据长度错误，期望: 13字节，实际: "
                       +:+ pretty (length data) +:+ "字节"))
  else
    let operationType := byteAt data 1 in
    let operationResult := byteAt data 2 in
    let lockIdBytes := slice 3 7 data in
    let timeBytes := slice 7 13 data in
    match
      if operationType =? 0x00 then Some NORMAL_UNLOCK
      else if operationType =? 0x01 then Some FORCE_UNLOCK
      else if operationType =? 0x02 then Some NORMAL_LOCK
      else if operationType =? 0x03 then Some FORCE_LOCK
      else None
    with
    | None =>
      Throw (PlainError ("无效的操作类型: 0x" +:+ toString16 operationType))
    | Some operationTypeStr =>
      let operationResultStr := operationResult =? 0x01 in
      let lockId := uint8ArrayToNumber lockIdBytes in
      match bcdToDate timeBytes with
      | Throw e => Throw e
      | Ok operationTime =>
        Ok (mkUnlockLog operationTypeStr operationResultStr lockId
                        operationTime data)
      end
    end.

(** [isUnlockLogData(data)] *)
Definition isUnlockLogData (data : list Z) : bool :=
  (1 <=? length data)%nat && (byteAt data 0 =? 0x0B).

(** *** Validation of a response against its command *)

(** The [parsedData] objects of the validators. *)
Inductive ParsedData :=
  (* { command, timestamp } *)
  | ParsedConnect (command : Z) (timestamp : list Z)
  (* { command, result } *)
  | ParsedResult (command result : Z)
  (* { command, result, lockState, batteryState, lockId, lockIdBytes } *)
  | ParsedDeviceInfo (command result lockState batteryState lockId : Z)
      (lockIdBytes : list Z)
  (* { command, lockState, batteryState, lockId, lockIdBytes } *)
  | ParsedUploadStatus (command lockState batteryState lockId : Z)
      (lockIdBytes : list Z)
  (* { command, keyData, keyLength } *)
  | ParsedAuth (command : Z) (keyData : list Z) (keyLength : nat)
  (* the object of [parseUnlockLogData] *)
  | ParsedUnlockLog (log : UnlockLog)
  (* the response itself *)
  | ParsedRaw (response : list Z).

(** [{ isValid, error?, parsedData? }] *)
Record ValidationResult := mkValidationResult {
  isValid : bool;
  error : option string;
  parsedData : option ParsedData;
}.

(** The message for a response of the wrong length. *)
Definition lengthError (what expected : string) (response : list Z) : string :=
  what +:+ "长度错误，期望: " +:+ expected +:+ "字节，实际: "
  +:+ pretty (length response) +:+ "字节".

Definition validateConnectResponse (response : list Z) : ValidationResult :=
  if negb (length response =? 5)%nat then
    mkValidationResult false (Some (lengthError "连接响应" "5" response)) None
  else
    mkValidationResult true None
      (Some (ParsedConnect (byteAt response 0) (slice 1 5 response))).

Definition validateTimeSyncResponse (response : list Z) : ValidationResult :=
  if negb (length response =? 2)%nat then
    mkValidationResult false (Some (lengthError "校时响应" "2" response)) None
  else
    let result := byteAt response 1 in
    if negb (result =? 0x01) then
      mkValidationResult false
        (Some ("校时响应结果错误，期望: 0x01，实际: 0x" +:+ toString16 result)) None
    else
      mkValidationResult true None (Some (ParsedResult (byteAt response 0) result)).

Definition validateReadDeviceInfoResponse (response : list Z) : ValidationResult :=
  if negb (length response =? 8)%nat then
    mkValidationResult false (Some (lengthError "设备信息响应" "8" response)) None
  else
    let result := byteAt response 1 in
    if negb (result =? 0x01) then
      mkValidationResult false
        (Some ("设备信息响应结果错误，期望: 0x01，实际: 0x" +:+ toString16 result)) None
    else
      let lockState := byteAt response 2 in
      let batteryState := byteAt response 3 in
      let lockIdBytes := slice 4 8 response in
      let lockId := uint8ArrayToNumber lockIdBytes in
      mkValidationResult true None
        (Some (ParsedDeviceInfo (byteAt response 0) result lockState batteryState
                                lockId lockIdBytes)).

Definition validateLockUnlockResponse (response : list Z) : ValidationResult :=
  if negb (length response =? 4)%nat then
    mkValidationResult false (Some (lengthError "开锁/关锁响应" "4" response)) None
  else
    let result := byteAt response 1 in
    if negb (result =? 0x01) then
      mkValidationResult false
        (Some ("开锁/关锁操作失败，结果码: 0x" +:+ toString16 result)) None
    else
      mkValidationResult true None (Some (ParsedResult (byteAt response 0) result)).

Definition validateUploadStatusResponse (response : list Z) : ValidationResult :=
  if negb (length response =? 7)%nat then
    mkValidationResult false (Some (lengthError "状态上报响应" "7" response)) None
  else
    let lockState := byteAt response 1 in
    let batteryState := byteAt response 2 in
    let lockIdBytes := slice 3 7 response in
    if negb (existsb (Z.eqb lockState) [0x00; 0x01; 0x02; 0x03]) then
      mkValidationResult false
        (Some ("无效的锁状态: 0x" +:+ toString16 lockState)) None
    else if negb (existsb (Z.eqb batteryState) [0x00; 0x01; 0x02; 0x03]) then
      mkValidationResult false
        (Some ("无效的电池状态: 0x" +:+ toString16 batteryState)) None
    else
      let lockId := uint8ArrayToNumber lockIdBytes in
      mkValidationResult true None
        (Some (ParsedUploadStatus (byteAt response 0) lockState batteryState
                                  lockId lockIdBytes)).

Definition validateAuthResponse (command : Z) (response : list Z) : ValidationResult :=
  if (length response <? 2)%nat then
    mkValidationResult false
      (Some ("认证响应长度错误，至少需要2字节，实际: "
             +:+ pretty (length response) +:+ "字节")) None
  else
    let keyData := drop 1 response in
    mkValidationResult true None
      (Some (ParsedAuth (byteAt response 0) keyData (length keyData))).

Definition validateTaskConfigResponse (response : list Z) : ValidationResult :=
  if negb (length response =? 2)%nat then
    mkValidationResult false (Some (lengthError "任务配置响应" "2" response)) None
  else
    let result := byteAt response 1 in
    if negb (result =? 0x01) then
      mkValidationResult false
        (Some ("任务配置操作失败，结果码: 0x" +:+ toString16 result)) None
    else
      mkValidationResult true None (Some (ParsedResult (byteAt response 0) result)).

Definition validateLockSegmentsResponse (response : list Z) : ValidationResult :=
  if negb (length response =? 2)%nat then
    mkValidationResult false (Some (lengthError "锁具段下发响应" "2" response)) None
  else
    let result := byteAt response 1 in
    if negb (result =? 0x01) then
      mkValidationResult false
        (Some ("锁具段下发操作失败，结果码: 0x" +:+ toString16 result)) None
    else
      mkValidationResult true None (Some (ParsedResult (byteAt response 0) result)).

Definition validateRecordUploadControlResponse (response : list Z)
    : ValidationResult :=
  if negb (length response =? 2)%nat then
    mkValidationResult false
      (Some (lengthError "记录上传控制响应" "2" response)) None
  else
    let result := byteAt response 1 in
    if negb (result =? 0x01) then
      mkValidationResult false
        (Some ("记录上传控制操作失败，结果码: 0x" +:+ toString16 result)) None
    else
      mkValidationResult true None (Some (ParsedResult (byteAt response 0) result)).

Definition validateUnlockLogData (response : list Z) : ValidationResult :=
  if negb (length response =? 13)%nat then
    mkValidationResult false (Some (lengthError "开锁日志数据" "13" response)) None
  else
    match parseUnlockLogData response with
    | Ok parsed => mkValidationResult true None (Some (ParsedUnlockLog parsed))
    | Throw e => mkValidationResult false (Some (errorMessage e)) None
    end.

(** [validateBusinessResponse(command, response)] *)
Definition validateBusinessResponse (command : Z) (response : list Z)
    : ValidationResult :=
  if (length response =? 0)%nat then
    mkValidationResult false (Some "响应数据为空") None
  else if negb (byteAt response 0 =? command) then
    mkValidationResult false
      (Some ("命令不匹配，期望: 0x" +:+ toString16 command
             +:+ ", 实际: 0x" +:+ toString16 (byteAt response 0))) None
  else if command =? 0x01 then validateConnectResponse response
  else if command =? 0x05 then validateTimeSyncResponse response
  else if command =? 0x06 then validateReadDeviceInfoResponse response
  else if command =? 0x08 then validateLockUnlockResponse response
  else if command =? 0x07 then validateUploadStatusResponse response
  else if command =? 0x0C then validateTaskConfigResponse response
  else if command =? 0x0D then validateLockSegmentsResponse response
  else if command =? 0x0A then validateRecordUploadControlResponse response
  else if command =? 0x0B then validateUnlockLogData response
  else if (command =? 0x02) || (command =? 0x03) || (command =? 0x04)
  then validateAuthResponse command response
  else mkValidationResult true None (Some (ParsedRaw response)).

End CommandUtils.

(** ** The engine (BluetoothKeySDK.ts) *)

Inductive ConnectionStatus := CONNECTING | CONNECTED | DISCONNECTING | DISCONNECTED.

(** [BluetoothKeyConnection]; the map key is its [deviceId], the service
    list is not kept. *)
Record BluetoothKeyConnection := mkConnection {
  connIsConnected : bool;
  connStatus : ConnectionStatus;
}.

(** The state of a promise. *)
Inductive Settlement :=
  | Pending
  | Resolved (value : list Z)
  | Rejected (error : Error).

(** [{ resolve, reject, timer }]: the promise the two closures settle, and
    the timer handle. *)
Record PendingResponse := mkPendingResponse {
  promise : nat;
  timer : nat;
}.

(** What an armed timer runs when it fires. *)
Inductive TimerCallback :=
  (* waitForFrameResponse: [deviceFrameResponses.delete(frameIndex);
     reject(readTimeout())], with the captured Map object *)
  | FrameTimeout (frameMap : nat) (frameIndex : Z) (promise : nat)
  (* _autoAuthenticate *)
  | AuthTimeout (deviceId : string) (promise : nat)
  (* startReceivingTimeoutTimer *)
  | ReceivingTimeout (deviceId : string).

(** An [emitEvent(type, data)] call. *)
Inductive Event :=
  | EvConnected (deviceId : string)
  | EvDisconnected (deviceId : string)
  | EvDeviceReport (deviceId : string) (data : list Z) (report : DeviceStatusReport)
  | EvLockStatusReport (deviceId : string) (data : list Z)
      (lockStatus : LockStatus) (lockId : Z)
  | EvDeviceInfoReport (deviceId : string) (data : list Z)
      (deviceInfo : Z) (lockId : Z)
  | EvError (deviceId : string) (error : string).

(** The fields of the class that the modelled paths use, the objects of
    the JS heap they share (inner [Map]s, promises, armed timers), and the
    two observable outputs: the events emitted and the [BleClient.write]
    calls.  [pendingMessages], [currentBusiness] and [businessResults]
    are only initialised, overwritten and deleted by these paths (no
    entry is ever added to an inner [pendingMessages] map) and are left
    out, as are the configuration, the scan state and the log listeners. *)
Record SDK := mkSDK {
  connections : gmap string BluetoothKeyConnection;
  frameIndexes : gmap string Z;
  dynamicKeys : gmap string (list Z);
  dataBuffers : gmap string (list Z);
  receivingTimeoutTimers : gmap string nat;
  pendingFrameResponses : gmap string nat;
  authStatusMap : gmap string bool;
  authPromises : gmap string PendingResponse;
  disconnectingDevices : gset string;
  frameMaps : gmap nat (gmap Z PendingResponse);
  promises : gmap nat Settlement;
  timers : gmap nat TimerCallback;
  nextId : nat;
  events : list Event;
  written : list (string * list Z);
}.

Definition set_connections f (s : SDK) : SDK :=
  let 'mkSDK a b c d e g h i j k l m n o p := s in mkSDK (f a) b c d e g h i j k l m n o p.
Definition set_frameIndexes f (s : SDK) : SDK :=
  let 'mkSDK a b c d e g h i j k l m n o p := s in mkSDK a (f b) c d e g h i j k l m n o p.
Definition set_dynamicKeys f (s : SDK) : SDK :=
  let 'mkSDK a b c d e g h i j k l m n o p := s in mkSDK a b (f c) d e g h i j k l m n o p.
Definition set_dataBuffers f (s : SDK) : SDK :=
  let 'mkSDK a b c d e g h i j k l m n o p := s in mkSDK a b c (f d) e g h i j k l m n o p.
Definition set_receivingTimeoutTimers f (s : SDK) : SDK :=
  let 'mkSDK a b c d e g h i j k l m n o p := s in mkSDK a b c d (f e) g h i j k l m n o p.
Definition set_pendingFrameResponses f (s : SDK) : SDK :=
  let 'mkSDK a b c d e g h i j k l m n o p := s in mkSDK a b c d e (f g) h i j k l m n o p.
Definition set_authStatusMap f (s : SDK) : SDK :=
  let 'mkSDK a b c d e g h i j k l m n o p := s in mkSDK a b c d e g (f h) i j k l m n o p.
Definition set_authPromises f (s : SDK) : SDK :=
  let 'mkSDK a b c d e g h i j k l m n o p := s in mkSDK a b c d e g h (f i) j k l m n o p.
Definition set_disconnectingDevices f (s : SDK) : SDK :=
  let 'mkSDK a b c d e g h i j k l m n o p := s in mkSDK a b c d e g h i (f j) k l m n o p.
Definition set_frameMaps f (s : SDK) : SDK :=
  let 'mkSDK a b c d e g h i j k l m n o p := s in mkSDK a b c d e g h i j (f k) l m n o p.
Definition set_promises f (s : SDK) : SDK :=
  let 'mkSDK a b c d e g h i j k l m n o p := s in mkSDK a b c d e g h i j k (f l) m n o p.
Definition set_timers f (s : SDK) : SDK :=
  let 'mkSDK a b c d e g h i j k l m n o p := s in mkSDK a b c d e g h i j k l (f m) n o p.
Definition set_nextId f (s : SDK) : SDK :=
  let 'mkSDK a b c d e g h i j k l m n o p := s in mkSDK a b c d e g h i j k l m (f n) o p.
Definition set_events f (s : SDK) : SDK :=
  let 'mkSDK a b c d e g h i j k l m n o p := s in mkSDK a b c d e g h i j k l m n (f o) p.
Definition set_written f (s : SDK) : SDK :=
  let 'mkSDK a b c d e g h i j k l m n o p := s in mkSDK a b c d e g h i j k l m n o (f p).

(** [new BluetoothKeySDK(config)] *)
Definition newSDK : SDK :=
  mkSDK ∅ ∅ ∅ ∅ ∅ ∅ ∅ ∅ ∅ ∅ ∅ ∅ 0%nat [] [].

(** The BLE plugin, an external collaborator: whether a call resolves,
    given the writes made so far. *)
Class BleClient := {
  bleWrite : list (string * list Z) -> string -> list Z -> bool;
  bleDisconnect : string -> bool;
}.

(** Methods run on the state and may throw; the state survives a throw. *)
Definition M (A : Type) : Type := SDK -> result A * SDK.

Global Instance M_ret : MRet M := fun A a s => (Ok a, s).
Global Instance M_bind : MBind M := fun A B k m s =>
  match m s with
  | (Ok a, s') => k a s'
  | (Throw e, s') => (Throw e, s')
  end.
Global Instance M_throw : MThrow Error M := fun A e s => (Throw e, s).

Definition getState : M SDK := fun s => (Ok s, s).
Definition modify (f : SDK -> SDK) : M unit := fun s => (Ok tt, f s).

(** [try { m } catch (error) { handler error }] *)
Definition tryCatch {A} (m : M A) (handler : Error -> M A) : M A := fun s =>
  match m s with
  | (Ok a, s') => (Ok a, s')
  | (Throw e, s') => handler e s'
  end.

(** [try { m } finally { fin }] *)
Definition tryFinally {A} (m : M A) (fin : M unit) : M A := fun s =>
  let '(r, s') := m s in
  match fin s' with
  | (Ok _, s'') => (r, s'')
  | (Throw e, s'') => (Throw e, s'')
  end.

(** [for (const x of xs) body x] *)
Fixpoint forEach {A} (xs : list A) (body : A -> M unit) : M unit :=
  match xs with
  | [] => mret tt
  | x :: xs' => body x ;; forEach xs' body
  end.

Module BluetoothKeySDK.
Section Engine.

Context (AesEcbCryptoFactory : CryptoFactory) (ble : BleClient).

(** *** The JS runtime: promises, timers, Map objects *)

(** [new Promise(...)], pending. *)
Definition newPromise : M nat := fun s =>
  let p := nextId s in
  (Ok p, set_promises (insert p Pending) (set_nextId S s)).

(** [resolve(v)] / [reject(e)]: only the first settlement counts. *)
Definition settle (p : nat) (v : Settlement) : M unit :=
  modify (fun s =>
    match promises s !! p with
    | Some Pending => set_promises (insert p v) s
    | _ => s
    end).

Definition setTimeout (cb : TimerCallback) : M nat := fun s =>
  let t := nextId s in
  (Ok t, set_timers (insert t cb) (set_nextId S s)).

Definition clearTimeout (t : nat) : M unit :=
  modify (set_timers (delete t)).

(** [new Map()] for frame responses. *)
Definition newFrameMap : M nat := fun s =>
  let m := nextId s in
  (Ok m, set_frameMaps (insert m ∅) (set_nextId S s)).

Definition emitEvent (e : Event) : M unit :=
  modify (set_events (fun es => es ++ [e])).

(** [await BleClient.write(deviceId, ..., data)] *)
Definition BleClient_write (deviceId : string) (packet : list Z) : M unit :=
  s ← getState;
  modify (set_written (fun w => w ++ [(deviceId, packet)])) ;;
  if bleWrite (written s) deviceId packet then mret tt
  else mthrow (PlainError "BleClient.write").

(** *** checkXorValidation *)

Definition checkXorValidation (requestData responseData : list Z) : bool :=
  if (length requestData =? 0)%nat || (length responseData =? 0)%nat then false
  else if negb (byteAt responseData 0 =? byteAt requestData 0) then false
  else
    let requestBody := drop 1 requestData in
    let responseBody := drop 1 responseData in
    if negb (length responseBody =? length requestBody)%nat then false
    else
      forallb (fun i => byteAt responseBody i =? Z.lxor (byteAt requestBody i) 0x5A)
              (seq 0 (length requestBody)).

(** *** The frame response matcher *)

(** [waitForFrameResponse(deviceId, frameIndex, timeout)]: the executor
    of the promise, up to the suspension; returns the promise awaited.
    The duration is not kept: an armed timer may fire at any later turn
    ([fireTimer]). *)
Definition waitForFrameResponse (deviceId : string) (frameIndex : Z) : M nat :=
  p ← newPromise;
  s ← getState;
  deviceFrameResponses ←
    match pendingFrameResponses s !! deviceId with
    | Some m => mret m
    | None => newFrameMap
    end;
  timer ← setTimeout (FrameTimeout deviceFrameResponses frameIndex p);
  modify (set_frameMaps
            (alter (insert frameIndex (mkPendingResponse p timer))
                   deviceFrameResponses)) ;;
  modify (set_pendingFrameResponses (insert deviceId deviceFrameResponses)) ;;
  mret p.

(** [resolveFrameResponse(deviceId, frameIndex, data)] *)
Definition resolveFrameResponse (deviceId : string) (frameIndex : Z)
    (data : list Z) : M unit :=
  s ← getState;
  match pendingFrameResponses s !! deviceId with
  | None => mret tt
  | Some m =>
    match default ∅ (frameMaps s !! m) !! frameIndex with
    | Some pendingResponse =>
      clearTimeout (timer pendingResponse) ;;
      modify (set_frameMaps (alter (delete frameIndex) m)) ;;
      settle (promise pendingResponse) (Resolved data)
    | None => mret tt
    end
  end.

(** [clearPendingFrameResponses(deviceId)].  The entries of the Map are
    visited in the order of [map_to_list]; each entry has its own
    promise and timer, so the order does not show in the state. *)
Definition clearPendingFrameResponses (deviceId : string) : M unit :=
  s ← getState;
  match pendingFrameResponses s !! deviceId with
  | None => mret tt
  | Some m =>
    forEach (map_to_list (default ∅ (frameMaps s !! m)))
      (fun entry =>
         clearTimeout (timer entry.2) ;;
         settle (promise entry.2)
           (Rejected (BluetoothKeySDKError.unknownError "连接断开，取消等待响应"))) ;;
    modify (set_frameMaps (alter (fun _ => ∅) m))
  end.

(** [_completeAuth(deviceId, success, error)] *)
Definition _completeAuth (deviceId : string) (success : bool)
    (error : option Error) : M unit :=
  s ← getState;
  match authPromises s !! deviceId with
  | None => mret tt
  | Some authPromise =>
    modify (set_authPromises (delete deviceId)) ;;
    clearTimeout (timer authPromise) ;;
    modify (set_authStatusMap (insert deviceId success)) ;;
    if success then settle (promise authPromise) (Resolved [])
    else settle (promise authPromise)
           (Rejected (default (BluetoothKeySDKError.unknownError "多步认证失败") error))
  end.

(** The deletions shared by [disconnectDevice] and
    [_handleDeviceDisconnected]: authentication state and timers. *)
Definition clearAuthAndTimers (deviceId : string) : M unit :=
  modify (set_authStatusMap (delete deviceId)) ;;
  s ← getState;
  match authPromises s !! deviceId with
  | Some authPromise =>
    clearTimeout (timer authPromise) ;;
    modify (set_authPromises (delete deviceId))
  | None => mret tt
  end ;;
  s ← getState;
  match receivingTimeoutTimers s !! deviceId with
  | Some t =>
    clearTimeout t ;;
    modify (set_receivingTimeoutTimers (delete deviceId))
  | None => mret tt
  end.

(** [disconnectDevice(deviceId)] *)
Definition disconnectDevice (deviceId : string) : M unit :=
  s ← getState;
  match connections s !! deviceId with
  | None => mret tt
  | Some connection =>
    if decide (deviceId ∈ disconnectingDevices s) then mret tt
    else
      tryFinally
        (tryCatch
           (modify (set_disconnectingDevices (fun d => {[deviceId]} ∪ d)) ;;
            modify (set_connections
                      (insert deviceId
                         (mkConnection (connIsConnected connection) DISCONNECTING))) ;;
            clearPendingFrameResponses deviceId ;;
            (if bleDisconnect deviceId then mret tt
             else mthrow (PlainError "BleClient.disconnect")) ;;
            modify (set_connections
                      (insert deviceId (mkConnection false DISCONNECTED))) ;;
            emitEvent (EvDisconnected deviceId) ;;
            modify (set_connections (delete deviceId)) ;;
            modify (set_frameIndexes (delete deviceId)) ;;
            modify (set_dynamicKeys (delete deviceId)) ;;
            modify (set_dataBuffers (delete deviceId)) ;;
            modify (set_pendingFrameResponses (delete deviceId)) ;;
            clearAuthAndTimers deviceId)
           (fun error =>
              mthrow (BluetoothKeySDKError.unknownError "断开连接失败")))
        (modify (set_disconnectingDevices (fun d => d ∖ {[deviceId]})))
  end.

(** [_handleDeviceDisconnected(deviceId)], the callback given to
    [BleClient.connect].  The early [return] sits inside the [try], so
    the [finally] runs on it too. *)
Definition _handleDeviceDisconnected (deviceId : string) : M unit :=
  tryFinally
    (tryCatch
       (s ← getState;
        if decide (deviceId ∈ disconnectingDevices s) then mret tt
        else
          modify (set_disconnectingDevices (fun d => {[deviceId]} ∪ d)) ;;
          match connections s !! deviceId with
          | Some connection =>
            modify (set_connections
                      (insert deviceId (mkConnection false DISCONNECTED)))
          | None => mret tt
          end ;;
          modify (set_frameIndexes (delete deviceId)) ;;
          modify (set_dynamicKeys (delete deviceId)) ;;
          modify (set_dataBuffers (delete deviceId)) ;;
          modify (set_pendingFrameResponses (delete deviceId)) ;;
          clearAuthAndTimers deviceId ;;
          emitEvent (EvDisconnected deviceId))
       (fun error => mret tt))
    (modify (set_disconnectingDevices (fun d => d ∖ {[deviceId]}))).

(** *** Building packets *)

(** The options object of [buildCompletePacket]: [frameIndex?] and the
    transport options. *)
Record BuildOptions := mkBuildOptions {
  optFrameIndex : option Z;
  optTransport : PackOptions;
}.

(** [await this.transportLayer.pack(...)], a rejection being a throw. *)
Definition transportPack (appData : list Z) (options : PackOptions) : M (list Z) :=
  match TransportLayerV1.pack AesEcbCryptoFactory appData options with
  | Some transportData => mret transportData
  | None => mthrow (PlainError "CryptoFactory.encrypt")
  end.

(** [buildCompletePacket(deviceId, applicationData, options)] *)
Definition buildCompletePacket (deviceId : string) (applicationData : list Z)
    (options : BuildOptions) : M (list Z) :=
  tryCatch
    (s ← getState;
     let frameIndex :=
       default (default 0 (frameIndexes s !! deviceId)) (optFrameIndex options) in
     let version := default 0x01 (optVersion (optTransport options)) in
     let ackType := default REQUEST_WITH_ACK (optAckType (optTransport options)) in
     let encryptType := default ENCRYPT (optEncryptType (optTransport options)) in
     let cryptoFactory := optCryptoFactory (optTransport options) in
     let secretKey :=
       default (default [] (dynamicKeys s !! deviceId))
               (optSecretKey (optTransport options)) in
     let appData := DefaultApplicationLayer.pack applicationData frameIndex in
     transportData ← transportPack appData
       (mkPackOptions (Some version) (Some ackType) (Some encryptType)
                      cryptoFactory (Some secretKey));
     let physicalData := PhysicalLayer.pack transportData in
     (if decide (ackType = REQUEST_WITH_ACK)
      then modify (set_frameIndexes (insert deviceId (Z.rem (frameIndex + 1) 256)))
      else mret tt) ;;
     mret physicalData)
    (fun error => mthrow (BluetoothKeySDKError.protocolError "数据包构建失败")).

(** [buildReplyPacket(deviceId, applicationData, frameIndex)], as its
    four callers use it (no [transportOptions]). *)
Definition buildReplyPacket (deviceId : string) (applicationData : list Z)
    (frameIndex : Z) : M (list Z) :=
  tryCatch
    (s ← getState;
     let secretKey := default [] (dynamicKeys s !! deviceId) in
     let appData := DefaultApplicationLayer.pack applicationData frameIndex in
     transportData ← transportPack appData
       (mkPackOptions (Some 0x01) (Some ACK) (Some ENCRYPT) None (Some secretKey));
     let physicalData := PhysicalLayer.pack transportData in
     mret physicalData)
    (fun error => mthrow (BluetoothKeySDKError.protocolError "回复数据包构建失败")).

(** *** sendCommand *)

(** [BluetoothKeyCommand]: [command], [data?] ([timeout?] is not kept). *)
Record BluetoothKeyCommand := mkCommand {
  cmdName : string;
  cmdData : option (list Z);
}.

(** [hay.includes(needle)] *)
Fixpoint includes (needle hay : string) : bool :=
  String.prefix needle hay
  || match hay with
     | String _ hay' => includes needle hay'
     | EmptyString => false
     end.

(** Where [sendCommand] stands when it first suspends on a response, or
    what it returns without waiting. *)
Inductive SendOutcome :=
  | Awaiting (response : nat) (frameIndex : Z)
  | Success
  | Failure (error : string).

(** [sendCommand(deviceId, command, transportOptions)] up to the
    [await this.waitForFrameResponse(...)]; the validation of the
    response that follows is [CommandUtils.validateBusinessResponse]. *)
Definition sendCommand (deviceId : string) (command : BluetoothKeyCommand)
    (transportOptions : option PackOptions) : M SendOutcome :=
  s ← getState;
  match connections s !! deviceId with
  | Some (mkConnection true _) =>
    tryCatch
      (let ackType :=
         default REQUEST_WITH_ACK (transportOptions ≫= optAckType) in
       s ← getState;
       let currentFrameIndex := default 0 (frameIndexes s !! deviceId) in
       packet ← buildCompletePacket deviceId (default [] (cmdData command))
         (mkBuildOptions (Some currentFrameIndex)
            (default (mkPackOptions None None None None None) transportOptions));
       BleClient_write deviceId packet ;;
       match ackType with
       | REQUEST_WITH_ACK =>
         p ← waitForFrameResponse deviceId currentFrameIndex;
         mret (Awaiting p currentFrameIndex)
       | REQUEST_WITHOUT_ACK =>
         if includes "READ" (cmdName command) || includes "GET" (cmdName command)
         then p ← waitForFrameResponse deviceId currentFrameIndex;
              mret (Awaiting p currentFrameIndex)
         else mret Success
       | _ => mret Success
       end)
      (fun error => mret (Failure (errorMessage error)))
  | _ => mthrow BluetoothKeySDKError.deviceNotConnected
  end.

(** *** Inbound dispatch *)

(** [isDeviceReport(data)] *)
Definition isDeviceReport (data : list Z) : bool :=
  if (length data =? 0)%nat then false
  else
    let command := byteAt data 0 in
    (command =? BusinessCmd.UPLOAD_STATUS) || (command =? BusinessCmd.GET_SYS_PARAM).

(** [handleDeviceReport(deviceId, data)]; the report object always has
    its [lockStatus] and [deviceInfo], so both guarded events follow. *)
Definition handleDeviceReport (deviceId : string) (data : list Z) : M unit :=
  match CommandUtils.parseDeviceStatusReport data with
  | Ok report =>
    emitEvent (EvDeviceReport deviceId data report) ;;
    emitEvent (EvLockStatusReport deviceId data (lockStatus report) (lockId report)) ;;
    emitEvent (EvDeviceInfoReport deviceId data (deviceInfo report) (lockId report))
  | Throw error =>
    emitEvent (EvError deviceId ("解析设备上报数据失败: " +:+ errorMessage error))
  end.

(** [handleDeviceActiveCommand(deviceId, frameIndex, data)] *)
Definition handleDeviceActiveCommand (deviceId : string) (frameIndex : Z)
    (data : list Z) : M unit :=
  tryCatch
    (let command := byteAt data 0 in
     let replyData :=
       if command =? BusinessCmd.UPLOAD_STATUS then [0x07; 0x01]
       else if command =? BusinessCmd.GET_SYS_PARAM then [0x05; 0x01]
       else [toUint8 command; 0x01] in
     replyPacket ← buildReplyPacket deviceId replyData frameIndex;
     BleClient_write deviceId replyPacket)
    (fun error => mret tt).

(** [cancelReceivingTimeoutTimer(deviceId)] *)
Definition cancelReceivingTimeoutTimer (deviceId : string) : M unit :=
  s ← getState;
  match receivingTimeoutTimers s !! deviceId with
  | Some t =>
    clearTimeout t ;;
    modify (set_receivingTimeoutTimers (delete deviceId))
  | None => mret tt
  end.

(** [startReceivingTimeoutTimer(deviceId)] *)
Definition startReceivingTimeoutTimer (deviceId : string) : M unit :=
  cancelReceivingTimeoutTimer deviceId ;;
  t ← setTimeout (ReceivingTimeout deviceId);
  modify (set_receivingTimeoutTimers (insert deviceId t)).

(** The reply of an authentication step:
    [buildReplyPacket] then [BleClient.write]. *)
Definition sendReply (deviceId : string) (replyData : list Z) (frameIndex : Z) : M unit :=
  replyPacket ← buildReplyPacket deviceId replyData frameIndex;
  BleClient_write deviceId replyPacket.

(** [handleRequestWithAckData(deviceId, frameIndex, command, data)] *)
Definition handleRequestWithAckData (deviceId : string) (frameIndex : Z)
    (command : Z) (data : list Z) : M unit :=
  tryCatch
    (if isDeviceReport data then
       handleDeviceReport deviceId data ;;
       handleDeviceActiveCommand deviceId frameIndex data
     else if command =? 0x02 then
       let xorData := map (fun b => Z.lxor b 0x5A) (drop 1 data) in
       sendReply deviceId ([0x02] ++ xorData) frameIndex ;;
       startReceivingTimeoutTimer deviceId
     else if command =? 0x03 then
       let newKey := drop 1 data in
       modify (set_dynamicKeys (insert deviceId newKey)) ;;
       sendReply deviceId ([0x03] ++ newKey) frameIndex ;;
       startReceivingTimeoutTimer deviceId
     else if command =? 0x04 then
       let newKey := drop 1 data in
       modify (set_dynamicKeys (insert deviceId newKey)) ;;
       sendReply deviceId ([0x04] ++ newKey) frameIndex ;;
       _completeAuth deviceId true None
     else resolveFrameResponse deviceId frameIndex data)
    (fun error => _completeAuth deviceId false (Some error)).

(** [handleApplicationData(deviceId, transportData, applicationData)].
    The [ACK] case first calls [handleAckData], which returns before any
    effect: it looks its request up in an inner [pendingMessages] map,
    and no path adds an entry to one. *)
Definition handleApplicationData (deviceId : string)
    (transportData : TransportData) (applicationData : ApplicationData) : M unit :=
  let frameIndex := frameIndex applicationData in
  let data := data applicationData in
  if (length data =? 0)%nat then mret tt
  else
    let command := byteAt data 0 in
    match ackType transportData with
    | ACK => resolveFrameResponse deviceId frameIndex data
    | REQUEST_WITH_ACK => handleRequestWithAckData deviceId frameIndex command data
    | REQUEST_WITHOUT_ACK => mret tt
    | NONE => mret tt
    end.

(** [_processPhysicalFrame(deviceId, physicalFrame, packetIndex)]; its
    two length checks and the slice are [PhysicalLayer.framePayload]. *)
Definition _processPhysicalFrame (deviceId : string) (physicalFrame : list Z) : M unit :=
  tryCatch
    (match PhysicalLayer.framePayload physicalFrame with
     | None => mret tt
     | Some payload =>
       s ← getState;
       let dynamicKey := default [] (dynamicKeys s !! deviceId) in
       match TransportLayerV1.unpack AesEcbCryptoFactory payload dynamicKey with
       | None => mthrow (PlainError "CryptoFactory.decrypt")
       | Some transportUnpackData =>
         if (length (tdata transportUnpackData) =? 0)%nat then mret tt
         else
           let applicationUnpackData :=
             DefaultApplicationLayer.unpack (tdata transportUnpackData) in
           if (length (data applicationUnpackData) =? 0)%nat then mret tt
           else handleApplicationData deviceId transportUnpackData
                  applicationUnpackData
       end
     end)
    (fun error =>
       emitEvent (EvError deviceId
         (errorMessage (BluetoothKeySDKError.protocolError "数据处理失败")))).

(** The first statement of [handleReceivedData]: the new bytes join the
    buffer of the device. *)
Definition appendToBuffer (deviceId : string) (data : list Z) : M unit :=
  modify (fun s =>
    set_dataBuffers
      (insert deviceId (default [] (dataBuffers s !! deviceId) ++ data)) s).

(** The first three statements of [_processBufferedFrames]: the complete
    frames leave the buffer, the remainder stays. *)
Definition takeBufferedFrames (deviceId : string) : M (list (list Z)) :=
  s ← getState;
  let buffer := default [] (dataBuffers s !! deviceId) in
  let '(frames, remain) := PhysicalLayer.unpackWithRemain buffer in
  modify (set_dataBuffers (insert deviceId remain)) ;;
  mret frames.

(** [_processBufferedFrames(deviceId)].  The source starts the asynchronous
    [_processPhysicalFrame] of each frame without awaiting it; here the
    frames are processed one after the other. *)
Definition _processBufferedFrames (deviceId : string) : M unit :=
  frames ← takeBufferedFrames deviceId;
  forEach frames (_processPhysicalFrame deviceId).

(** [handleReceivedData(deviceId, data)] *)
Definition handleReceivedData (deviceId : string) (data : list Z) : M unit :=
  appendToBuffer deviceId data ;;
  _processBufferedFrames deviceId ;;
  startReceivingTimeoutTimer deviceId.

(** A timer fires: it is disarmed and its callback runs. *)
Definition fireTimer (t : nat) : M unit :=
  s ← getState;
  match timers s !! t with
  | None => mret tt
  | Some cb =>
    modify (set_timers (delete t)) ;;
    match cb with
    | FrameTimeout deviceFrameResponses frameIndex p =>
      modify (set_frameMaps (alter (delete frameIndex) deviceFrameResponses)) ;;
      settle p (Rejected BluetoothKeySDKError.readTimeout)
    | AuthTimeout deviceId p =>
      modify (set_authPromises (delete deviceId)) ;;
      modify (set_authStatusMap (insert deviceId false)) ;;
      settle p (Rejected (BluetoothKeySDKError.unknownError "多步认证超时"))
    | ReceivingTimeout deviceId =>
      s ← getState;
      if (0 <? length (default [] (dataBuffers s !! deviceId)))%nat then
        _processBufferedFrames deviceId ;;
        modify (set_dataBuffers (insert deviceId []))
      else mret tt
    end
  end.

End Engine.
End BluetoothKeySDK.

(** ** The command builders (CommandUtils.ts)
    They return the [BluetoothKeyCommand] that [sendCommand] takes; its
    [data] is a [Uint8Array], so every element is stored modulo 256. *)

Module CommandBuilders.
Import BluetoothKeySDK.

(** [buildTimeSyncCommand()], [new Date()] being given. *)
Definition buildTimeSyncCommand (now : CommandUtils.Date) : BluetoothKeyCommand :=
  let bcd := CommandUtils.dateToBCD now in
  mkCommand "TIME_SYNC" (Some (map toUint8 ([0x05] ++ bcd))).

Definition buildUnlockCommand (lockId : LockId) : BluetoothKeyCommand :=
  let lockIdBytes := CommandUtils.lockIdToBytes lockId in
  mkCommand "UNLOCK" (Some (map toUint8 ([0x08; 0x00] ++ lockIdBytes))).

Definition buildLockCommand (lockId : LockId) : BluetoothKeyCommand :=
  let lockIdBytes := CommandUtils.lockIdToBytes lockId in
  mkCommand "LOCK" (Some (map toUint8 ([0x08; 0x02] ++ lockIdBytes))).

Definition buildForceUnlockCommand (lockId : LockId) : BluetoothKeyCommand :=
  let lockIdBytes := CommandUtils.lockIdToBytes lockId in
  mkCommand "FORCE_UNLOCK" (Some (map toUint8 ([0x08; 0x01] ++ lockIdBytes))).

Definition buildForceLockCommand (lockId : LockId) : BluetoothKeyCommand :=
  let lockIdBytes := CommandUtils.lockIdToBytes lockId in
  mkCommand "FORCE_LOCK" (Some (map toUint8 ([0x08; 0x03] ++ lockIdBytes))).

(** [buildLockSegmentsCommand(lockIds)] *)
Definition buildLockSegmentsCommand (lockIds : list LockId)
    : list BluetoothKeyCommand :=
  let segments := CommandUtils.convertLockIdsToSegments lockIds in
  let packets := CommandUtils.convertSegmentsToPackets segments in
  map (fun packet => mkCommand "LOCK_SEGMENTS" (Some packet)) packets.

End CommandBuilders.

(** * Definitions for the statements

    What the properties below are stated with: the reference format of
    the spec for the segment packets, the predicates of the claims, and
    small sessions on which the engine is run. *)

(** ** Physical frames *)

(** The two length bytes and the checksum byte [pack] writes. *)
Definition lengthLo (data : list Z) : Z :=
  Z.land (Z.of_nat (length data) + 1) 0xFF.
Definition lengthHi (data : list Z) : Z :=
  Z.land (Z.shiftr (Z.of_nat (length data) + 1) 8) 0xFF.
Definition packChecksum (data : list Z) : Z :=
  Z.land (sumBytes (0xA5 :: 0x5A :: lengthLo data :: lengthHi data :: data)) 0xFF.

(** A candidate frame whose checksum byte is wrong: header, length 2, one
    payload byte, checksum 0x00 where the sum is 0x02. *)
Definition badChecksumFrame : list Z := [0xA5; 0x5A; 0x02; 0x00; 0x01; 0x00].

(** ** checkXorValidation *)

(** What the spec asks of an accepted response. *)
Definition xorAccepted (requestData responseData : list Z) : Prop :=
  requestData <> [] /\ responseData <> []
  /\ byteAt responseData 0 = byteAt requestData 0
  /\ length (drop 1 responseData) = length (drop 1 requestData)
  /\ forall i : nat, (i < length (drop 1 requestData))%nat ->
       byteAt (drop 1 responseData) i = Z.lxor (byteAt (drop 1 requestData) i) 0x5A.

(** ** Segment packets *)

(** The reference wire format of the spec for opcode 0x0D, against which
    [convertSegmentsToPackets] is compared: the opcode, the number of
    ranges, then for each range its two endpoints as 4-byte little-endian
    words; and the decoder a receiver of that format runs. *)
Module LockSegmentsFormat.

Definition leBytes (n : Z) : list Z :=
  [n mod 256; (n / 2 ^ 8) mod 256; (n / 2 ^ 16) mod 256; (n / 2 ^ 24) mod 256].

Definition leWord (b : list Z) : Z :=
  byteAt b 0 + byteAt b 1 * 2 ^ 8 + byteAt b 2 * 2 ^ 16 + byteAt b 3 * 2 ^ 24.

Definition rangeBytes (range : Z * Z) : list Z :=
  leBytes range.1 ++ leBytes range.2.

Definition encodeRanges (ranges : list (Z * Z)) : list Z :=
  0x0D :: Z.of_nat (length ranges) :: flat_map rangeBytes ranges.

Fixpoint decodeRanges (count : nat) (body : list Z) : list (Z * Z) :=
  match count with
  | O => []
  | S count' =>
    (leWord (take 4 body), leWord (take 4 (drop 4 body)))
    :: decodeRanges count' (drop 8 body)
  end.

Definition decodePacket (packet : list Z) : list (Z * Z) :=
  decodeRanges (Z.to_nat (byteAt packet 1)) (drop 2 packet).

(** An endpoint that fits the 4-byte word. *)
Definition inWord (n : Z) : Prop := 0 <= n < 2 ^ 32.

End LockSegmentsFormat.

(** A group of ranges that fits one packet. *)
Definition okGroup (group : list (Z * Z)) : Prop :=
  (1 <= length group <= 25)%nat.

(** A range whose two endpoints fit their words. *)
Definition inRange (range : Z * Z) : Prop := LockSegmentsFormat.inWord range.1 /\ LockSegmentsFormat.inWord range.2.

(** ** Lock ids to segments *)

(** The numbers kept by [convertLockIdsToSegments]: the ids parsed, the
    positive ones. *)
Definition positiveIds (lockIds : list LockId) : list Z :=
  filter (fun id => 0 < id) (map CommandUtils.lockIdToNumber lockIds).

(** [x] lies in one of the inclusive ranges. *)
Definition covers (segments : list (Z * Z)) (x : Z) : Prop :=
  exists segment, segment ∈ segments /\ segment.1 <= x <= segment.2.

(** Two ranges in ascending order that neither overlap nor touch. *)
Definition apart (s1 s2 : Z * Z) : Prop := s1.2 + 1 < s2.1.

(** The loop of [convertLockIdsToSegments] without its accumulator. *)
Fixpoint segmentsFrom (ids : list Z) (start end_ : Z) : list (Z * Z) :=
  match ids with
  | [] => [(start, end_)]
  | id :: ids' =>
    if id =? end_ + 1 then segmentsFrom ids' start id
    else (start, end_) :: segmentsFrom ids' id id
  end.

(** ** Byte arrays and frames *)

(** A value that a [Uint8Array] slot holds. *)
Definition isByte (b : Z) : Prop := 0 <= b < 256.

(** A frame as the receiver expects it: the two header bytes, at least
    one byte between the length field and the checksum, a length field
    that counts the bytes after it, and a checksum byte equal to the sum
    of the bytes before it modulo 256. *)
Definition wellFormedFrame (frame : list Z) : Prop :=
  take 2 frame = PhysicalLayer.header
  /\ (5 <= length frame)%nat
  /\ length frame = PhysicalLayer.totalLenAt frame 0
  /\ PhysicalLayer.checksumOkAt frame 0 = true.

(** ** Dates and BCD bytes *)

(** The field values that the getters of a [Date] return. *)
Definition validDate (date : CommandUtils.Date) : Prop :=
  0 <= CommandUtils.year date
  /\ 0 <= CommandUtils.month date <= 11
  /\ 1 <= CommandUtils.day date <= 31
  /\ 0 <= CommandUtils.hour date <= 23
  /\ 0 <= CommandUtils.minute date <= 59
  /\ 0 <= CommandUtils.second date <= 59.

(** The BCD number [dateToBCD] writes for a field value, and the value
    [bcdToDate] reads from a byte. *)
Definition bcdEncode (v : Z) : Z :=
  Z.lor (shl32 (v / 10) 4) (toInt32 (Z.rem v 10)).
Definition bcdDecode (b : Z) : Z :=
  Z.shiftr (toInt32 b) 4 * 10 + Z.land (toInt32 b) 0x0F.

(** The commands answered by an opcode and a result byte alone:
    TIME_SYNC, TASK_CONFIG, LOCK_SEGMENTS, RECORD_UPLOAD_CONTROL. *)
Definition resultCoded : list Z := [0x05; 0x0C; 0x0D; 0x0A].

(** ** The waiters of the frame response matcher *)

(** The Map object of the device holds the waiter [w] under
    [frameIndex]. *)
Definition waiting (s : SDK) (deviceId : string) (frameIndex : Z)
    (w : PendingResponse) : Prop :=
  exists m waiters,
    pendingFrameResponses s !! deviceId = Some m
    /\ frameMaps s !! m = Some waiters
    /\ waiters !! frameIndex = Some w.

(** The Map object that [pendingFrameResponses] holds for the device, if
    any, is an object of the heap. *)
Definition mapAllocated (s : SDK) (deviceId : string) : Prop :=
  forall m, pendingFrameResponses s !! deviceId = Some m -> is_Some (frameMaps s !! m).

(** ** Running the engine *)

(** The state after a run, whatever it returned. *)
Definition exec {A} (m : M A) (s : SDK) : SDK := (m s).2.

(** A step keeps a property of the state. *)
Definition keeps {A} (I : SDK -> Prop) (m : M A) : Prop :=
  forall s, I s -> I (exec m s).

(** The reassembler on a run of notifications: the buffering of
    [handleReceivedData] and [_processBufferedFrames], returning the
    frames found instead of processing them. *)
Fixpoint receiveChunks (deviceId : string) (chunks : list (list Z))
    : M (list (list Z)) :=
  match chunks with
  | [] => mret []
  | chunk :: chunks' =>
    BluetoothKeySDK.appendToBuffer deviceId chunk ;;
    frames ← BluetoothKeySDK.takeBufferedFrames deviceId;
    frames' ← receiveChunks deviceId chunks';
    mret (frames ++ frames')
  end.

(** [this.frameIndexes.get(deviceId) || 0] *)
Definition currentFrameIndex (s : SDK) (deviceId : string) : Z :=
  default 0 (frameIndexes s !! deviceId).

(** The [ackType] a call of [buildCompletePacket] sends with. *)
Definition sentAckType (options : BluetoothKeySDK.BuildOptions) : TransportAckType :=
  default REQUEST_WITH_ACK (optAckType (BluetoothKeySDK.optTransport options)).

(** The frame index a call of [buildCompletePacket] builds with:
    [options.frameIndex], or the counter of the device when the option
    is absent. *)
Definition usedFrameIndex (s : SDK) (deviceId : string)
    (options : BluetoothKeySDK.BuildOptions) : Z :=
  default (currentFrameIndex s deviceId) (BluetoothKeySDK.optFrameIndex options).

(** The packet the three layers give for a command: the application
    message under the frame index used, packed by the transport layer
    with the options of the call (the key of the device when none is
    given) and framed by the physical layer; [None] when the cipher
    throws. *)
Definition builtWire (aes : CryptoFactory) (s : SDK) (deviceId : string)
    (applicationData : list Z) (options : BluetoothKeySDK.BuildOptions)
    : option (list Z) :=
  let transport := BluetoothKeySDK.optTransport options in
  PhysicalLayer.pack <$>
    TransportLayerV1.pack aes
      (DefaultApplicationLayer.pack applicationData (usedFrameIndex s deviceId options))
      (mkPackOptions (Some (default 0x01 (optVersion transport)))
                     (Some (sentAckType options))
                     (Some (default ENCRYPT (optEncryptType transport)))
                     (optCryptoFactory transport)
                     (Some (default (default [] (dynamicKeys s !! deviceId))
                                    (optSecretKey transport)))).

(** The error of [clearPendingFrameResponses]: the connection is closed. *)
Definition connectionClosed : Error :=
  BluetoothKeySDKError.unknownError "连接断开，取消等待响应".

(** What the loop of [clearPendingFrameResponses] does to the promises
    and to the armed timers. *)
Definition rejectAll (entries : list (Z * PendingResponse))
    (ps : gmap nat Settlement) : gmap nat Settlement :=
  fold_left
    (fun ps entry =>
       match ps !! promise entry.2 with
       | Some Pending => <[promise entry.2 := Rejected connectionClosed]> ps
       | _ => ps
       end)
    entries ps.

Definition clearTimers (entries : list (Z * PendingResponse))
    (ts : gmap nat TimerCallback) : gmap nat TimerCallback :=
  fold_left (fun ts entry => delete (timer entry.2) ts) entries ts.

(** A promise rejected for the closed connection, its timer disarmed. *)
Definition cancelled (w : PendingResponse) (s : SDK) : Prop :=
  promises s !! promise w = Some (Rejected connectionClosed)
  /\ timers s !! timer w = None.

(** The packet of a reply: the reply bytes under the frame index, as an
    encrypted ACK, when the cipher gives a ciphertext. *)
Definition replyWire (aes : CryptoFactory) (secretKey : list Z) (frameIndex : Z)
    (replyData : list Z) : option (list Z) :=
  PhysicalLayer.pack <$>
    TransportLayerV1.pack aes (DefaultApplicationLayer.pack replyData frameIndex)
      (mkPackOptions (Some 0x01) (Some ACK) (Some ENCRYPT) None (Some secretKey)).

(** The length a report must have to be parsed: 7 bytes for
    UPLOAD_STATUS, 8 bytes for GET_SYS_PARAM. *)
Definition reportLength (opcode : Z) : nat :=
  if opcode =? BusinessCmd.UPLOAD_STATUS then 7%nat else 8%nat.

(** The three events of a parsed report. *)
Definition reportEvents (deviceId : string) (data : list Z)
    (report : DeviceStatusReport) : list Event :=
  [ EvDeviceReport deviceId data report;
    EvLockStatusReport deviceId data (lockStatus report) (lockId report);
    EvDeviceInfoReport deviceId data (deviceInfo report) (lockId report) ].

(** The bytes [handleDeviceActiveCommand] answers a report with. *)
Definition reportReplyData (data : list Z) : list Z :=
  if byteAt data 0 =? BusinessCmd.UPLOAD_STATUS then [0x07; 0x01]
  else if byteAt data 0 =? BusinessCmd.GET_SYS_PARAM then [0x05; 0x01]
  else [toUint8 (byteAt data 0); 0x01].

(** ** Sessions for the examples *)

(** A stand-in cipher that leaves the bytes as they are. *)
Definition plainCrypto : CryptoFactory :=
  {| encrypt := fun data _ => Some data; decrypt := fun data _ => Some data |}.

(** A BLE link on which every call resolves. *)
Definition reliableBle : BleClient :=
  {| bleWrite := fun _ _ _ => true; bleDisconnect := fun _ => true |}.

(** The state that [connectToDevice] sets up for a device once the
    notifications are on ("初始化连接特定的状态"), before it authenticates. *)
Definition initConnection (deviceId : string) (secretKey : list Z) : M unit :=
  modify (set_connections (insert deviceId (mkConnection true CONNECTED))) ;;
  modify (set_frameIndexes (insert deviceId 0)) ;;
  modify (set_dynamicKeys (insert deviceId secretKey)) ;;
  modify (set_dataBuffers (insert deviceId [])) ;;
  m ← BluetoothKeySDK.newFrameMap;
  modify (set_pendingFrameResponses (insert deviceId m)) ;;
  modify (set_authStatusMap (delete deviceId)) ;;
  BluetoothKeySDK.emitEvent (EvConnected deviceId).

(** A connected device with one request in flight on frame index 0:
    promise 1 is awaited, timer 2 is armed. *)
Definition oneWaiter : SDK :=
  exec (initConnection "lock-1" [] ;;
        BluetoothKeySDK.waitForFrameResponse "lock-1" 0) newSDK.

(** A well-formed UPLOAD_STATUS report (locked and closed, battery high,
    lock 1), a truncated one, and a GET_SYS_PARAM report. *)
Definition statusReport : list Z := [0x07; 0x05; 0x02; 0x01; 0x00; 0x00; 0x00].
Definition shortStatusReport : list Z := [0x07; 0x05].
Definition infoReport : list Z := [0x06; 0x01; 0x05; 0x02; 0x01; 0x00; 0x00; 0x00].


(** ** More sessions for the examples *)

(** A connected device with nothing in flight. *)
Definition connectedSession : SDK :=
  exec (initConnection "lock-1" []) newSDK.

(** The promise that [_autoAuthenticate] registers for a device, with
    its timer, before it starts the handshake. *)
Definition registerAuth (deviceId : string) : M nat :=
  p ← BluetoothKeySDK.newPromise;
  timer ← BluetoothKeySDK.setTimeout (AuthTimeout deviceId p);
  modify (set_authPromises (insert deviceId (mkPendingResponse p timer))) ;;
  mret p.

(** A connected device whose authentication is under way: promise 1 is
    awaited, timer 2 is armed. *)
Definition authenticating : SDK :=
  exec (initConnection "lock-1" [] ;; registerAuth "lock-1") newSDK.

(** A connected device whose idle timer (timer 1) is armed over three
    buffered bytes of an unfinished frame. *)
Definition buffering : SDK :=
  exec (initConnection "lock-1" [] ;;
        BluetoothKeySDK.handleReceivedData plainCrypto reliableBle "lock-1"
          [0xA5; 0x5A; 0x05]) newSDK.

(** A BLE link on which every call rejects. *)
Definition brokenBle : BleClient :=
  {| bleWrite := fun _ _ _ => false; bleDisconnect := fun _ => false |}.

(** * Properties *)

(** ** Arrays *)

Lemma byteAt_lookup (a : list Z) (i : nat) : byteAt a i = default 0 (a !! i).
Proof. unfold byteAt. apply nth_lookup. Qed.

Lemma byteAt_drop (a : list Z) (n i : nat) : byteAt (drop n a) i = byteAt a (n + i).
Proof. rewrite !byteAt_lookup, lookup_drop. reflexivity. Qed.

Lemma byteAt_app_l (a b : list Z) (i : nat) :
  (i < length a)%nat -> byteAt (a ++ b) i = byteAt a i.
Proof. intros H. rewrite !byteAt_lookup, lookup_app_l by exact H. reflexivity. Qed.

Lemma byteAt_app_r (a b : list Z) (i : nat) :
  (length a <= i)%nat -> byteAt (a ++ b) i = byteAt b (i - length a).
Proof. intros H. rewrite !byteAt_lookup, lookup_app_r by exact H. reflexivity. Qed.

Lemma sumBytes_from (a : list Z) (z : Z) : fold_left Z.add a z = z + sumBytes a.
Proof.
  unfold sumBytes. revert z. induction a as [|x a IH]; intros z; simpl.
  - lia.
  - rewrite (IH (z + x)), (IH (0 + x)). lia.
Qed.

Lemma sumBytes_app (a b : list Z) : sumBytes (a ++ b) = sumBytes a + sumBytes b.
Proof. unfold sumBytes at 1. rewrite fold_left_app. apply sumBytes_from. Qed.

Lemma slice_drop {A} (a : list A) (index n : nat) :
  slice index (index + n) a = take n (drop index a).
Proof. unfold slice. f_equal. lia. Qed.

(** ** Physical framing *)

Section PhysicalLayerFacts.
Import PhysicalLayer.

(** One turn of the loop is the step taken on the suffix at the cursor. *)
Lemma unpackLoop_step fuel data index result :
  unpackLoop (S fuel) data index result =
  match step (drop index data) with
  | Stop => (result, index)
  | Skip => unpackLoop fuel data (index + 1) result
  | Emit totalLen =>
    unpackLoop fuel data (index + totalLen)
      (result ++ [take totalLen (drop index data)])
  end.
Proof.
  unfold step. cbn [unpackLoop].
  rewrite length_drop, !byteAt_drop.
  replace (index + 0)%nat with index by lia.
  replace (5 <=? length data - index)%nat with (index + 5 <=? length data)%nat
    by (destruct (Nat.leb_spec (index + 5) (length data));
        destruct (Nat.leb_spec 5 (length data - index)); lia).
  destruct (index + 5 <=? length data)%nat; cbn [negb]; [|reflexivity].
  destruct (negb (byteAt data index =? byteAt header 0)
            || negb (byteAt data (index + 1) =? byteAt header 1)); [reflexivity|].
  set (len := Z.to_nat _).
  replace (length data - index <? 4 + len)%nat
    with (length data <? index + (4 + len))%nat
    by (destruct (Nat.ltb_spec (length data) (index + (4 + len)));
        destruct (Nat.ltb_spec (length data - index) (4 + len)); lia).
  destruct (length data <? index + (4 + len))%nat; [reflexivity|].
  replace (index + (4 + len) - 1)%nat with (index + (4 + len - 1))%nat by lia.
  rewrite !slice_drop.
  destruct (negb _); reflexivity.
Qed.

Lemma step_Skip_length buf : step buf = Skip -> (5 <= length buf)%nat.
Proof.
  unfold step. destruct (Nat.leb_spec 5 (length buf)); [auto|discriminate].
Qed.

Lemma step_Emit_length buf totalLen :
  step buf = Emit totalLen -> (4 <= totalLen <= length buf)%nat.
Proof.
  unfold step. destruct (negb (5 <=? length buf)%nat); [discriminate|].
  destruct (_ || _); [discriminate|].
  set (len := Z.to_nat _).
  destruct (Nat.ltb_spec (length buf) (4 + len)); [discriminate|].
  destruct (negb _); [discriminate|].
  intros [= <-]. lia.
Qed.

(** Enough fuel: the scan does not depend on it. *)
Lemma scan_fuel n m buf :
  (length buf <= n)%nat -> (length buf <= m)%nat -> scan n buf = scan m buf.
Proof.
  revert m buf. induction n as [|n IH]; intros m buf Hn Hm.
  - destruct buf; [|simpl in Hn; lia].
    destruct m; reflexivity.
  - destruct m as [|m].
    + destruct buf; [reflexivity|simpl in Hm; lia].
    + cbn [scan]. destruct (step buf) as [| |totalLen] eqn:Hstep.
      * reflexivity.
      * apply step_Skip_length in Hstep.
        apply IH; rewrite length_drop; lia.
      * apply step_Emit_length in Hstep.
        rewrite (IH m); [reflexivity| |]; rewrite length_drop; lia.
Qed.

(** The loop at a cursor is the scan of the suffix there. *)
Lemma unpackLoop_scan fuel data index result :
  let '(frames, idx) := unpackLoop fuel data index result in
  (frames, drop idx data) =
  let '(frames', remain) := scan fuel (drop index data) in
  (result ++ frames', remain).
Proof.
  revert index result. induction fuel as [|fuel IH]; intros index result.
  - cbn. rewrite app_nil_r. reflexivity.
  - rewrite unpackLoop_step. cbn [scan].
    destruct (step (drop index data)) as [| |totalLen] eqn:Hstep.
    + rewrite app_nil_r. reflexivity.
    + specialize (IH (index + 1)%nat result).
      rewrite drop_drop. exact IH.
    + specialize (IH (index + totalLen)%nat
                     (result ++ [take totalLen (drop index data)])).
      rewrite drop_drop.
      destruct (unpackLoop fuel data (index + totalLen) _) as [frames idx].
      destruct (scan fuel (drop (index + totalLen) data)) as [frames' remain].
      rewrite IH, <- app_assoc. reflexivity.
Qed.

Lemma unpackWithRemain_scan data :
  unpackWithRemain data = scan (length data) data.
Proof.
  unfold unpackWithRemain.
  pose proof (unpackLoop_scan (length data) data 0 []) as H.
  destruct (unpackLoop (length data) data 0 []) as [frames idx].
  rewrite H. rewrite drop_0.
  destruct (scan (length data) data). reflexivity.
Qed.

(** [length data] turns of the loop are enough: more fuel changes
    nothing, so the loop of the model always ends on its own test. *)
Lemma unpackLoop_fuel fuel data :
  (length data <= fuel)%nat ->
  (let '(frames, idx) := unpackLoop fuel data 0 [] in (frames, drop idx data))
  = unpackWithRemain data.
Proof.
  intros Hfuel. rewrite unpackWithRemain_scan.
  pose proof (unpackLoop_scan fuel data 0 []) as H.
  destruct (unpackLoop fuel data 0 []) as [frames idx].
  rewrite H, drop_0, (scan_fuel fuel (length data)) by lia.
  destruct (scan (length data) data). reflexivity.
Qed.

Lemma scan_remain_length n buf : (length (scan n buf).2 <= length buf)%nat.
Proof.
  revert buf. induction n as [|n IH]; intros buf; [reflexivity|].
  cbn [scan]. destruct (step buf) as [| |totalLen]; [reflexivity| |].
  - etransitivity; [apply IH|]. rewrite length_drop. lia.
  - specialize (IH (drop totalLen buf)).
    destruct (scan n (drop totalLen buf)) as [frames remain].
    cbn in *. rewrite length_drop in IH. lia.
Qed.

(** A turn that does not stop reads only bytes it already has: more
    bytes after the buffer do not change it. *)
Lemma step_app a b : step a <> Stop -> step (a ++ b) = step a.
Proof.
  unfold step. rewrite length_app.
  destruct (Nat.leb_spec 5 (length a)) as [H5|]; cbn [negb];
    [|intros; congruence].
  replace (5 <=? length a + length b)%nat with true
    by (symmetry; apply Nat.leb_le; lia).
  cbn [negb]. rewrite !byteAt_app_l by lia.
  destruct (_ || _); [reflexivity|].
  set (len := Z.to_nat _).
  destruct (Nat.ltb_spec (length a) (4 + len)) as [|Hlen];
    [intros; congruence|].
  replace (length a + length b <? 4 + len)%nat with false
    by (symmetry; apply Nat.ltb_ge; lia).
  rewrite take_app_le, byteAt_app_l by lia. reflexivity.
Qed.

(** The heart of the reassembly: scanning [a ++ b] is scanning [a], then
    scanning what [a] left followed by [b]. *)
Lemma scan_app n a b n1 n3 :
  (length a <= n)%nat ->
  (length a + length b <= n1)%nat ->
  (length a + length b <= n3)%nat ->
  scan n1 (a ++ b) =
  let '(f1, r1) := scan n a in
  let '(f2, r2) := scan n3 (r1 ++ b) in
  (f1 ++ f2, r2).
Proof.
  revert a n1. induction n as [|n IH]; intros a n1 Hn Hn1 Hn3.
  - destruct a; [|simpl in Hn; lia]. cbn.
    rewrite (scan_fuel n1 n3) by (simpl in *; lia).
    destruct (scan n3 b). reflexivity.
  - cbn [scan]. destruct (step a) as [| |totalLen] eqn:Hstep.
    + rewrite (scan_fuel n1 n3) by (rewrite length_app; lia).
      destruct (scan n3 (a ++ b)). reflexivity.
    + pose proof (step_Skip_length _ Hstep) as H5.
      rewrite (scan_fuel n1 (S (length a + length b)))
        by (rewrite ?length_app; lia).
      cbn [scan]. rewrite step_app, Hstep by congruence.
      rewrite drop_app_le by lia.
      apply IH; rewrite ?length_drop; lia.
    + pose proof (step_Emit_length _ _ Hstep) as Ht.
      rewrite (scan_fuel n1 (S (length a + length b)))
        by (rewrite ?length_app; lia).
      cbn [scan]. rewrite step_app, Hstep by congruence.
      rewrite drop_app_le, take_app_le by lia.
      rewrite (IH (drop totalLen a) (length a + length b)%nat)
        by (rewrite ?length_drop; lia).
      destruct (scan n (drop totalLen a)) as [f1 r1].
      destruct (scan n3 (r1 ++ b)) as [f2 r2]. reflexivity.
Qed.

Lemma unpackWithRemain_app a b :
  unpackWithRemain (a ++ b) =
  let '(f1, r1) := unpackWithRemain a in
  let '(f2, r2) := unpackWithRemain (r1 ++ b) in
  (f1 ++ f2, r2).
Proof.
  rewrite !unpackWithRemain_scan.
  rewrite (scan_app (length a) a b (length (a ++ b)) (length a + length b))
    by (rewrite ?length_app; lia).
  pose proof (scan_remain_length (length a) a) as Hr.
  destruct (scan (length a) a) as [f1 r1]. cbn in Hr.
  rewrite unpackWithRemain_scan.
  rewrite (scan_fuel (length (r1 ++ b)) (length a + length b))
    by (rewrite ?length_app; lia).
  reflexivity.
Qed.

Lemma feedChunks_cons buffer chunk chunks :
  feedChunks buffer (chunk :: chunks)
  = unpackWithRemain (buffer ++ chunk ++ concat chunks).
Proof.
  revert buffer chunk. induction chunks as [|chunk' chunks IH]; intros buffer chunk.
  - cbn. rewrite !app_nil_r.
    destruct (unpackWithRemain (buffer ++ chunk)).
    rewrite app_nil_r. reflexivity.
  - change (feedChunks buffer (chunk :: chunk' :: chunks)) with
      (let '(frames, remain) := unpackWithRemain (buffer ++ chunk) in
       let '(frames', remain') := feedChunks remain (chunk' :: chunks) in
       (frames ++ frames', remain')).
    cbn [concat].
    rewrite (app_assoc buffer chunk (chunk' ++ concat chunks)).
    rewrite (unpackWithRemain_app (buffer ++ chunk) (chunk' ++ concat chunks)).
    destruct (unpackWithRemain (buffer ++ chunk)) as [f1 r1].
    rewrite IH. reflexivity.
Qed.

(** C5.  However a byte buffer is cut into consecutive chunks, feeding
    the chunks one by one to the reassembler (each step runs
    [unpackWithRemain] on the previous remainder followed by the next
    chunk) gives the same sequence of complete frames and the same final
    remainder as one run of [unpackWithRemain] on the concatenation. *)
Theorem feedChunks_concat (chunks : list (list Z)) :
  feedChunks [] chunks = unpackWithRemain (concat chunks).
Proof.
  destruct chunks as [|chunk chunks].
  - reflexivity.
  - rewrite feedChunks_cons. reflexivity.
Qed.

(** *** Frames returned have a matching checksum *)

Lemma byteAt_take (a : list Z) (n i : nat) :
  (i < n)%nat -> byteAt (take n a) i = byteAt a i.
Proof. intros H. rewrite !byteAt_lookup, lookup_take_lt by exact H. reflexivity. Qed.

Lemma totalLenAt_take a n :
  (4 <= n)%nat -> totalLenAt (take n a) 0 = totalLenAt a 0.
Proof. intros H. unfold totalLenAt. rewrite !byteAt_take by lia. reflexivity. Qed.

Lemma checksumOkAt_take a :
  checksumOkAt (take (totalLenAt a 0) a) 0 = checksumOkAt a 0.
Proof.
  assert (4 <= totalLenAt a 0)%nat as H4 by (unfold totalLenAt; lia).
  unfold checksumOkAt. rewrite totalLenAt_take by exact H4.
  unfold slice. rewrite !drop_0, take_take, byteAt_take by lia.
  rewrite Nat.min_l by lia. reflexivity.
Qed.

Lemma step_Emit_checksum buf totalLen :
  step buf = Emit totalLen ->
  totalLen = totalLenAt buf 0 /\ checksumOkAt buf 0 = true.
Proof.
  unfold step, checksumOkAt, totalLenAt, slice.
  destruct (negb (5 <=? length buf)%nat); [discriminate|].
  destruct (_ || _); [discriminate|].
  set (len := Z.to_nat _).
  destruct (length buf <? 4 + len)%nat; [discriminate|].
  rewrite drop_0.
  replace (0 + (4 + len) - 1 - 0)%nat with (4 + len - 1)%nat by lia.
  replace (0 + (4 + len) - 1)%nat with (4 + len - 1)%nat by lia.
  destruct (_ =? _); [|discriminate].
  intros [= <-]. split; reflexivity.
Qed.





(** *** Round trip of [pack] *)

Lemma sumBytes_cons (x : Z) (a : list Z) : sumBytes (x :: a) = x + sumBytes a.
Proof. apply (sumBytes_app [x] a). Qed.

Lemma pack_eq data :
  pack data =
  0xA5 :: 0x5A :: lengthLo data :: lengthHi data :: data ++ [packChecksum data].
Proof.
  unfold pack, intToLittleEndian, header, packChecksum.
  cbn [seq map app]. rewrite Z.shiftr_0_r.
  fold (lengthLo data). change (Z.of_nat 1 * 8) with 8. fold (lengthHi data).
  do 5 f_equal. rewrite !sumBytes_cons. change (sumBytes []) with 0.
  do 2 f_equal. lia.
Qed.

Lemma pack_length data : length (pack data) = (length data + 5)%nat.
Proof. rewrite pack_eq. cbn [length]. rewrite length_app. cbn [length]. lia. Qed.

Lemma pack_take data :
  take (length data + 4) (pack data)
  = 0xA5 :: 0x5A :: lengthLo data :: lengthHi data :: data.
Proof.
  rewrite pack_eq. replace (length data + 4)%nat with (4 + length data)%nat by lia.
  cbn [Nat.add take]. rewrite take_app_length. reflexivity.
Qed.

Lemma pack_last data : byteAt (pack data) (length data + 4) = packChecksum data.
Proof.
  rewrite pack_eq.
  change (?a :: ?b :: ?c :: ?d :: data ++ ?e) with ([a; b; c; d] ++ data ++ e).
  rewrite app_assoc, byteAt_app_r by (rewrite length_app; cbn [length]; lia).
  rewrite length_app. cbn [length].
  replace (length data + 4 - (4 + length data))%nat with 0%nat by lia.
  reflexivity.
Qed.

Lemma length_field_decode (n : Z) :
  0 <= n < 65536 ->
  Z.land n 0xFF + Z.shiftl (Z.land (Z.shiftr n 8) 0xFF) 8 = n.
Proof.
  intros Hn. change 0xFF with (Z.ones 8).
  rewrite !Z.land_ones, Z.shiftr_div_pow2, Z.shiftl_mul_pow2 by lia.
  change (2 ^ 8) with 256.
  rewrite (Z.mod_small (n / 256)) by (split; [apply Z.div_pos|apply Z.div_lt_upper_bound]; lia).
  pose proof (Z.div_mod n 256). lia.
Qed.

Lemma pack_length_field data :
  Z.of_nat (length data) <= 65534 ->
  Z.to_nat (byteAt (pack data) 2 + Z.shiftl (byteAt (pack data) 3) 8)
  = (length data + 1)%nat.
Proof.
  intros Hlen. rewrite pack_eq.
  change (byteAt (_ :: _ :: ?c :: _) 2) with c.
  change (byteAt (_ :: _ :: _ :: ?d :: _) 3) with d.
  unfold lengthLo, lengthHi. rewrite length_field_decode by lia. lia.
Qed.

Lemma pack_step data :
  Z.of_nat (length data) <= 65534 -> step (pack data) = Emit (length data + 5).
Proof.
  intros Hlen. unfold step.
  rewrite pack_length_field by exact Hlen. rewrite pack_length.
  replace (5 <=? length data + 5)%nat with true
    by (symmetry; apply Nat.leb_le; lia).
  replace (negb (byteAt (pack data) 0 =? byteAt header 0)
           || negb (byteAt (pack data) 1 =? byteAt header 1)) with false
    by (rewrite pack_eq; reflexivity).
  replace (4 + (length data + 1))%nat with (length data + 5)%nat by lia.
  rewrite Nat.ltb_irrefl.
  replace (length data + 5 - 1)%nat with (length data + 4)%nat by lia.
  rewrite pack_take, pack_last. unfold packChecksum.
  rewrite Z.eqb_refl. reflexivity.
Qed.

Lemma pack_payload data :
  Z.of_nat (length data) <= 65534 -> framePayload (pack data) = Some data.
Proof.
  intros Hlen. unfold framePayload.
  rewrite pack_length_field by exact Hlen. rewrite pack_length.
  replace (length data + 5 <? 5)%nat with false
    by (symmetry; apply Nat.ltb_ge; lia).
  replace (length data + 5 =? 4 + (length data + 1))%nat
    with true by (symmetry; apply Nat.eqb_eq; lia).
  cbn [negb]. unfold slice. rewrite pack_eq. cbn [skipn].
  replace (4 + (length data + 1) - 1 - 4)%nat with (length data) by lia.
  rewrite drop_0, take_app_length. reflexivity.
Qed.

(** C3, amended.  For every payload of at most 65534 bytes, the packed
    frame is the one complete frame that [unpackWithRemain] finds in it,
    nothing remains, the payload taken out of that frame is the payload
    packed, and the frame is five bytes longer than the payload. *)
Theorem pack_unpack_roundtrip (data : list Z) :
  Z.of_nat (length data) <= 65534 ->
  unpackWithRemain (pack data) = ([pack data], [])
  /\ physicalUnpack (pack data) = [data]
  /\ length (pack data) = (length data + 5)%nat.
Proof.
  intros Hlen.
  assert (unpackWithRemain (pack data) = ([pack data], [])) as Hunpack.
  { rewrite unpackWithRemain_scan, pack_length.
    replace (length data + 5)%nat with (S (length data + 4)) at 1 by lia.
    cbn [scan]. rewrite pack_step by exact Hlen.
    rewrite <- pack_length, drop_all, firstn_all.
    destruct (length data + 4)%nat; reflexivity. }
  split; [exact Hunpack|]. split; [|apply pack_length].
  unfold physicalUnpack, unpack. rewrite Hunpack. cbn [fst omap list_omap].
  rewrite pack_payload by exact Hlen. reflexivity.
Qed.

(** *** A payload of 65535 bytes: the length field wraps to zero *)

Lemma step_no_header buf :
  byteAt buf 0 <> 0xA5 -> step buf = Stop \/ step buf = Skip.
Proof.
  intros Hb. unfold step.
  destruct (negb (5 <=? length buf)%nat); [left; reflexivity|].
  change (byteAt header 0) with 0xA5.
  apply Z.eqb_neq in Hb. rewrite Hb. right. reflexivity.
Qed.

Lemma scan_no_header n buf :
  Forall (fun b => b <> 0xA5) buf -> (scan n buf).1 = [].
Proof.
  revert buf. induction n as [|n IH]; intros buf Hall; [reflexivity|].
  cbn [scan].
  destruct buf as [|b buf]; [reflexivity|].
  destruct (step_no_header (b :: buf)) as [-> | ->].
  - inversion Hall; assumption.
  - reflexivity.
  - apply IH. inversion Hall; assumption.
Qed.

Lemma sumBytes_replicate_0 n : sumBytes (replicate n 0) = 0.
Proof.
  induction n as [|n IH]; [reflexivity|].
  cbn [replicate]. rewrite sumBytes_cons, IH. reflexivity.
Qed.

(** When the two length bytes of a packed frame are zero, the scan
    rejects the frame at its header and finds no other header. *)
Lemma unpack_pack_wrapped data :
  lengthLo data = 0 -> lengthHi data = 0 ->
  Forall (fun b => b <> 0xA5) data -> packChecksum data <> 0xA5 ->
  unpack (pack data) = [].
Proof.
  intros Hlo Hhi Hdata Hcs.
  assert (step (pack data) = Skip) as Hstep.
  { unfold step. rewrite pack_length.
    replace (5 <=? length data + 5)%nat with true
      by (symmetry; apply Nat.leb_le; lia).
    rewrite pack_eq, Hlo, Hhi.
    change (byteAt (_ :: _ :: ?c :: _) 2) with c.
    change (byteAt (_ :: _ :: _ :: ?d :: _) 3) with d.
    change (Z.to_nat (0 + Z.shiftl 0 8)) with 0%nat.
    replace (length data + 5 <? 4 + 0)%nat with false
      by (symmetry; apply Nat.ltb_ge; lia).
    reflexivity. }
  unfold unpack. rewrite unpackWithRemain_scan, pack_length.
  replace (length data + 5)%nat with (S (length data + 4)) by lia.
  cbn [scan]. rewrite Hstep.
  apply scan_no_header.
  rewrite pack_eq, Hlo, Hhi. cbn [skipn].
  do 3 (apply Forall_cons; split; [discriminate|]).
  apply Forall_app. split; [exact Hdata|].
  apply Forall_cons. split; [exact Hcs|constructor].
Qed.

Lemma unpack_pack_65535 :
  unpack (pack (replicate (Z.to_nat 65535) 0)) = [].
Proof.
  assert (Z.of_nat (length (replicate (Z.to_nat 65535) 0)) = 65535) as HN
    by (rewrite length_replicate; lia).
  assert (lengthLo (replicate (Z.to_nat 65535) 0) = 0) as Hlo
    by (unfold lengthLo; rewrite HN; reflexivity).
  assert (lengthHi (replicate (Z.to_nat 65535) 0) = 0) as Hhi
    by (unfold lengthHi; rewrite HN; reflexivity).
  apply unpack_pack_wrapped.
  - exact Hlo.
  - exact Hhi.
  - apply Forall_replicate. discriminate.
  - unfold packChecksum.
    rewrite !sumBytes_cons, Hlo, Hhi, sumBytes_replicate_0. discriminate.
Qed.

(** C3 as stated fails: the frame packed from a payload of 65535 zero
    bytes carries the length field 0, no frame is found in it, and
    unpacking it does not give the payload back. *)
Lemma pack_unpack_roundtrip_fails_at_65535 :
  physicalUnpack (pack (replicate (Z.to_nat 65535) 0)) = []
  /\ physicalUnpack (pack (replicate (Z.to_nat 65535) 0))
     <> [replicate (Z.to_nat 65535) 0].
Proof.
  assert (physicalUnpack (pack (replicate (Z.to_nat 65535) 0)) = []) as H.
  { unfold physicalUnpack. rewrite unpack_pack_65535. reflexivity. }
  split; [exact H|]. rewrite H. discriminate.
Qed.

End PhysicalLayerFacts.

Lemma pack_unpack_roundtrip_witness :
  Z.of_nat (length [0x01; 0xF6; 0x10]) <= 65534
  /\ (PhysicalLayer.unpackWithRemain (PhysicalLayer.pack [0x01; 0xF6; 0x10])
        = ([PhysicalLayer.pack [0x01; 0xF6; 0x10]], [])
      /\ PhysicalLayer.physicalUnpack (PhysicalLayer.pack [0x01; 0xF6; 0x10])
        = [[0x01; 0xF6; 0x10]]
      /\ length (PhysicalLayer.pack [0x01; 0xF6; 0x10]) = (3 + 5)%nat).
Proof.
  split; [cbn; lia|].
  apply (pack_unpack_roundtrip [0x01; 0xF6; 0x10]). cbn. lia.
Defined.


(** ** Application framing *)

(** C10.  [pack] stores the frame index and the payload length modulo 256.
    Unpacking a packed message gives the frame index modulo 256 and the
    payload when the payload has at most 255 bytes, and the empty result
    (frame index 0, no payload) when it is longer. *)
Theorem application_pack_unpack (payload : list Z) (i : Z) :
  DefaultApplicationLayer.pack payload i
    = i mod 256 :: Z.of_nat (length payload) mod 256 :: payload
  /\ DefaultApplicationLayer.unpack (DefaultApplicationLayer.pack payload i)
    = if (length payload <=? 255)%nat
      then mkApplicationData (i mod 256) payload
      else mkApplicationData 0 [].
Proof.
  split; [reflexivity|].
  unfold DefaultApplicationLayer.unpack, DefaultApplicationLayer.pack, toUint8.
  cbn [length byteAt nth skipn Nat.ltb Nat.leb negb].
  destruct (Nat.leb_spec (length payload) 255) as [Hle|Hgt].
  - rewrite Z.mod_small by lia.
    replace (Z.of_nat (length payload) =? Z.of_nat (S (S (length payload))) - 2)
      with true by (symmetry; apply Z.eqb_eq; lia).
    reflexivity.
  - pose proof (Z.mod_pos_bound (Z.of_nat (length payload)) 256 ltac:(lia)).
    replace (Z.of_nat (length payload) mod 256
             =? Z.of_nat (S (S (length payload))) - 2)
      with false by (symmetry; apply Z.eqb_neq; lia).
    reflexivity.
Qed.

(** ** checkXorValidation *)

Section CheckXorValidation.

Lemma checkXorValidation_accepted requestData responseData :
  BluetoothKeySDK.checkXorValidation requestData responseData = true
  <-> xorAccepted requestData responseData.
Proof.
  unfold BluetoothKeySDK.checkXorValidation, xorAccepted.
  destruct requestData as [|rq requestBody]; cbn [length Nat.eqb orb].
  { split; [intros [=]|]. intros H. destruct H as [H _]. congruence. }
  destruct responseData as [|rs responseBody]; cbn [length Nat.eqb orb].
  { split; [intros [=]|]. intros H. destruct H as (_ & H & _). congruence. }
  change (drop 1 (rq :: requestBody)) with requestBody.
  change (drop 1 (rs :: responseBody)) with responseBody.
  change (byteAt (rs :: responseBody) 0) with rs.
  change (byteAt (rq :: requestBody) 0) with rq.
  destruct (Z.eqb_spec rs rq) as [Hop|Hop]; cbn [negb].
  2:{ split; [intros [=]|]. intros H. destruct H as (_ & _ & H & _). congruence. }
  destruct (Nat.eqb_spec (length responseBody) (length requestBody)) as [Hl|Hl];
    cbn [negb].
  2:{ split; [intros [=]|]. intros H. destruct H as (_ & _ & _ & H & _). congruence. }
  rewrite forallb_forall. split.
  - intros Hall. repeat split; try congruence.
    intros i Hi. apply Z.eqb_eq, Hall, in_seq. lia.
  - intros (_ & _ & _ & _ & Hall) i Hi%in_seq.
    apply Z.eqb_eq, Hall. lia.
Qed.

Lemma byteAt_insert_eq (a : list Z) (k : nat) (v : Z) :
  (k < length a)%nat -> byteAt (<[k:=v]> a) k = v.
Proof.
  intros Hk. rewrite byteAt_lookup, list_lookup_insert_eq by exact Hk. reflexivity.
Qed.

(** C6.  [checkXorValidation] accepts exactly when both arrays are
    non-empty, the opcodes are equal, the bodies have the same length and
    every byte of the response body is the request byte XOR 0x5A; and an
    accepted response with any one byte changed is rejected. *)
Theorem checkXorValidation_spec (requestData responseData : list Z) :
  (BluetoothKeySDK.checkXorValidation requestData responseData = true
   <-> xorAccepted requestData responseData)
  /\ (forall (k : nat) (v : Z),
        BluetoothKeySDK.checkXorValidation requestData responseData = true ->
        (k < length responseData)%nat ->
        v <> byteAt responseData k ->
        BluetoothKeySDK.checkXorValidation requestData (<[k:=v]> responseData)
        = false).
Proof.
  split; [apply checkXorValidation_accepted|].
  intros k v Hok Hk Hv.
  apply not_true_is_false. intros Hok'.
  apply checkXorValidation_accepted in Hok as (_ & _ & Hop & Hlen & Hbody).
  apply checkXorValidation_accepted in Hok' as (_ & _ & Hop' & _ & Hbody').
  destruct k as [|k].
  - rewrite byteAt_insert_eq in Hop' by exact Hk. congruence.
  - rewrite length_drop in Hlen.
    specialize (Hbody k ltac:(lia)). specialize (Hbody' k ltac:(lia)).
    rewrite byteAt_drop in Hbody, Hbody'. cbn [Nat.add] in Hbody, Hbody'.
    rewrite byteAt_insert_eq in Hbody' by exact Hk. congruence.
Qed.

End CheckXorValidation.

(** ** Segment encoder *)

Section SegmentPackets.
Import CommandUtils LockSegmentsFormat.

Lemma toInt32_byte (n : Z) (k : Z) :
  k = 0 \/ k = 8 \/ k = 16 \/ k = 24 ->
  Z.land (Z.shiftr (toInt32 n) k) 0xFF = (n / 2 ^ k) mod 256.
Proof.
  intros Hk. change 0xFF with (Z.ones 8).
  rewrite Z.land_ones, Z.shiftr_div_pow2 by lia.
  unfold toInt32. change (2 ^ 8) with 256.
  destruct Hk as [-> | [-> | [-> | ->]]];
    cbn [Z.pow Z.pow_pos Pos.iter Z.mul Pos.mul];
    Z.div_mod_to_equations; lia.
Qed.

Lemma wordBytes_leBytes (n : Z) : wordBytes n = leBytes n.
Proof.
  unfold wordBytes, leBytes.
  rewrite <- (Z.shiftr_0_r (toInt32 n)) at 1.
  rewrite !toInt32_byte by lia.
  change (2 ^ 0) with 1. rewrite Z.div_1_r. reflexivity.
Qed.

Lemma length_rangeBytes range : length (rangeBytes range) = 8%nat.
Proof. reflexivity. Qed.

Lemma length_flat_map_rangeBytes ranges :
  length (flat_map rangeBytes ranges) = (8 * length ranges)%nat.
Proof.
  induction ranges as [|r ranges IH]; [reflexivity|].
  cbn [flat_map]. rewrite length_app, IH, length_rangeBytes. cbn [length]. lia.
Qed.

Lemma segmentPacket_encodeRanges group :
  (length group <= 25)%nat ->
  segmentPacket (flat_map rangeBytes group) = encodeRanges group.
Proof.
  intros Hlen. unfold segmentPacket, encodeRanges, toUint8.
  rewrite length_flat_map_rangeBytes.
  replace (Z.of_nat (8 * length group) / 8) with (Z.of_nat (length group))
    by (rewrite Nat2Z.inj_mul, Z.mul_comm, Z.div_mul; lia).
  rewrite (Z.mod_small (Z.of_nat (length group))) by lia. reflexivity.
Qed.

(** One segment joins the pending chunk; the chunk is flushed when it
    reaches 25 ranges. *)
Lemma pushSegment_pending packets pending segment :
  (length pending < 25)%nat ->
  pushSegment (packets, flat_map rangeBytes pending) segment =
  if (length pending =? 24)%nat
  then (packets ++ [segmentPacket (flat_map rangeBytes (pending ++ [segment]))], [])
  else (packets, flat_map rangeBytes (pending ++ [segment])).
Proof.
  intros Hlen.
  assert (flat_map rangeBytes (pending ++ [segment])
          = (flat_map rangeBytes pending ++ wordBytes segment.1)
              ++ wordBytes segment.2) as Hbytes.
  { rewrite flat_map_app. cbn [flat_map]. unfold rangeBytes at 2.
    rewrite !wordBytes_leBytes, app_nil_r, app_assoc. reflexivity. }
  unfold pushSegment. unfold pushNumber at 2.
  replace (25 * 8 <=? length (flat_map rangeBytes pending ++ wordBytes segment.1))%nat
    with false.
  2:{ symmetry. apply Nat.leb_gt.
      rewrite length_app, length_flat_map_rangeBytes. cbn [wordBytes length]. lia. }
  unfold pushNumber. rewrite <- Hbytes.
  rewrite length_flat_map_rangeBytes, length_app. cbn [length].
  destruct (Nat.eqb_spec (length pending) 24) as [H24|H24].
  - replace (25 * 8 <=? 8 * (length pending + 1))%nat with true
      by (symmetry; apply Nat.leb_le; lia).
    reflexivity.
  - replace (25 * 8 <=? 8 * (length pending + 1))%nat with false
      by (symmetry; apply Nat.leb_gt; lia).
    reflexivity.
Qed.

Lemma fold_pushSegment segments : forall groups pending,
  (length pending < 25)%nat -> Forall okGroup groups ->
  exists groups' pending',
    fold_left pushSegment segments
      (map encodeRanges groups, flat_map rangeBytes pending)
    = (map encodeRanges groups', flat_map rangeBytes pending')
    /\ concat groups' ++ pending' = concat groups ++ pending ++ segments
    /\ (length pending' < 25)%nat
    /\ Forall okGroup groups'.
Proof.
  induction segments as [|segment segments IH]; intros groups pending Hlen Hok.
  - exists groups, pending. rewrite app_nil_r. auto.
  - cbn [fold_left]. rewrite pushSegment_pending by exact Hlen.
    destruct (Nat.eqb_spec (length pending) 24) as [H24|H24].
    + rewrite segmentPacket_encodeRanges by (rewrite length_app; cbn [length]; lia).
      change [encodeRanges (pending ++ [segment])]
        with (map encodeRanges [pending ++ [segment]]).
      rewrite <- map_app.
      destruct (IH (groups ++ [pending ++ [segment]]) [])
        as (groups' & pending' & Hfold & Hcat & Hlen' & Hok').
      * cbn [length]. lia.
      * apply Forall_app. split; [exact Hok|].
        constructor; [|constructor].
        unfold okGroup. rewrite length_app. cbn [length]. lia.
      * exists groups', pending'. repeat split; try assumption.
        rewrite Hcat, concat_app. cbn [concat].
        rewrite !app_nil_r, <- !app_assoc. reflexivity.
    + destruct (IH groups (pending ++ [segment]))
        as (groups' & pending' & Hfold & Hcat & Hlen' & Hok').
      * rewrite length_app. cbn [length]. lia.
      * exact Hok.
      * exists groups', pending'. repeat split; try assumption.
        rewrite Hcat, <- !app_assoc. reflexivity.
Qed.

(** The packets are the consecutive groups of at most 25 ranges, each
    in the reference format. *)
Lemma convertSegmentsToPackets_groups segments :
  exists groups,
    convertSegmentsToPackets segments = map encodeRanges groups
    /\ concat groups = segments
    /\ Forall okGroup groups.
Proof.
  unfold convertSegmentsToPackets.
  destruct (fold_pushSegment segments [] [])
    as (groups' & pending' & Hfold & Hcat & Hlen' & Hok');
    [cbn [length]; lia|constructor|].
  cbn [map flat_map] in Hfold. rewrite Hfold.
  cbn [concat app] in Hcat.
  rewrite length_flat_map_rangeBytes.
  destruct pending' as [|range pending'].
  - exists groups'. rewrite app_nil_r in Hcat. auto.
  - replace (0 <? 8 * length (range :: pending'))%nat with true
      by (symmetry; apply Nat.ltb_lt; cbn [length]; lia).
    rewrite segmentPacket_encodeRanges by lia.
    exists (groups' ++ [range :: pending']).
    rewrite map_app, concat_app. cbn [map concat].
    rewrite app_nil_r. repeat split; try assumption.
    apply Forall_app. split; [exact Hok'|].
    constructor; [|constructor]. unfold okGroup. cbn [length] in *. lia.
Qed.

Lemma leWord_leBytes n rest : inWord n -> leWord (take 4 (leBytes n ++ rest)) = n.
Proof.
  unfold inWord. intros Hn.
  change (take 4 (leBytes n ++ rest)) with (leBytes n).
  unfold leWord, leBytes, byteAt. cbn [nth].
  cbn [Z.pow Z.pow_pos Pos.iter Z.mul Pos.mul] in *.
  Z.div_mod_to_equations. lia.
Qed.

Lemma decodeRanges_rangeBytes ranges :
  Forall inRange ranges ->
  decodeRanges (length ranges) (flat_map rangeBytes ranges) = ranges.
Proof.
  induction 1 as [|[a b] ranges [Ha Hb] _ IH]; [reflexivity|].
  cbn [length decodeRanges flat_map]. unfold rangeBytes at 1 2 3. cbn [fst snd].
  rewrite <- !app_assoc, leWord_leBytes by exact Ha.
  change (drop 4 (leBytes a ++ ?l)) with l.
  rewrite leWord_leBytes by exact Hb.
  change (drop 8 (rangeBytes (a, b) ++ ?l)) with l.
  rewrite IH. reflexivity.
Qed.

Lemma decodePacket_encodeRanges ranges :
  Forall inRange ranges -> decodePacket (encodeRanges ranges) = ranges.
Proof.
  intros Hin. unfold decodePacket, encodeRanges.
  change (byteAt (_ :: ?c :: _) 1) with c.
  rewrite Nat2Z.id. change (drop 2 (_ :: _ :: ?l)) with l.
  apply decodeRanges_rangeBytes, Hin.
Qed.

Lemma Forall_concat_inv {A} (P : A -> Prop) (ls : list (list A)) :
  Forall P (concat ls) -> Forall (Forall P) ls.
Proof.
  induction ls as [|l ls IH]; cbn [concat]; intros H; [constructor|].
  apply Forall_app in H as [Hl Hls]. constructor; auto.
Qed.

(** C7, amended.  For every segment list whose endpoints fit a 4-byte
    word (0 <= n < 2^32), the packets of [convertSegmentsToPackets] are
    consecutive groups of the segments, each of 1 to 25 ranges, each
    packet being the opcode 0x0D, the number of its ranges, and the
    endpoints of its ranges as 4-byte little-endian words; decoding the
    packets and concatenating their ranges gives back the segment list
    in order. *)
Theorem convertSegmentsToPackets_spec (segments : list (Z * Z)) :
  Forall inRange segments ->
  (exists groups,
     convertSegmentsToPackets segments = map encodeRanges groups
     /\ concat groups = segments
     /\ Forall okGroup groups)
  /\ concat (map decodePacket (convertSegmentsToPackets segments)) = segments.
Proof.
  intros Hin.
  destruct (convertSegmentsToPackets_groups segments)
    as (groups & Hpackets & Hcat & Hok).
  split; [exists groups; auto|].
  rewrite Hpackets, <- Hcat. rewrite <- Hcat in Hin.
  apply Forall_concat_inv in Hin. clear Hpackets Hcat Hok.
  induction Hin as [|group groups Hgroup _ IH]; [reflexivity|].
  cbn [map concat]. rewrite decodePacket_encodeRanges, IH by exact Hgroup.
  reflexivity.
Qed.

End SegmentPackets.

Lemma convertSegmentsToPackets_spec_witness :
  Forall inRange [(1, 3); (7, 7)]
  /\ ((exists groups,
         CommandUtils.convertSegmentsToPackets [(1, 3); (7, 7)]
         = map LockSegmentsFormat.encodeRanges groups
         /\ concat groups = [(1, 3); (7, 7)]
         /\ Forall okGroup groups)
      /\ concat (map LockSegmentsFormat.decodePacket
                   (CommandUtils.convertSegmentsToPackets [(1, 3); (7, 7)]))
         = [(1, 3); (7, 7)]).
Proof.
  assert (Forall inRange [(1, 3); (7, 7)]) as Hin.
  { repeat constructor; cbn; lia. }
  split; [exact Hin|].
  apply (convertSegmentsToPackets_spec [(1, 3); (7, 7)]). exact Hin.
Defined.

(** C7 as stated fails: an endpoint of 2^32 or more does not fit its
    4-byte word, and decoding the packet gives another segment. *)
Lemma convertSegmentsToPackets_loses_large_endpoint :
  CommandUtils.convertSegmentsToPackets [(4294967296, 4294967297)]
  = [[0x0D; 1; 0; 0; 0; 0; 1; 0; 0; 0]]
  /\ concat (map LockSegmentsFormat.decodePacket
               (CommandUtils.convertSegmentsToPackets [(4294967296, 4294967297)]))
     <> [(4294967296, 4294967297)].
Proof. split; [reflexivity|]. vm_compute. discriminate. Qed.

(** ** Running the engine *)

Section Running.

Lemma bind_run {A B} (m : M A) (k : A -> M B) s :
  (m ≫= k) s =
  match m s with
  | (Ok a, s') => k a s'
  | (Throw e, s') => (Throw e, s')
  end.
Proof. reflexivity. Qed.

Lemma bind_modify {B} f (k : unit -> M B) s : (modify f ≫= k) s = k tt (f s).
Proof. reflexivity. Qed.

Lemma bind_ret {A B} (a : A) (k : A -> M B) s : (mret a ≫= k) s = k a s.
Proof. reflexivity. Qed.

Lemma bind_getState {B} (k : SDK -> M B) s : (getState ≫= k) s = k s s.
Proof. reflexivity. Qed.

(** Steps that keep a property of the state. *)

Lemma keeps_bind {A B} I (m : M A) (k : A -> M B) :
  keeps I m -> (forall a, keeps I (k a)) -> keeps I (m ≫= k).
Proof.
  intros Hm Hk s Hs. specialize (Hm s Hs). unfold exec in *.
  rewrite bind_run. destruct (m s) as [[a|e] s']; cbn in *; [|exact Hm].
  apply Hk, Hm.
Qed.

Lemma keeps_ret {A} I (a : A) : keeps I (mret a).
Proof. intros s Hs. exact Hs. Qed.

Lemma keeps_throw {A} I (e : Error) : keeps I (mthrow e : M A).
Proof. intros s Hs. exact Hs. Qed.

Lemma keeps_getState I : keeps I getState.
Proof. intros s Hs. exact Hs. Qed.

Lemma keeps_modify I f : (forall s, I s -> I (f s)) -> keeps I (modify f).
Proof. intros Hf s Hs. apply Hf, Hs. Qed.

Lemma keeps_tryCatch {A} I (m : M A) handler :
  keeps I m -> (forall e, keeps I (handler e)) -> keeps I (tryCatch m handler).
Proof.
  intros Hm Hh s Hs. specialize (Hm s Hs). unfold exec, tryCatch in *.
  destruct (m s) as [[a|e] s']; cbn in *; [exact Hm|].
  apply Hh, Hm.
Qed.

Lemma keeps_tryFinally {A} I (m : M A) fin :
  keeps I m -> keeps I fin -> keeps I (tryFinally m fin).
Proof.
  intros Hm Hf s Hs. specialize (Hm s Hs). unfold exec, tryFinally in *.
  destruct (m s) as [r s']; cbn in *. specialize (Hf s' Hm).
  unfold exec in Hf. destruct (fin s') as [[[]|e] s'']; exact Hf.
Qed.

End Running.

(** ** The frame index counter *)

Section FrameIndexCounter.
Context (aes : CryptoFactory).
Import BluetoothKeySDK.

Lemma frameIndexes_set_frameIndexes f s :
  frameIndexes (set_frameIndexes f s) = f (frameIndexes s).
Proof. destruct s; reflexivity. Qed.


(** What a call of [buildCompletePacket] does to the counters, for the
    frame index it is given or defaults to. *)
Lemma buildCompletePacket_counters s deviceId applicationData options :
  0 <= default (currentFrameIndex s deviceId) (optFrameIndex options) ->
  match buildCompletePacket aes deviceId applicationData options s with
  | (Ok packet, s') =>
    frameIndexes s' =
      if decide (sentAckType options = REQUEST_WITH_ACK)
      then <[deviceId :=
               (default (currentFrameIndex s deviceId) (optFrameIndex options) + 1)
               mod 256]> (frameIndexes s)
      else frameIndexes s
  | (Throw _, s') => s' = s
  end.
Proof.
  intros Hcur.
  unfold buildCompletePacket, tryCatch, transportPack, mbind, M_bind, getState,
    mret, M_ret, mthrow, M_throw, modify, sentAckType.
  fold (currentFrameIndex s deviceId).
  destruct (TransportLayerV1.pack _ _ _); [|reflexivity].
  destruct (decide (_ = REQUEST_WITH_ACK)); [|reflexivity].
  rewrite frameIndexes_set_frameIndexes, Z.rem_mod_nonneg by lia.
  reflexivity.
Qed.

(** The three layers give a packet exactly when the data is sent in the
    clear or the cipher in use (the one of the options, the default one
    otherwise) encrypts the application message. *)
Lemma builtWire_is_Some s deviceId applicationData options :
  is_Some (builtWire aes s deviceId applicationData options)
  <-> default ENCRYPT (optEncryptType (optTransport options)) = NO_ENCRYPT
      \/ is_Some
           (@encrypt (default aes (optCryptoFactory (optTransport options)))
              (DefaultApplicationLayer.pack applicationData
                 (usedFrameIndex s deviceId options))
              (default (default [] (dynamicKeys s !! deviceId))
                       (optSecretKey (optTransport options)))).
Proof.
  unfold builtWire, TransportLayerV1.pack. cbn [optEncryptType optCryptoFactory
    optSecretKey optVersion optAckType default].
  destruct (default ENCRYPT (optEncryptType (optTransport options))).
  - split; [intros _; left; reflexivity|intros _; eexists; reflexivity].
  - destruct (encrypt _ _) as [ciphertext|].
    + split; [intros _; right; eexists; reflexivity|intros _; eexists; reflexivity].
    + split; [intros [x Hx]; discriminate Hx|].
      intros [H|[x Hx]]; [discriminate H|discriminate Hx].
Qed.


(** *** Through [sendCommand] *)

Context (ble : BleClient).

Lemma frameIndexes_BleClient_write X deviceId packet :
  keeps (fun s => frameIndexes s = X) (BleClient_write ble deviceId packet).
Proof.
  unfold BleClient_write.
  apply keeps_bind; [apply keeps_getState|intros s0].
  apply keeps_bind; [apply keeps_modify; intros []; exact id|intros _].
  destruct (bleWrite _ _ _); [apply keeps_ret|apply keeps_throw].
Qed.

Lemma frameIndexes_waitForFrameResponse X deviceId frameIndex :
  keeps (fun s => frameIndexes s = X) (waitForFrameResponse deviceId frameIndex).
Proof.
  unfold waitForFrameResponse.
  apply keeps_bind; [intros [] H; exact H|intros p].
  apply keeps_bind; [apply keeps_getState|intros s0].
  apply keeps_bind;
    [destruct (_ !! _); [apply keeps_ret|intros [] H; exact H]|intros m].
  apply keeps_bind; [intros [] H; exact H|intros t].
  do 2 (apply keeps_bind; [apply keeps_modify; intros []; exact id|intros _]).
  apply keeps_ret.
Qed.

(** A send that does not fail moves the counter of the device to
    (counter + 1) mod 256 when its ackType is REQUEST_WITH_ACK (the
    default), and leaves the counters alone otherwise. *)
Lemma sendCommand_frameIndex s deviceId command transportOptions outcome s' :
  0 <= currentFrameIndex s deviceId ->
  sendCommand aes ble deviceId command transportOptions s = (Ok outcome, s') ->
  (forall error, outcome <> Failure error) ->
  frameIndexes s' =
    if decide (default REQUEST_WITH_ACK (transportOptions ≫= optAckType)
               = REQUEST_WITH_ACK)
    then <[deviceId := (currentFrameIndex s deviceId + 1) mod 256]> (frameIndexes s)
    else frameIndexes s.
Proof.
  intros Hcur Hsend Hok. unfold sendCommand in Hsend.
  rewrite bind_getState in Hsend.
  destruct (connections s !! deviceId) as [[[] status]|]; try discriminate Hsend.
  unfold tryCatch in Hsend. rewrite bind_getState in Hsend.
  fold (currentFrameIndex s deviceId) in Hsend. rewrite bind_run in Hsend.
  set (options := mkBuildOptions _ _) in Hsend.
  pose proof (buildCompletePacket_counters s deviceId
                (default [] (cmdData command)) options Hcur) as Hbuild.
  destruct (buildCompletePacket _ _ _ _ s) as [[packet|e] s1].
  2:{ injection Hsend as <- <-. exfalso. eapply Hok. reflexivity. }
  assert (sentAckType options
          = default REQUEST_WITH_ACK (transportOptions ≫= optAckType)) as Hack
    by (destruct transportOptions; reflexivity).
  rewrite Hack in Hbuild.
  change (default (currentFrameIndex s deviceId) (optFrameIndex options))
    with (currentFrameIndex s deviceId) in Hbuild.
  rewrite <- Hbuild.
  match type of Hsend with
  | (let (_, _) := ?r s1 in _) = _ => set (rest := r) in Hsend
  end.
  assert (keeps (fun x => frameIndexes x = frameIndexes s1) rest) as Hrest.
  { unfold rest.
    apply keeps_bind; [apply frameIndexes_BleClient_write|intros _].
    destruct (default REQUEST_WITH_ACK _); try apply keeps_ret.
    - destruct (_ || _); cbv beta iota; [|apply keeps_ret].
      apply keeps_bind; [apply frameIndexes_waitForFrameResponse|intros p].
      apply keeps_ret.
    - apply keeps_bind; [apply frameIndexes_waitForFrameResponse|intros p].
      apply keeps_ret. }
  specialize (Hrest s1 eq_refl). unfold exec in Hrest.
  destruct (rest s1) as [[o|e] s2]; cbn in Hrest.
  - injection Hsend as <- <-. exact Hrest.
  - injection Hsend as <- <-. exfalso. eapply Hok. reflexivity.
Qed.

End FrameIndexCounter.

(** ** Disconnection and the pending waiters *)

Section Disconnect.
Context (ble : BleClient).
Import BluetoothKeySDK.

Lemma clearPending_entry (entry : Z * PendingResponse) s :
  (clearTimeout (timer entry.2) ;;
   settle (promise entry.2) (Rejected connectionClosed)) s
  = (Ok tt, set_promises (rejectAll [entry]) (set_timers (clearTimers [entry]) s)).
Proof.
  unfold mbind, M_bind, clearTimeout, settle, modify. destruct s. cbn.
  destruct (_ !! promise entry.2) as [[| |]|]; reflexivity.
Qed.

Lemma clearPending_loop entries s :
  forEach entries
    (fun entry : Z * PendingResponse =>
       clearTimeout (timer entry.2) ;;
       settle (promise entry.2) (Rejected connectionClosed)) s
  = (Ok tt, set_promises (rejectAll entries) (set_timers (clearTimers entries) s)).
Proof.
  revert s. induction entries as [|entry entries IH]; intros s.
  - destruct s; reflexivity.
  - cbn [forEach]. rewrite bind_run, clearPending_entry, IH.
    destruct s; reflexivity.
Qed.

Lemma rejectAll_stable entries ps p :
  ps !! p = Some (Rejected connectionClosed) ->
  rejectAll entries ps !! p = Some (Rejected connectionClosed).
Proof.
  revert ps. induction entries as [|entry entries IH]; intros ps Hp; [exact Hp|].
  cbn [rejectAll fold_left]. apply IH.
  destruct (ps !! promise entry.2) as [[| |]|] eqn:He; try exact Hp.
  destruct (decide (promise entry.2 = p)) as [<-|Hne].
  - congruence.
  - rewrite lookup_insert_ne by exact Hne. exact Hp.
Qed.

Lemma rejectAll_rejects entries ps frameIndex w :
  (frameIndex, w) ∈ entries ->
  ps !! promise w = Some Pending ->
  rejectAll entries ps !! promise w = Some (Rejected connectionClosed).
Proof.
  revert ps. induction entries as [|entry entries IH]; intros ps Hin Hp.
  - inversion Hin.
  - cbn [rejectAll fold_left].
    destruct (decide (promise entry.2 = promise w)) as [Heq|Hne].
    + rewrite Heq, Hp. apply rejectAll_stable, lookup_insert_eq.
    + apply elem_of_cons in Hin as [<-|Hin]; [cbn in Hne; congruence|].
      apply IH; [exact Hin|].
      destruct (ps !! promise entry.2) as [[| |]|]; try exact Hp.
      rewrite lookup_insert_ne by exact Hne. exact Hp.
Qed.

Lemma clearTimers_stable entries ts t :
  ts !! t = None -> clearTimers entries ts !! t = None.
Proof.
  revert ts. induction entries as [|entry entries IH]; intros ts Ht; [exact Ht|].
  cbn [clearTimers fold_left]. apply IH.
  rewrite lookup_delete_None. auto.
Qed.

Lemma clearTimers_clears entries ts frameIndex w :
  (frameIndex, w) ∈ entries -> clearTimers entries ts !! timer w = None.
Proof.
  revert ts. induction entries as [|entry entries IH]; intros ts Hin.
  - inversion Hin.
  - cbn [clearTimers fold_left].
    apply elem_of_cons in Hin as [<-|Hin].
    + apply clearTimers_stable, lookup_delete_eq.
    + apply IH, Hin.
Qed.

Lemma clearPendingFrameResponses_run deviceId m s :
  pendingFrameResponses s !! deviceId = Some m ->
  clearPendingFrameResponses deviceId s =
  let entries := map_to_list (default ∅ (frameMaps s !! m)) in
  (Ok tt, set_frameMaps (alter (fun _ => ∅) m)
            (set_promises (rejectAll entries)
               (set_timers (clearTimers entries) s))).
Proof.
  intros Hm. unfold clearPendingFrameResponses.
  rewrite bind_run. unfold getState at 1. rewrite Hm.
  rewrite bind_run. fold connectionClosed. rewrite clearPending_loop.
  reflexivity.
Qed.

Lemma cancelled_clearTimeout w t : keeps (cancelled w) (clearTimeout t).
Proof.
  apply keeps_modify. intros [] [Hp Ht]. split; cbn in *; [exact Hp|].
  rewrite lookup_delete_None. auto.
Qed.

Ltac keeps_field :=
  apply keeps_modify; intros [] [? ?]; split; cbn in *; assumption.

Lemma cancelled_clearAuthAndTimers w deviceId :
  keeps (cancelled w) (clearAuthAndTimers deviceId).
Proof.
  unfold clearAuthAndTimers.
  apply keeps_bind; [keeps_field|intros _].
  apply keeps_bind; [apply keeps_getState|intros s1].
  apply keeps_bind; [|intros _].
  { destruct (authPromises s1 !! deviceId); [|apply keeps_ret].
    apply keeps_bind; [apply cancelled_clearTimeout|intros _]. keeps_field. }
  apply keeps_bind; [apply keeps_getState|intros s2].
  destruct (receivingTimeoutTimers s2 !! deviceId); [|apply keeps_ret].
  apply keeps_bind; [apply cancelled_clearTimeout|intros _]. keeps_field.
Qed.

(** X30.  The caller's path: every waiter registered for the device is
    rejected with the connection-closed error and its timer disarmed,
    whether or not [BleClient.disconnect] then succeeds. *)
Lemma disconnectDevice_rejects_waiters s deviceId connection m waiters frameIndex w :
  connections s !! deviceId = Some connection ->
  deviceId ∉ disconnectingDevices s ->
  pendingFrameResponses s !! deviceId = Some m ->
  frameMaps s !! m = Some waiters ->
  waiters !! frameIndex = Some w ->
  promises s !! promise w = Some Pending ->
  cancelled w (exec (disconnectDevice ble deviceId) s).
Proof.
  intros Hconn Hdisc Hm Hmap Hw Hp.
  assert ((frameIndex, w) ∈ map_to_list waiters) as Hin
    by (apply elem_of_map_to_list; exact Hw).
  unfold exec, disconnectDevice.
  rewrite bind_run. unfold getState at 1. rewrite Hconn.
  rewrite decide_False by exact Hdisc.
  match goal with
  | |- cancelled w (tryFinally (tryCatch (_ ;; _ ;; _ ;; ?rest) ?h) ?fin s).2 =>
    set (after := rest); set (handler := h); set (finally := fin)
  end.
  assert (keeps (cancelled w) (tryCatch after handler)) as Hafter.
  { apply keeps_tryCatch; [|intros e; apply keeps_throw].
    unfold after.
    apply keeps_bind; [destruct (bleDisconnect deviceId);
                       [apply keeps_ret|apply keeps_throw]|intros _].
    apply keeps_bind; [keeps_field|intros _].
    apply keeps_bind; [keeps_field|intros _].
    do 5 (apply keeps_bind; [keeps_field|intros _]).
    apply cancelled_clearAuthAndTimers. }
  assert (keeps (cancelled w) finally) as Hfinally by (unfold finally; keeps_field).
  unfold tryFinally.
  match goal with
  | |- cancelled w (let '(r, s') := ?body s in _).2 =>
    assert (exists r s', body s = (r, s') /\ cancelled w s') as (r & s' & -> & Hs')
  end.
  { unfold tryCatch. rewrite !bind_modify, bind_run.
    rewrite (clearPendingFrameResponses_run deviceId m)
      by (destruct s; exact Hm).
    specialize (Hafter
      (set_frameMaps (alter (fun _ => ∅) m)
         (set_promises (rejectAll (map_to_list waiters))
            (set_timers (clearTimers (map_to_list waiters))
               (set_connections
                  (<[deviceId := mkConnection (connIsConnected connection) DISCONNECTING]>)
                  (set_disconnectingDevices (fun d => {[deviceId]} ∪ d) s)))))).
    unfold exec, tryCatch in Hafter.
    replace (frameMaps _ !! m) with (Some waiters) by (destruct s; symmetry; exact Hmap).
    cbn [default].
    destruct (after _) as [[a|e] s'] eqn:Hrun.
    - exists (Ok a), s'. split; [reflexivity|]. apply Hafter.
      destruct s; split; cbn in *.
      + eapply rejectAll_rejects; eassumption.
      + eapply clearTimers_clears; eassumption.
    - eexists _, _. split; [reflexivity|]. apply Hafter.
      destruct s; split; cbn in *.
      + eapply rejectAll_rejects; eassumption.
      + eapply clearTimers_clears; eassumption. }
  specialize (Hfinally s' Hs'). unfold exec in Hfinally.
  destruct (finally s') as [[[]|e] s'']; exact Hfinally.
Qed.

End Disconnect.

(** C2 (code bug).  A request is in flight on frame index 0 of a
    connected device (promise 1, timer 2).  When the device drops the link
    and the disconnect callback runs [_handleDeviceDisconnected], the
    waiter is not rejected: its promise stays pending and its timer stays
    armed, and only the timer, when it fires, rejects it with the
    read-timeout error.  On the same state [disconnectDevice] rejects it
    with the connection-closed error and disarms the timer. *)
Theorem handleDeviceDisconnected_leaves_waiter_pending :
  let dropped := exec (BluetoothKeySDK._handleDeviceDisconnected "lock-1") oneWaiter in
  let closed := exec (BluetoothKeySDK.disconnectDevice reliableBle "lock-1") oneWaiter in
  frameMaps oneWaiter !! 0%nat = Some {[0 := mkPendingResponse 1 2]}
  /\ promises oneWaiter !! 1%nat = Some Pending
  /\ promises dropped !! 1%nat = Some Pending
  /\ timers dropped !! 2%nat = Some (FrameTimeout 0 0 1)
  /\ promises (exec (BluetoothKeySDK.fireTimer plainCrypto reliableBle 2) dropped) !! 1%nat
     = Some (Rejected BluetoothKeySDKError.readTimeout)
  /\ promises closed !! 1%nat = Some (Rejected connectionClosed)
  /\ timers closed !! 2%nat = None.
Proof. vm_compute. repeat split; reflexivity. Qed.

Section DeviceDisconnected.
Import BluetoothKeySDK.

(** [_handleDeviceDisconnected] settles no promise at all. *)
Lemma handleDeviceDisconnected_promises deviceId s :
  promises (exec (_handleDeviceDisconnected deviceId) s) = promises s.
Proof.
  set (I := fun s' : SDK => promises s' = promises s).
  assert (forall f, (forall s', promises (f s') = promises s') -> keeps I (modify f))
    as Hmod.
  { intros f Hf. apply keeps_modify. intros s' Hs'. unfold I. rewrite Hf. exact Hs'. }
  assert (forall f, keeps I (modify (set_timers f))) as Htimers
    by (intros f; apply Hmod; intros []; reflexivity).
  assert (keeps I (_handleDeviceDisconnected deviceId)) as H; [|apply H; reflexivity].
  unfold _handleDeviceDisconnected.
  apply keeps_tryFinally; [|apply Hmod; intros []; reflexivity].
  apply keeps_tryCatch; [|intros; apply keeps_ret].
  apply keeps_bind; [apply keeps_getState|intros s0].
  destruct (decide _); [apply keeps_ret|].
  apply keeps_bind; [apply Hmod; intros []; reflexivity|intros _].
  apply keeps_bind;
    [destruct (_ !! _); [apply Hmod; intros []; reflexivity|apply keeps_ret]
    |intros _].
  do 4 (apply keeps_bind; [apply Hmod; intros []; reflexivity|intros _]).
  apply keeps_bind; [|intros _; apply Hmod; intros []; reflexivity].
  unfold clearAuthAndTimers.
  apply keeps_bind; [apply Hmod; intros []; reflexivity|intros _].
  apply keeps_bind; [apply keeps_getState|intros s1].
  apply keeps_bind; [|intros _].
  { destruct (_ !! _); [|apply keeps_ret].
    apply keeps_bind; [apply Htimers|intros _]. apply Hmod; intros []; reflexivity. }
  apply keeps_bind; [apply keeps_getState|intros s2].
  destruct (_ !! _); [|apply keeps_ret].
  apply keeps_bind; [apply Htimers|intros _]. apply Hmod; intros []; reflexivity.
Qed.

End DeviceDisconnected.

(** ** Device reports *)

Section DeviceReports.
Context (aes : CryptoFactory) (ble : BleClient).
Import BluetoothKeySDK.

Lemma isDeviceReport_opcode data :
  isDeviceReport data = true ->
  data <> []
  /\ (byteAt data 0 = BusinessCmd.UPLOAD_STATUS
      \/ byteAt data 0 = BusinessCmd.GET_SYS_PARAM).
Proof.
  unfold isDeviceReport. destruct data as [|b data]; [discriminate|].
  cbn [length Nat.eqb]. intros H%orb_true_iff.
  split; [discriminate|]. destruct H as [H|H]; apply Z.eqb_eq in H; auto.
Qed.

(** A report is parsed exactly when it has the length of its opcode. *)
Lemma parseDeviceStatusReport_length data :
  isDeviceReport data = true ->
  (length data = reportLength (byteAt data 0) ->
   exists report, CommandUtils.parseDeviceStatusReport data = Ok report)
  /\ (length data <> reportLength (byteAt data 0) ->
      exists error, CommandUtils.parseDeviceStatusReport data = Throw error).
Proof.
  intros [Hne Hop]%isDeviceReport_opcode.
  unfold CommandUtils.parseDeviceStatusReport, CommandUtils.validateResponse,
    reportLength.
  destruct data as [|b data]; [congruence|].
  change (byteAt (b :: data) 0) with b in *.
  cbn [length Nat.eqb negb andb].
  destruct Hop as [-> | ->]; cbn [Z.eqb Pos.eqb BusinessCmd.UPLOAD_STATUS
                                 BusinessCmd.GET_SYS_PARAM].
  - destruct (Nat.eqb_spec (length data) 6) as [H|H]; cbn [negb];
      split; intros Hlen; try lia; eauto.
  - destruct (Nat.eqb_spec (length data) 7) as [H|H]; cbn [negb];
      split; intros Hlen; try lia; eauto.
Qed.

Lemma handleDeviceReport_run deviceId data s :
  handleDeviceReport deviceId data s =
  (Ok tt,
   set_events
     (fun es =>
        es ++ match CommandUtils.parseDeviceStatusReport data with
              | Ok report => reportEvents deviceId data report
              | Throw error =>
                [EvError deviceId ("解析设备上报数据失败: " +:+ errorMessage error)]
              end) s).
Proof.
  unfold handleDeviceReport.
  destruct (CommandUtils.parseDeviceStatusReport data) as [report|error].
  - unfold emitEvent. rewrite !bind_modify. unfold modify, reportEvents.
    destruct s; cbn. rewrite <- !app_assoc. reflexivity.
  - reflexivity.
Qed.

Lemma handleDeviceActiveCommand_run deviceId frameIndex data s :
  handleDeviceActiveCommand aes ble deviceId frameIndex data s =
  (Ok tt,
   set_written
     (fun w =>
        w ++ match replyWire aes (default [] (dynamicKeys s !! deviceId))
                     frameIndex (reportReplyData data) with
             | Some packet => [(deviceId, packet)]
             | None => []
             end) s).
Proof.
  unfold replyWire, reportReplyData.
  cbv [handleDeviceActiveCommand buildReplyPacket BleClient_write transportPack
       tryCatch mbind M_bind mret M_ret mthrow M_throw getState modify].
  destruct (TransportLayerV1.pack _ _ _) as [transportData|];
    cbn [fmap option_fmap option_map].
  - destruct (bleWrite _ _ _); reflexivity.
  - destruct s; cbn. rewrite app_nil_r. reflexivity.
Qed.

(** C4, amended.  For an inbound REQUEST_WITH_ACK message that
    [isDeviceReport] recognises (opcode 0x07 or 0x06), the engine emits
    the three report events when the message has the length of its
    opcode (7 bytes for 0x07, 8 bytes for 0x06) and one error event
    otherwise; and for opcode 0x07 it writes one reply, the two bytes
    [0x07, 0x01] under the frame index of the inbound message, whenever
    the reply can be encrypted. *)
Theorem handleRequestWithAckData_report (s : SDK) (deviceId : string)
    (frameIndex : Z) (data : list Z) :
  isDeviceReport data = true ->
  let s' := exec (handleRequestWithAckData aes ble deviceId frameIndex
                    (byteAt data 0) data) s in
  (length data = reportLength (byteAt data 0) ->
   exists report,
     CommandUtils.parseDeviceStatusReport data = Ok report
     /\ events s' = events s ++ reportEvents deviceId data report)
  /\ (length data <> reportLength (byteAt data 0) ->
      exists message, events s' = events s ++ [EvError deviceId message])
  /\ (byteAt data 0 = BusinessCmd.UPLOAD_STATUS ->
      written s' =
      written s ++
      match replyWire aes (default [] (dynamicKeys s !! deviceId))
              frameIndex [0x07; 0x01] with
      | Some packet => [(deviceId, packet)]
      | None => []
      end).
Proof.
  intros Hreport s'.
  assert (s' =
          set_written
            (fun w =>
               w ++ match replyWire aes (default [] (dynamicKeys s !! deviceId))
                            frameIndex (reportReplyData data) with
                    | Some packet => [(deviceId, packet)]
                    | None => []
                    end)
            (set_events
               (fun es =>
                  es ++ match CommandUtils.parseDeviceStatusReport data with
                        | Ok report => reportEvents deviceId data report
                        | Throw error =>
                          [EvError deviceId
                             ("解析设备上报数据失败: " +:+ errorMessage error)]
                        end) s)) as ->.
  { unfold s', exec, handleRequestWithAckData, tryCatch. rewrite Hreport.
    rewrite bind_run, handleDeviceReport_run, handleDeviceActiveCommand_run.
    destruct s; reflexivity. }
  destruct (parseDeviceStatusReport_length data Hreport) as [Hok Hbad].
  repeat split.
  - intros Hlen. destruct (Hok Hlen) as [report Hparse].
    exists report. split; [exact Hparse|]. rewrite Hparse. destruct s; reflexivity.
  - intros Hlen. destruct (Hbad Hlen) as [error Hparse].
    rewrite Hparse. eexists. destruct s; reflexivity.
  - intros Hop. unfold reportReplyData. rewrite Hop. destruct s; reflexivity.
Qed.

End DeviceReports.

Lemma handleRequestWithAckData_report_witness :
  BluetoothKeySDK.isDeviceReport statusReport = true
  /\ (exists report,
        CommandUtils.parseDeviceStatusReport statusReport = Ok report
        /\ events (exec (BluetoothKeySDK.handleRequestWithAckData plainCrypto reliableBle
                           "lock-1" 9 (byteAt statusReport 0) statusReport) oneWaiter)
           = events oneWaiter ++ reportEvents "lock-1" statusReport report)
  /\ written (exec (BluetoothKeySDK.handleRequestWithAckData plainCrypto reliableBle
                      "lock-1" 9 (byteAt statusReport 0) statusReport) oneWaiter)
     = written oneWaiter ++
       match replyWire plainCrypto (default [] (dynamicKeys oneWaiter !! "lock-1"))
               9 [0x07; 0x01] with
       | Some packet => [("lock-1", packet)]
       | None => []
       end.
Proof.
  destruct (handleRequestWithAckData_report plainCrypto reliableBle oneWaiter
              "lock-1" 9 statusReport eq_refl) as (Hevents & _ & Hreply).
  split; [reflexivity|]. split.
  - apply Hevents. reflexivity.
  - apply Hreply. reflexivity.
Defined.

(** C4 as stated fails: a report with the opcode 0x07 and the wrong
    length raises no report event; the one event emitted is an error. *)
Lemma handleRequestWithAckData_short_report :
  BluetoothKeySDK.isDeviceReport shortStatusReport = true
  /\ events (exec (BluetoothKeySDK.handleRequestWithAckData plainCrypto reliableBle
                     "lock-1" 9 (byteAt shortStatusReport 0) shortStatusReport) oneWaiter)
     = events oneWaiter
       ++ [EvError "lock-1" "解析设备上报数据失败: 无效的锁具状态上报数据"].
Proof. split; vm_compute; reflexivity. Qed.

Section InfoReportReply.
Context (aes : CryptoFactory) (ble : BleClient).

(** The reply to a report with the opcode 0x06 (GET_SYS_PARAM in
    types.ts) carries [0x05, 0x01], not its own opcode. *)
Lemma handleRequestWithAckData_info_reply s deviceId frameIndex data :
  BluetoothKeySDK.isDeviceReport data = true ->
  byteAt data 0 = BusinessCmd.GET_SYS_PARAM ->
  written (exec (BluetoothKeySDK.handleRequestWithAckData aes ble deviceId frameIndex
                   (byteAt data 0) data) s)
  = written s ++
    match replyWire aes (default [] (dynamicKeys s !! deviceId))
            frameIndex [0x05; 0x01] with
    | Some packet => [(deviceId, packet)]
    | None => []
    end.
Proof.
  intros Hreport Hop.
  unfold exec, BluetoothKeySDK.handleRequestWithAckData, tryCatch. rewrite Hreport.
  rewrite bind_run, handleDeviceReport_run, handleDeviceActiveCommand_run.
  unfold reportReplyData. rewrite Hop. destruct s; reflexivity.
Qed.

End InfoReportReply.

Example info_report_reply :
  written (exec (BluetoothKeySDK.handleRequestWithAckData plainCrypto reliableBle
                   "lock-1" 9 (byteAt infoReport 0) infoReport) oneWaiter)
  = [("lock-1", PhysicalLayer.pack [0x01; 0xFD; 9; 2; 0x05; 0x01])].
Proof. vm_compute. reflexivity. Qed.

Lemma checkXorValidation_spec_witness :
  BluetoothKeySDK.checkXorValidation [0x01; 0x10; 0x20] [0x01; 0x4A; 0x7A] = true
  /\ BluetoothKeySDK.checkXorValidation [0x01; 0x10; 0x20]
       (<[1%nat := 0x4B]> [0x01; 0x4A; 0x7A]) = false.
Proof.
  split; [reflexivity|].
  apply (proj2 (checkXorValidation_spec [0x01; 0x10; 0x20] [0x01; 0x4A; 0x7A]));
    [reflexivity|cbn; lia|discriminate].
Defined.



(** ** Lock ids to segments *)

Section LockIdSegments.
Import CommandUtils.

Lemma segmentLoop_segmentsFrom ids start end_ segments :
  segmentLoop ids start end_ segments = segments ++ segmentsFrom ids start end_.
Proof.
  revert start end_ segments.
  induction ids as [|id ids IH]; intros start end_ segments; [reflexivity|].
  cbn [segmentLoop segmentsFrom]. destruct (id =? end_ + 1).
  - apply IH.
  - rewrite IH, <- app_assoc. reflexivity.
Qed.

Lemma convertLockIdsToSegments_sorted lockIds :
  convertLockIdsToSegments lockIds =
  match merge_sort Z.le (positiveIds lockIds) with
  | [] => []
  | first :: rest => segmentsFrom rest first first
  end.
Proof.
  unfold convertLockIdsToSegments, positiveIds.
  destruct (merge_sort _ _); [reflexivity|].
  apply segmentLoop_segmentsFrom.
Qed.

Lemma segmentsFrom_covers ids start end_ x :
  start <= end_ ->
  covers (segmentsFrom ids start end_) x <-> (start <= x <= end_ \/ x ∈ ids).
Proof.
  revert start end_. induction ids as [|id ids IH]; intros start end_ Hle.
  - cbn [segmentsFrom]. unfold covers. split.
    + intros (seg & ->%list_elem_of_singleton & Hx). left. exact Hx.
    + intros [Hx|Hx]; [|inversion Hx].
      exists (start, end_). split; [apply list_elem_of_singleton; reflexivity|exact Hx].
  - cbn [segmentsFrom]. destruct (Z.eqb_spec id (end_ + 1)) as [->|Hne].
    + rewrite IH by lia. rewrite elem_of_cons. split.
      * intros [Hx|Hx]; [|auto]. destruct (decide (x = end_ + 1)); [auto|left; lia].
      * intros [Hx|[->|Hx]]; [left; lia|left; lia|auto].
    + unfold covers in *. rewrite elem_of_cons. split.
      * intros (seg & [->|Hin]%elem_of_cons & Hx); [left; exact Hx|].
        destruct (proj1 (IH id id ltac:(lia))) as [H|H]; [eauto| |auto].
        right. left. cbn in *. lia.
      * intros [Hx|Hx].
        { exists (start, end_). split; [apply elem_of_cons; auto|exact Hx]. }
        destruct (proj2 (IH id id ltac:(lia))) as (seg & Hin & Hseg).
        { destruct Hx as [->|Hx]; [left; lia|auto]. }
        exists seg. split; [apply elem_of_cons; auto|exact Hseg].
Qed.

(** For every list of lock ids, the ranges returned cover exactly the
    positive numbers parsed from it. *)
Lemma convertLockIdsToSegments_covers lockIds x :
  covers (convertLockIdsToSegments lockIds) x <-> x ∈ positiveIds lockIds.
Proof.
  rewrite convertLockIdsToSegments_sorted.
  rewrite <- (merge_sort_Permutation Z.le (positiveIds lockIds)) at 2.
  destruct (merge_sort Z.le (positiveIds lockIds)) as [|first rest].
  - split; [intros (seg & Hin & _); inversion Hin|intros H; inversion H].
  - rewrite segmentsFrom_covers, elem_of_cons by lia. split.
    + intros [Hx|Hx]; [left; lia|auto].
    + intros [->|Hx]; [left; lia|auto].
Qed.

Lemma segmentsFrom_head ids start end_ :
  exists end' rest, segmentsFrom ids start end_ = (start, end') :: rest.
Proof.
  revert start end_. induction ids as [|id ids IH]; intros start end_.
  - eexists _, _. reflexivity.
  - cbn [segmentsFrom]. destruct (id =? end_ + 1); [apply IH|].
    eexists _, _. reflexivity.
Qed.

Lemma segmentsFrom_apart ids start end_ :
  start <= end_ ->
  StronglySorted Z.lt (end_ :: ids) ->
  Forall (fun segment => segment.1 <= segment.2) (segmentsFrom ids start end_)
  /\ Sorted apart (segmentsFrom ids start end_).
Proof.
  revert start end_. induction ids as [|id ids IH]; intros start end_ Hle Hsorted.
  - cbn [segmentsFrom]. split; repeat constructor. exact Hle.
  - apply StronglySorted_inv in Hsorted as [Htail Hhead].
    apply Forall_cons in Hhead as [Hlt _].
    cbn [segmentsFrom]. destruct (Z.eqb_spec id (end_ + 1)) as [->|Hne].
    + apply IH; [lia|exact Htail].
    + destruct (IH id id ltac:(lia) Htail) as [Hwf Hap].
      split; [constructor; [exact Hle|exact Hwf]|].
      constructor; [exact Hap|].
      destruct (segmentsFrom_head ids id id) as (end' & rest & ->).
      constructor. unfold apart. cbn. lia.
Qed.

Lemma StronglySorted_le_lt (l : list Z) :
  StronglySorted Z.le l -> NoDup l -> StronglySorted Z.lt l.
Proof.
  induction 1 as [|a l Hs IH Hall]; intros Hnd; [constructor|].
  apply NoDup_cons in Hnd as [Hnotin Hnd].
  constructor; [apply IH, Hnd|].
  rewrite Forall_forall in *. intros x Hx.
  specialize (Hall x Hx).
  assert (a <> x) by (intros ->; apply Hnotin; exact Hx). lia.
Qed.

Lemma Sorted_apart_strong (segments : list (Z * Z)) :
  Forall (fun segment => segment.1 <= segment.2) segments ->
  Sorted apart segments -> StronglySorted apart segments.
Proof.
  induction 1 as [|a l Ha Hwf IH]; intros Hsorted; [constructor|].
  apply Sorted_inv in Hsorted as [Htail Hhd].
  specialize (IH Htail). constructor; [exact IH|].
  destruct Hhd as [|b l Hab]; [constructor|].
  apply StronglySorted_inv in IH as [_ Hb].
  apply Forall_cons in Hwf as [Hbwf _].
  constructor; [exact Hab|].
  eapply Forall_impl; [exact Hb|]. unfold apart in *.
  intros x Hx. lia.
Qed.

(** X13.  When the positive ids of the input are pairwise distinct and
    below 2^53 (the integers a JS number holds exactly, for which the
    parse, the sort and the test [ids[i] === end + 1] work on exact
    values), every range is well formed and the ranges are in ascending
    order with a gap between any two: sorted, pairwise disjoint and
    maximal. *)
Lemma convertLockIdsToSegments_distinct lockIds :
  Forall (fun id => id < 2 ^ 53) (positiveIds lockIds) ->
  NoDup (positiveIds lockIds) ->
  Forall (fun segment => segment.1 <= segment.2) (convertLockIdsToSegments lockIds)
  /\ StronglySorted apart (convertLockIdsToSegments lockIds).
Proof.
  intros _ Hnd. rewrite convertLockIdsToSegments_sorted.
  pose proof (StronglySorted_merge_sort Z.le (positiveIds lockIds)) as Hsorted.
  rewrite <- (merge_sort_Permutation Z.le) in Hnd.
  apply StronglySorted_le_lt in Hsorted; [|exact Hnd].
  destruct (merge_sort Z.le (positiveIds lockIds)) as [|first rest].
  - split; constructor.
  - destruct (segmentsFrom_apart rest first first ltac:(lia) Hsorted) as [Hwf Hap].
    split; [exact Hwf|]. apply Sorted_apart_strong; assumption.
Qed.

End LockIdSegments.

(** C1 (code bug).  The lock ids [1, 1, 2] give the segments [1,1] and
    [1,2]: the first range lies inside the second, so the result is
    neither pairwise disjoint nor maximal, while its ranges still cover
    exactly the ids 1 and 2. *)
Theorem convertLockIdsToSegments_duplicate_id :
  CommandUtils.convertLockIdsToSegments [LockIdNumber 1; LockIdNumber 1; LockIdNumber 2]
  = [(1, 1); (1, 2)]
  /\ ~ StronglySorted apart
        (CommandUtils.convertLockIdsToSegments
           [LockIdNumber 1; LockIdNumber 1; LockIdNumber 2])
  /\ (forall x,
        covers (CommandUtils.convertLockIdsToSegments
                  [LockIdNumber 1; LockIdNumber 1; LockIdNumber 2]) x
        <-> x = 1 \/ x = 2).
Proof.
  assert (CommandUtils.convertLockIdsToSegments
            [LockIdNumber 1; LockIdNumber 1; LockIdNumber 2] = [(1, 1); (1, 2)]) as Heq
    by (vm_compute; reflexivity).
  split; [exact Heq|]. split.
  - rewrite Heq. intros H. apply StronglySorted_inv in H as [_ H].
    apply Forall_cons in H as [H _]. unfold apart in H. cbn in H. lia.
  - intros x. rewrite convertLockIdsToSegments_covers.
    change (positiveIds [LockIdNumber 1; LockIdNumber 1; LockIdNumber 2])
      with [1; 1; 2].
    rewrite !elem_of_cons, elem_of_nil. tauto.
Qed.

(** ** The receive buffer *)

Section ReceiveBuffer.
Import BluetoothKeySDK.

(** One step of the reassembler on the state: the chunk joins the buffer
    of the device, the complete frames are taken, the remainder stays. *)
Lemma reassembler_step deviceId chunk s :
  (appendToBuffer deviceId chunk ;; takeBufferedFrames deviceId) s =
  let buffer := default [] (dataBuffers s !! deviceId) ++ chunk in
  let '(frames, remain) := PhysicalLayer.unpackWithRemain buffer in
  (Ok frames,
   set_dataBuffers (fun b => <[deviceId := remain]> (<[deviceId := buffer]> b)) s).
Proof.
  unfold appendToBuffer, takeBufferedFrames.
  rewrite bind_modify, bind_run. unfold getState at 1.
  replace (dataBuffers (set_dataBuffers _ s) !! deviceId)
    with (Some (default [] (dataBuffers s !! deviceId) ++ chunk))
    by (destruct s; cbn; rewrite lookup_insert_eq; reflexivity).
  cbn [default].
  destruct (PhysicalLayer.unpackWithRemain _) as [frames remain].
  rewrite bind_modify. destruct s; reflexivity.
Qed.

(** Run on the state, the reassembler is [feedChunks] on the buffer of
    the device. *)
Lemma receiveChunks_feedChunks deviceId chunks s :
  exists s',
    receiveChunks deviceId chunks s
    = (Ok (PhysicalLayer.feedChunks (default [] (dataBuffers s !! deviceId)) chunks).1, s')
    /\ default [] (dataBuffers s' !! deviceId)
       = (PhysicalLayer.feedChunks (default [] (dataBuffers s !! deviceId)) chunks).2.
Proof.
  revert s. induction chunks as [|chunk chunks IH]; intros s.
  - exists s. split; reflexivity.
  - cbn [receiveChunks PhysicalLayer.feedChunks].
    pose proof (reassembler_step deviceId chunk s) as Hstep. cbv zeta in Hstep.
    destruct (PhysicalLayer.unpackWithRemain _) as [frames remain].
    match type of Hstep with _ = (_, ?s1) => set (s1' := s1) in * end.
    assert (default [] (dataBuffers s1' !! deviceId) = remain) as Hbuf
      by (unfold s1'; destruct s; cbn; rewrite lookup_insert_eq; reflexivity).
    destruct (IH s1') as (s' & Hrun & Hrem). rewrite Hbuf in Hrun, Hrem.
    exists s'. split.
    + change (appendToBuffer deviceId chunk ;; ?k)
        with (appendToBuffer deviceId chunk ≫= fun _ => k).
      unfold mbind at 1, M_bind at 1.
      unfold appendToBuffer at 1, modify at 1.
      unfold appendToBuffer, mbind at 1, M_bind at 1, modify at 1 in Hstep.
      rewrite bind_run.
      destruct (takeBufferedFrames deviceId _) as [[fr|e] s1''] eqn:Htake;
        [|discriminate Hstep].
      injection Hstep as -> ->.
      rewrite bind_run, Hrun.
      destruct (PhysicalLayer.feedChunks remain chunks). reflexivity.
    + destruct (PhysicalLayer.feedChunks remain chunks). exact Hrem.
Qed.

End ReceiveBuffer.


(** ** The frame scanner on arbitrary input *)

Section FrameScanner.
Import PhysicalLayer.

Lemma step_Emit_header buf totalLen :
  step buf = Emit totalLen -> byteAt buf 0 = 0xA5 /\ byteAt buf 1 = 0x5A.
Proof.
  unfold step. destruct (negb (5 <=? length buf)%nat); [discriminate|].
  change (byteAt header 0) with 0xA5. change (byteAt header 1) with 0x5A.
  destruct (Z.eqb_spec (byteAt buf 0) 0xA5); [|discriminate].
  destruct (Z.eqb_spec (byteAt buf 1) 0x5A); [|discriminate].
  auto.
Qed.

(** A header followed by the length field 0 never passes the checksum
    test: the three bytes before the checksum sum to 0xFF, and the
    checksum byte is the high length byte, 0. *)
Lemma step_Emit_nonempty buf totalLen :
  Forall isByte buf -> step buf = Emit totalLen -> (5 <= totalLen)%nat.
Proof.
  intros Hbytes Hstep.
  destruct (step_Emit_header _ _ Hstep) as [H0 H1].
  pose proof (step_Emit_length _ _ Hstep) as Hlen.
  destruct (step_Emit_checksum _ _ Hstep) as [Ht Hok].
  destruct buf as [|b0 [|b1 [|b2 [|b3 rest]]]]; try (cbn in Hlen; lia).
  unfold byteAt in H0, H1. cbn in H0, H1. subst b0 b1.
  assert (isByte b2 /\ isByte b3) as [Hb2 Hb3].
  { inversion Hbytes as [|? ? _ Hb]. inversion Hb as [|? ? _ Hb'].
    inversion Hb' as [|? ? ? Hb'']. inversion Hb''. auto. }
  unfold isByte in *.
  destruct (decide (5 <= totalLen)%nat) as [|Hsmall]; [assumption|exfalso].
  assert (totalLen = 4%nat) as Ht4 by lia.
  unfold checksumOkAt in Hok. rewrite <- Ht, Ht4 in Hok.
  unfold totalLenAt, byteAt in Ht. cbn [nth Nat.add] in Ht.
  rewrite Z.shiftl_mul_pow2 in Ht by lia.
  assert (b2 = 0 /\ b3 = 0) as [-> ->] by lia.
  vm_compute in Hok. discriminate.
Qed.

Lemma step_Emit_wellFormed buf totalLen :
  Forall isByte buf -> step buf = Emit totalLen ->
  wellFormedFrame (take totalLen buf).
Proof.
  intros Hbytes Hstep.
  pose proof (step_Emit_nonempty _ _ Hbytes Hstep) as H5.
  pose proof (step_Emit_length _ _ Hstep) as Hlen.
  destruct (step_Emit_header _ _ Hstep) as [H0 H1].
  destruct (step_Emit_checksum _ _ Hstep) as [Ht Hok].
  unfold wellFormedFrame. rewrite length_take, Nat.min_l by lia.
  repeat split.
  - rewrite take_take, Nat.min_l by lia.
    destruct buf as [|b0 [|b1 rest]]; try (cbn in Hlen; lia).
    unfold byteAt in H0, H1. cbn in H0, H1. subst. reflexivity.
  - exact H5.
  - rewrite totalLenAt_take by lia. exact Ht.
  - rewrite Ht, checksumOkAt_take. exact Hok.
Qed.

Lemma scan_frames_wellFormed n buf :
  Forall isByte buf -> Forall wellFormedFrame (scan n buf).1.
Proof.
  revert buf. induction n as [|n IH]; intros buf Hbytes; [constructor|].
  cbn [scan]. destruct (step buf) as [| |totalLen] eqn:Hstep.
  - constructor.
  - apply IH, Forall_drop, Hbytes.
  - specialize (IH (drop totalLen buf) (Forall_drop _ _ _ Hbytes)).
    destruct (scan n (drop totalLen buf)) as [frames remain]. cbn in *.
    constructor; [|exact IH].
    apply step_Emit_wellFormed; assumption.
Qed.

Lemma wellFormedFrame_payload frame :
  wellFormedFrame frame ->
  framePayload frame = Some (slice 4 (length frame - 1) frame).
Proof.
  intros (_ & H5 & Hlen & _). unfold framePayload.
  replace (length frame <? 5)%nat with false
    by (symmetry; apply Nat.ltb_ge; exact H5).
  unfold totalLenAt in Hlen. cbn [Nat.add] in Hlen.
  set (dataLength := Z.to_nat _) in *.
  replace (length frame =? 4 + dataLength)%nat with true
    by (symmetry; apply Nat.eqb_eq; lia).
  cbn [negb]. do 2 f_equal. lia.
Qed.

(** X1.  Whatever bytes arrive, every frame that [unpackWithRemain]
    returns is well formed: it starts with 0xA5 0x5A, it has at least
    five bytes, its length is four plus the value of its little-endian
    length field, and its last byte is the checksum of the others. *)
Theorem unpack_frames_wellFormed (data : list Z) :
  Forall isByte data -> Forall wellFormedFrame (unpackWithRemain data).1.
Proof.
  intros Hbytes. rewrite unpackWithRemain_scan.
  apply scan_frames_wellFormed, Hbytes.
Qed.

(** X2.  The two length checks of [_processPhysicalFrame] never reject a
    frame that [unpack] returns: the payload is always taken out, and it
    is the frame without its four leading bytes and its checksum. *)
Theorem unpack_frames_payload (data : list Z) :
  Forall isByte data ->
  Forall (fun frame =>
            framePayload frame = Some (slice 4 (length frame - 1) frame))
         (unpack data).
Proof.
  intros Hbytes. unfold unpack. rewrite unpackWithRemain_scan.
  eapply Forall_impl; [apply scan_frames_wellFormed, Hbytes|].
  apply wellFormedFrame_payload.
Qed.

Lemma scan_sublist n buf :
  concat (scan n buf).1 ++ (scan n buf).2 `sublist_of` buf.
Proof.
  revert buf. induction n as [|n IH]; intros buf; [reflexivity|].
  cbn [scan]. destruct (step buf) as [| |totalLen] eqn:Hstep.
  - reflexivity.
  - etransitivity; [apply IH|apply sublist_drop].
  - specialize (IH (drop totalLen buf)).
    destruct (scan n (drop totalLen buf)) as [frames remain]. cbn in *.
    rewrite <- app_assoc.
    pose proof (sublist_app _ _ _ _ (reflexivity (take totalLen buf)) IH) as H.
    rewrite take_drop in H. exact H.
Qed.

Lemma scan_suffix n buf : (scan n buf).2 `suffix_of` buf.
Proof.
  revert buf. induction n as [|n IH]; intros buf; [reflexivity|].
  cbn [scan]. destruct (step buf) as [| |totalLen] eqn:Hstep.
  - reflexivity.
  - etransitivity; [apply IH|apply suffix_drop].
  - specialize (IH (drop totalLen buf)).
    destruct (scan n (drop totalLen buf)) as [frames remain]. cbn in *.
    etransitivity; [exact IH|apply suffix_drop].
Qed.

(** X3.  The scanner only cuts: the frames it returns, followed by the
    remainder, are bytes of the input in their order (it drops bytes
    between frames, and never repeats, reorders or invents one), and the
    remainder is the end of the input. *)
Theorem unpackWithRemain_sublist (data : list Z) :
  concat (unpackWithRemain data).1 ++ (unpackWithRemain data).2 `sublist_of` data
  /\ (unpackWithRemain data).2 `suffix_of` data.
Proof.
  rewrite unpackWithRemain_scan. split; [apply scan_sublist|apply scan_suffix].
Qed.

Lemma scan_remain_stop n buf :
  (length buf <= n)%nat -> step (scan n buf).2 = Stop.
Proof.
  revert buf. induction n as [|n IH]; intros buf Hn.
  - destruct buf; [reflexivity|cbn in Hn; lia].
  - cbn [scan]. destruct (step buf) as [| |totalLen] eqn:Hstep.
    + exact Hstep.
    + apply step_Skip_length in Hstep. apply IH. rewrite length_drop. lia.
    + apply step_Emit_length in Hstep.
      specialize (IH (drop totalLen buf)).
      destruct (scan n (drop totalLen buf)) as [frames remain]. cbn in *.
      apply IH. rewrite length_drop. lia.
Qed.

Lemma scan_stop n buf : step buf = Stop -> scan n buf = ([], buf).
Proof. intros H. destruct n; [reflexivity|]. cbn [scan]. rewrite H. reflexivity. Qed.

(** X4.  The remainder holds no complete frame: scanning it again
    returns no frame and leaves it as it is, so the buffer kept between
    two notifications is stable. *)
Theorem unpackWithRemain_remain (data : list Z) :
  unpackWithRemain (unpackWithRemain data).2 = ([], (unpackWithRemain data).2).
Proof.
  rewrite (unpackWithRemain_scan data).
  rewrite unpackWithRemain_scan. apply scan_stop, scan_remain_stop. reflexivity.
Qed.

Lemma unpackWithRemain_pack_frame data :
  Z.of_nat (length data) <= 65534 ->
  unpackWithRemain (pack data) = ([pack data], []).
Proof.
  intros Hlen. rewrite unpackWithRemain_scan, pack_length.
  replace (length data + 5)%nat with (S (length data + 4)) at 1 by lia.
  cbn [scan]. rewrite pack_step by exact Hlen.
  rewrite <- pack_length, drop_all, firstn_all.
  destruct (length data + 4)%nat; reflexivity.
Qed.

Lemma unpackWithRemain_pack_frames payloads :
  Forall (fun payload => Z.of_nat (length payload) <= 65534) payloads ->
  unpackWithRemain (concat (map pack payloads)) = (map pack payloads, []).
Proof.
  induction 1 as [|payload payloads Hlen _ IH]; [reflexivity|].
  cbn [map concat]. rewrite unpackWithRemain_app.
  rewrite unpackWithRemain_pack_frame by exact Hlen.
  cbn [app]. rewrite IH. reflexivity.
Qed.

Lemma framePayload_pack_frames payloads :
  Forall (fun payload => Z.of_nat (length payload) <= 65534) payloads ->
  omap framePayload (map pack payloads) = payloads.
Proof.
  induction 1 as [|payload payloads Hlen _ IH]; [reflexivity|].
  cbn [map omap list_omap]. rewrite pack_payload by exact Hlen.
  f_equal. exact IH.
Qed.

(** X5.  Frames packed back to back are all found, in order, with
    nothing left over, and their payloads are the payloads packed. *)
Theorem unpackWithRemain_packed_stream (payloads : list (list Z)) :
  Forall (fun payload => Z.of_nat (length payload) <= 65534) payloads ->
  unpackWithRemain (concat (map pack payloads)) = (map pack payloads, [])
  /\ physicalUnpack (concat (map pack payloads)) = payloads.
Proof.
  intros Hall. split; [apply unpackWithRemain_pack_frames, Hall|].
  unfold physicalUnpack, unpack.
  rewrite unpackWithRemain_pack_frames by exact Hall.
  apply framePayload_pack_frames, Hall.
Qed.

Lemma step_skip_noise b buf :
  b <> 0xA5 -> (4 <= length buf)%nat -> step (b :: buf) = Skip.
Proof.
  intros Hb Hlen. unfold step. cbn [length].
  replace (5 <=? S (length buf))%nat with true
    by (symmetry; apply Nat.leb_le; lia).
  change (byteAt (b :: buf) 0) with b. change (byteAt header 0) with 0xA5.
  apply Z.eqb_neq in Hb. rewrite Hb. reflexivity.
Qed.

(** X6.  Bytes before a frame that contain no 0xA5 are skipped one by
    one, and the frame after them is found whole. *)
Theorem unpackWithRemain_skips_noise (noise data : list Z) :
  Forall (fun b => b <> 0xA5) noise ->
  Z.of_nat (length data) <= 65534 ->
  unpackWithRemain (noise ++ pack data) = ([pack data], []).
Proof.
  intros Hnoise Hlen.
  induction Hnoise as [|b noise Hb _ IH].
  - apply unpackWithRemain_pack_frame, Hlen.
  - rewrite unpackWithRemain_scan in *. cbn [app length scan].
    rewrite step_skip_noise
      by (try exact Hb; rewrite length_app, pack_length; lia).
    cbn [skipn]. rewrite drop_0. exact IH.
Qed.

(** X7.  A header whose length field announces more bytes than have
    arrived stops the scan there: nothing is returned and the whole
    buffer is kept, whatever follows the four bytes, complete frames
    included. *)
Theorem unpackWithRemain_waits_at_header (lo hi : Z) (rest : list Z) :
  (1 <= length rest)%nat ->
  (length rest < Z.to_nat (lo + Z.shiftl hi 8))%nat ->
  unpackWithRemain (0xA5 :: 0x5A :: lo :: hi :: rest)
  = ([], 0xA5 :: 0x5A :: lo :: hi :: rest).
Proof.
  intros H1 Hlen. rewrite unpackWithRemain_scan. apply scan_stop.
  unfold step. cbn [length].
  replace (5 <=? S (S (S (S (length rest)))))%nat with true
    by (symmetry; apply Nat.leb_le; lia).
  change (byteAt (_ :: _ :: ?c :: _) 2) with lo.
  change (byteAt (_ :: _ :: _ :: ?d :: _) 3) with hi.
  change (negb (byteAt (0xA5 :: _) 0 =? byteAt header 0)) with false.
  change (negb (byteAt (_ :: 0x5A :: _) 1 =? byteAt header 1)) with false.
  cbn [negb orb].
  replace (S (S (S (S (length rest)))) <? 4 + Z.to_nat (lo + Z.shiftl hi 8))%nat
    with true by (symmetry; apply Nat.ltb_lt; lia).
  reflexivity.
Qed.

End FrameScanner.

Lemma unpack_frames_wellFormed_witness :
  Forall isByte (0x00 :: badChecksumFrame ++ PhysicalLayer.pack [0x01; 0xF6])
  /\ Forall wellFormedFrame
       (PhysicalLayer.unpackWithRemain
          (0x00 :: badChecksumFrame ++ PhysicalLayer.pack [0x01; 0xF6])).1.
Proof.
  assert (Forall isByte (0x00 :: badChecksumFrame ++ PhysicalLayer.pack [0x01; 0xF6]))
    as Hbytes by (vm_compute; repeat constructor; discriminate).
  split; [exact Hbytes|].
  apply (unpack_frames_wellFormed _ Hbytes).
Defined.

Lemma unpack_frames_payload_witness :
  Forall isByte (PhysicalLayer.pack [0x01; 0xF6] ++ [0xA5; 0x5A])
  /\ Forall (fun frame =>
               PhysicalLayer.framePayload frame
               = Some (slice 4 (length frame - 1) frame))
            (PhysicalLayer.unpack (PhysicalLayer.pack [0x01; 0xF6] ++ [0xA5; 0x5A])).
Proof.
  assert (Forall isByte (PhysicalLayer.pack [0x01; 0xF6] ++ [0xA5; 0x5A]))
    as Hbytes by (vm_compute; repeat constructor; discriminate).
  split; [exact Hbytes|].
  apply (unpack_frames_payload _ Hbytes).
Defined.

Lemma unpackWithRemain_packed_stream_witness :
  Forall (fun payload => Z.of_nat (length payload) <= 65534) [[0x01; 0xF6]; []; [0x07]]
  /\ (PhysicalLayer.unpackWithRemain
        (concat (map PhysicalLayer.pack [[0x01; 0xF6]; []; [0x07]]))
      = (map PhysicalLayer.pack [[0x01; 0xF6]; []; [0x07]], [])
      /\ PhysicalLayer.physicalUnpack
           (concat (map PhysicalLayer.pack [[0x01; 0xF6]; []; [0x07]]))
         = [[0x01; 0xF6]; []; [0x07]]).
Proof.
  assert (Forall (fun payload => Z.of_nat (length payload) <= 65534)
                 [[0x01; 0xF6]; []; [0x07]]) as Hall
    by (repeat constructor; cbn; lia).
  split; [exact Hall|].
  apply (unpackWithRemain_packed_stream _ Hall).
Defined.

Lemma unpackWithRemain_skips_noise_witness :
  (Forall (fun b => b <> 0xA5) [0x00; 0x5A; 0xFF]
   /\ Z.of_nat (length [0x01; 0xF6]) <= 65534)
  /\ PhysicalLayer.unpackWithRemain ([0x00; 0x5A; 0xFF] ++ PhysicalLayer.pack [0x01; 0xF6])
     = ([PhysicalLayer.pack [0x01; 0xF6]], []).
Proof.
  assert (Forall (fun b => b <> 0xA5) [0x00; 0x5A; 0xFF]) as Hnoise
    by (repeat constructor; discriminate).
  assert (Z.of_nat (length [0x01; 0xF6]) <= 65534) as Hlen by (cbn; lia).
  split; [split; assumption|].
  apply (unpackWithRemain_skips_noise _ _ Hnoise Hlen).
Defined.

Lemma unpackWithRemain_waits_at_header_witness :
  ((1 <= length (PhysicalLayer.pack [0x07%Z; 0x01%Z]))%nat
   /\ (length (PhysicalLayer.pack [0x07%Z; 0x01%Z]) < Z.to_nat (0x10 + Z.shiftl 0x00 8))%nat)
  /\ PhysicalLayer.unpackWithRemain
       (0xA5 :: 0x5A :: 0x10 :: 0x00 :: PhysicalLayer.pack [0x07; 0x01])
     = ([], 0xA5 :: 0x5A :: 0x10 :: 0x00 :: PhysicalLayer.pack [0x07; 0x01]).
Proof.
  assert (1 <= length (PhysicalLayer.pack [0x07%Z; 0x01%Z]))%nat as H1 by (vm_compute; lia).
  assert (length (PhysicalLayer.pack [0x07%Z; 0x01%Z])
          < Z.to_nat (0x10 + Z.shiftl 0x00 8))%nat as H2 by (vm_compute; lia).
  split; [split; assumption|].
  apply (unpackWithRemain_waits_at_header _ _ _ H1 H2).
Defined.

(** ** The transport codec *)

(** The byte stored for a constant, and a constant mask. *)
Ltac eval_toUint8 :=
  repeat match goal with
  | |- context [toUint8 ?x] =>
    let v := eval vm_compute in (toUint8 x) in change (toUint8 x) with v
  end.

Ltac eval_land :=
  repeat match goal with
  | |- context [Z.land ?a ?b] =>
    let v := eval vm_compute in (Z.land a b) in change (Z.land a b) with v
  end.

Section TransportCodec.
Context (aes : CryptoFactory).

(** What [unpack] does with a version 1 packet whose control byte comes
    from the table of [pack]: bit 0x04 is set in all eight bytes of the
    table, so the body always goes through [decrypt]. *)
Lemma transport_unpack_table ackType encryptType body key :
  TransportLayerV1.unpack aes
    (toUint8 0x01 :: toUint8 (TransportLayerV1.controlByte ackType encryptType) :: body)
    key
  = mkTransportData 0x01 ackType ENCRYPT <$> decrypt body key.
Proof.
  destruct ackType, encryptType; eval_toUint8;
    unfold TransportLayerV1.unpack; cbn -[decrypt]; eval_land;
    cbn -[decrypt]; rewrite drop_0; destruct (decrypt body key); reflexivity.
Qed.

(** X8.  What [TransportLayerV1.pack] writes encrypted, for version 1
    with the default cipher, [unpack] reads back under the same key: the
    same acknowledgement type and the same data, provided the cipher
    decrypts what it encrypted. *)
Theorem transport_pack_unpack (data : list Z) (options : PackOptions)
    (packet : list Z) :
  default 0x01 (optVersion options) = 0x01 ->
  default ENCRYPT (optEncryptType options) = ENCRYPT ->
  optCryptoFactory options = None ->
  (forall ciphertext,
     encrypt data (default [] (optSecretKey options)) = Some ciphertext ->
     decrypt ciphertext (default [] (optSecretKey options)) = Some data) ->
  TransportLayerV1.pack aes data options = Some packet ->
  TransportLayerV1.unpack aes packet (default [] (optSecretKey options))
  = Some (mkTransportData 0x01
            (default REQUEST_WITH_ACK (optAckType options)) ENCRYPT data).
Proof.
  intros Hversion Henc Hfactory Hcipher.
  unfold TransportLayerV1.pack. rewrite Hversion, Henc, Hfactory. cbn [default].
  change (id aes) with aes.
  destruct (encrypt data _) as [ciphertext|] eqn:Hct; [|discriminate].
  intros [= <-]. cbn [map app].
  rewrite transport_unpack_table, (Hcipher _ eq_refl). reflexivity.
Qed.

(** X9.  A packet that [pack] writes with [NO_ENCRYPT] is not read back
    as sent: [unpack] tests bit 0x04 of the control byte, which is set in
    0xF4 to 0xF7 as well, so it reports [ENCRYPT] and returns the plain
    data run through [decrypt]. *)
Theorem transport_unpack_decrypts_plain (data : list Z) (options : PackOptions)
    (key : list Z) :
  default 0x01 (optVersion options) = 0x01 ->
  optEncryptType options = Some NO_ENCRYPT ->
  exists packet,
    TransportLayerV1.pack aes data options = Some packet
    /\ drop 2 packet = data
    /\ TransportLayerV1.unpack aes packet key
       = mkTransportData 0x01 (default REQUEST_WITH_ACK (optAckType options)) ENCRYPT
           <$> decrypt data key.
Proof.
  intros Hversion Henc.
  unfold TransportLayerV1.pack. rewrite Hversion, Henc. cbn [default].
  eexists. split; [reflexivity|]. split; [reflexivity|].
  cbn [map app]. apply transport_unpack_table.
Qed.

End TransportCodec.

Lemma transport_pack_unpack_witness :
  TransportLayerV1.unpack plainCrypto [0x01; 0xFD; 0x00; 0x02; 0x07; 0x01] [0x2A]
  = Some (mkTransportData 0x01 ACK ENCRYPT [0x00; 0x02; 0x07; 0x01]).
Proof.
  refine (transport_pack_unpack plainCrypto [0x00; 0x02; 0x07; 0x01]
            (mkPackOptions None (Some ACK) (Some ENCRYPT) None (Some [0x2A]))
            [0x01; 0xFD; 0x00; 0x02; 0x07; 0x01] _ _ _ _ _).
  - reflexivity.
  - reflexivity.
  - reflexivity.
  - intros ciphertext [= <-]. reflexivity.
  - reflexivity.
Defined.

Lemma transport_unpack_decrypts_plain_witness :
  exists packet,
    TransportLayerV1.pack plainCrypto [0x00; 0x01; 0x06]
      (mkPackOptions None None (Some NO_ENCRYPT) None None) = Some packet
    /\ drop 2 packet = [0x00; 0x01; 0x06]
    /\ TransportLayerV1.unpack plainCrypto packet [0x2A]
       = mkTransportData 0x01 REQUEST_WITH_ACK ENCRYPT
           <$> @decrypt plainCrypto [0x00; 0x01; 0x06] [0x2A].
Proof.
  apply (transport_unpack_decrypts_plain plainCrypto [0x00; 0x01; 0x06]
           (mkPackOptions None None (Some NO_ENCRYPT) None None) [0x2A]);
    reflexivity.
Defined.

(** ** Lock ids on the wire *)

Section LockIdBytes.
Import CommandUtils LockSegmentsFormat.

Lemma lockIdToBytes_leBytes lockId :
  lockIdToBytes lockId = leBytes (lockIdToNumber lockId mod 2 ^ 32).
Proof.
  rewrite <- wordBytes_leBytes. unfold lockIdToBytes, wordBytes, lockIdToNumber.
  rewrite Z.shiftr_0_r. destruct lockId; reflexivity.
Qed.

Lemma leBytes_bytes n : Forall isByte (leBytes n).
Proof.
  unfold leBytes, isByte.
  repeat (apply Forall_cons; split; [apply Z.mod_pos_bound; lia|]).
  constructor.
Qed.

Lemma leWord_leBytes_mod n : leWord (leBytes n) = n mod 2 ^ 32.
Proof.
  unfold leWord, leBytes, byteAt. cbn [nth].
  cbn [Z.pow Z.pow_pos Pos.iter Z.mul Pos.mul] in *.
  Z.div_mod_to_equations. lia.
Qed.

(** The SDK's decoder on four bytes: the little-endian word, read as a
    signed 32-bit integer (byte 3 is shifted into the sign bit). *)
Lemma uint8ArrayToNumber_word b0 b1 b2 b3 :
  isByte b0 -> isByte b1 -> isByte b2 -> isByte b3 ->
  uint8ArrayToNumber [b0; b1; b2; b3]
  = toInt32 (b0 + b1 * 2 ^ 8 + b2 * 2 ^ 16 + b3 * 2 ^ 24).
Proof.
  unfold isByte. intros H0 H1 H2 H3.
  unfold uint8ArrayToNumber. cbn [length seq combine fold_left].
  unfold shl32.
  change (Z.of_nat 0 * 8) with 0. change (Z.of_nat 1 * 8) with 8.
  change (Z.of_nat 2 * 8) with 16. change (Z.of_nat 3 * 8) with 24.
  change (0 mod 32) with 0. change (8 mod 32) with 8.
  change (16 mod 32) with 16. change (24 mod 32) with 24.
  rewrite !Z.shiftl_mul_pow2 by lia.
  unfold toInt32.
  cbn [Z.pow Z.pow_pos Pos.iter Z.mul Pos.mul] in *.
  Z.div_mod_to_equations. lia.
Qed.

Lemma toInt32_mod n : toInt32 (n mod 2 ^ 32) = toInt32 n.
Proof.
  unfold toInt32. cbn [Z.pow Z.pow_pos Pos.iter Z.mul Pos.mul].
  Z.div_mod_to_equations. lia.
Qed.

(** X10.  [lockIdToBytes] writes the lock id modulo 2^32 as four bytes,
    low byte first.  Read back with the SDK's own [uint8ArrayToNumber],
    the four bytes give the id as a signed 32-bit integer: an id below
    2^31 comes back as it is, an id from 2^31 to 2^32 - 1 comes back
    negative. *)
Theorem lockIdToBytes_decode (lockId : LockId) :
  length (lockIdToBytes lockId) = 4%nat
  /\ Forall isByte (lockIdToBytes lockId)
  /\ leWord (lockIdToBytes lockId) = lockIdToNumber lockId mod 2 ^ 32
  /\ uint8ArrayToNumber (lockIdToBytes lockId) = toInt32 (lockIdToNumber lockId).
Proof.
  rewrite lockIdToBytes_leBytes. split; [reflexivity|].
  split; [apply leBytes_bytes|]. split.
  - rewrite leWord_leBytes_mod. apply Z.mod_mod. lia.
  - pose proof (leBytes_bytes (lockIdToNumber lockId mod 2 ^ 32)) as Hb.
    pose proof (leWord_leBytes_mod (lockIdToNumber lockId mod 2 ^ 32)) as Hw.
    unfold leBytes in *.
    apply Forall_cons in Hb as [H0 Hb]. apply Forall_cons in Hb as [H1 Hb].
    apply Forall_cons in Hb as [H2 Hb]. apply Forall_cons in Hb as [H3 _].
    rewrite uint8ArrayToNumber_word by assumption.
    unfold leWord, byteAt in Hw. cbn [nth] in Hw. rewrite Hw.
    rewrite !toInt32_mod. reflexivity.
Qed.

End LockIdBytes.

(** ** Commands and their responses *)

Section Commands.
Import CommandUtils CommandBuilders LockSegmentsFormat BluetoothKeySDK.

Lemma map_toUint8_bytes (l : list Z) : Forall isByte l -> map toUint8 l = l.
Proof.
  induction 1 as [|b l Hb _ IH]; [reflexivity|].
  cbn [map]. rewrite IH. unfold toUint8. rewrite Z.mod_small by exact Hb.
  reflexivity.
Qed.

(** X11.  The four lock commands are six bytes: the opcode 0x08, the
    operation (0 unlock, 1 force unlock, 2 lock, 3 force lock), and the
    lock id modulo 2^32 as a little-endian word. *)
Theorem lock_commands_wire (lockId : LockId) :
  let word := leBytes (lockIdToNumber lockId mod 2 ^ 32) in
  cmdData (buildUnlockCommand lockId) = Some ([0x08; 0x00] ++ word)
  /\ cmdData (buildForceUnlockCommand lockId) = Some ([0x08; 0x01] ++ word)
  /\ cmdData (buildLockCommand lockId) = Some ([0x08; 0x02] ++ word)
  /\ cmdData (buildForceLockCommand lockId) = Some ([0x08; 0x03] ++ word).
Proof.
  intros word.
  assert (map toUint8 (lockIdToBytes lockId) = word) as Hword.
  { rewrite lockIdToBytes_leBytes. apply map_toUint8_bytes, leBytes_bytes. }
  unfold buildUnlockCommand, buildForceUnlockCommand, buildLockCommand,
    buildForceLockCommand.
  cbn [cmdData]. rewrite !map_app, Hword. repeat split.
Qed.

(** X12.  The public [CommandUtils.isDeviceReport] asks for a response of
    exactly one byte before it looks at the opcode, so it says no to every
    report that [parseDeviceStatusReport] parses (7 or 8 bytes), while
    the private [isDeviceReport] of the engine says yes to each of them. *)
Theorem isDeviceReport_rejects_reports (data : list Z) (report : DeviceStatusReport) :
  parseDeviceStatusReport data = Ok report ->
  CommandUtils.isDeviceReport data = false
  /\ BluetoothKeySDK.isDeviceReport data = true.
Proof.
  unfold parseDeviceStatusReport, CommandUtils.isDeviceReport,
    BluetoothKeySDK.isDeviceReport, validateResponse.
  destruct data as [|b data]; [discriminate|].
  change (byteAt (b :: data) 0) with b.
  cbn [length Nat.eqb negb andb].
  destruct (b =? BusinessCmd.UPLOAD_STATUS) eqn:H7.
  - destruct (Nat.eqb_spec (length data) 6) as [->|]; [|discriminate].
    intros _. split; reflexivity.
  - destruct (b =? BusinessCmd.GET_SYS_PARAM) eqn:H6; [|discriminate].
    destruct (Nat.eqb_spec (length data) 7) as [->|]; [|discriminate].
    intros _. split; reflexivity.
Qed.

(** Comparisons with a constant: closed ones are evaluated, one on a
    variable is decided by cases. *)
Ltac eval_eqb :=
  repeat match goal with
  | |- context [Z.eqb ?a ?b] =>
    let v := eval vm_compute in (Z.eqb a b) in
    match v with true => idtac | false => idtac end;
    change (Z.eqb a b) with v
  end.

Ltac case_eqb :=
  match goal with
  | |- context [Z.eqb ?x ?c] => is_var x; destruct (Z.eqb_spec x c); [subst x|]
  end.

Ltac run_validator :=
  repeat (cbn [length Nat.eqb Nat.ltb Nat.leb negb byteAt nth isValid orb andb];
          eval_eqb; try case_eqb).

(** X14.  For TIME_SYNC (0x05), TASK_CONFIG (0x0C), LOCK_SEGMENTS (0x0D)
    and RECORD_UPLOAD_CONTROL (0x0A) the one response accepted is the
    two bytes: the opcode and the result 0x01. *)
Theorem validateBusinessResponse_result (command : Z) (response : list Z) :
  command ∈ resultCoded ->
  isValid (validateBusinessResponse command response) = true
  <-> response = [command; 0x01].
Proof.
  unfold resultCoded. rewrite !elem_of_cons, elem_of_nil.
  intros [->|[->|[->|[->|[]]]]];
    unfold validateBusinessResponse, validateTimeSyncResponse,
      validateTaskConfigResponse, validateLockSegmentsResponse,
      validateRecordUploadControlResponse;
    destruct response as [|b0 [|b1 [|b2 response]]];
    run_validator;
    split; intros H; try reflexivity; try discriminate H; congruence.
Qed.

(** X15.  An UPLOAD_STATUS response (0x07) is accepted only with a lock
    state from 0 to 3: every response accepted is parsed by
    [parseDeviceStatusReport] as a lock that is not locked, and the two
    locked states 4 and 5 are refused as invalid. *)
Theorem validateBusinessResponse_status_unlocked (response : list Z) :
  isValid (validateBusinessResponse 0x07 response) = true ->
  exists report,
    parseDeviceStatusReport response = Ok report
    /\ isLocked (lockStatus report) = false.
Proof.
  unfold validateBusinessResponse, validateUploadStatusResponse,
    parseDeviceStatusReport, validateResponse.
  destruct response as [|b0 response]; [discriminate|].
  cbn [length Nat.eqb]. change (byteAt (b0 :: response) 0) with b0.
  destruct (Z.eqb_spec b0 7) as [->|]; [|discriminate].
  cbn [negb Z.eqb Pos.eqb BusinessCmd.UPLOAD_STATUS andb].
  destruct (Nat.eqb_spec (length response) 6) as [Hlen|]; [|discriminate].
  cbn [negb].
  destruct response as [|b1 response]; [discriminate|].
  change (byteAt (_ :: b1 :: _) 1) with b1.
  unfold existsb.
  destruct (Z.eqb_spec b1 0) as [->|];
    [|destruct (Z.eqb_spec b1 1) as [->|];
      [|destruct (Z.eqb_spec b1 2) as [->|];
        [|destruct (Z.eqb_spec b1 3) as [->|]; [|discriminate]]]];
    intros _; eexists; (split; [reflexivity|reflexivity]).
Qed.

End Commands.

(** ** BCD time, lock segments and unlock logs *)

Section CommandCodecs.
Import CommandUtils CommandBuilders LockSegmentsFormat BluetoothKeySDK.

Lemma bcd_table :
  forallb (fun v => (toUint8 (bcdEncode v) =? bcdEncode v)
                    && (bcdDecode (bcdEncode v) =? v))
          (map Z.of_nat (seq 0 100)) = true.
Proof. vm_compute. reflexivity. Qed.

Lemma bcd_roundtrip v :
  0 <= v < 100 ->
  toUint8 (bcdEncode v) = bcdEncode v /\ bcdDecode (bcdEncode v) = v.
Proof.
  intros Hv. pose proof bcd_table as H. rewrite forallb_forall in H.
  specialize (H v). rewrite andb_true_iff, !Z.eqb_eq in H. apply H.
  apply in_map_iff. exists (Z.to_nat v). split; [lia|]. apply in_seq. lia.
Qed.

Lemma dateToBCD_fields date :
  dateToBCD date
  = [ bcdEncode (Z.rem (year date) 100); bcdEncode (month date + 1);
      bcdEncode (day date); bcdEncode (hour date);
      bcdEncode (minute date); bcdEncode (second date) ].
Proof. reflexivity. Qed.

Lemma bcdToDate_fields b0 b1 b2 b3 b4 b5 :
  bcdToDate [b0; b1; b2; b3; b4; b5]
  = Ok (mkDate (bcdDecode b0 + 2000) (bcdDecode b1 - 1) (bcdDecode b2)
               (bcdDecode b3) (bcdDecode b4) (bcdDecode b5)).
Proof. reflexivity. Qed.

(** X16.  The TIME_SYNC command carries the opcode 0x05 and six BCD
    bytes from which [bcdToDate] reads the month, day, hour, minute and
    second of the date given, and its year within the century from
    2000: a date from 2000 to 2099 is read back as it is. *)
Theorem timeSync_bcd_roundtrip (now : Date) :
  validDate now ->
  exists bcd,
    cmdData (buildTimeSyncCommand now) = Some (0x05 :: bcd)
    /\ length bcd = 6%nat
    /\ bcdToDate bcd
       = Ok (mkDate (2000 + year now mod 100) (month now) (day now)
                    (hour now) (minute now) (second now)).
Proof.
  intros (Hy & Hm & Hd & Hh & Hmin & Hs).
  pose proof (Z.mod_pos_bound (year now) 100 ltac:(lia)) as Hy100.
  destruct (bcd_roundtrip (year now mod 100) ltac:(lia)) as [Ey Dy].
  destruct (bcd_roundtrip (month now + 1) ltac:(lia)) as [Em Dm].
  destruct (bcd_roundtrip (day now) ltac:(lia)) as [Ed Dd].
  destruct (bcd_roundtrip (hour now) ltac:(lia)) as [Eh Dh].
  destruct (bcd_roundtrip (minute now) ltac:(lia)) as [Emin Dmin].
  destruct (bcd_roundtrip (second now) ltac:(lia)) as [Es Ds].
  exists (dateToBCD now).
  rewrite dateToBCD_fields, Z.rem_mod_nonneg by lia.
  split; [|split; [reflexivity|]].
  - unfold buildTimeSyncCommand. rewrite dateToBCD_fields, Z.rem_mod_nonneg by lia.
    cbn [cmdData map app]. rewrite Ey, Em, Ed, Eh, Emin, Es. reflexivity.
  - rewrite bcdToDate_fields, Dy, Dm, Dd, Dh, Dmin, Ds. do 2 f_equal; lia.
Qed.

Lemma segmentsFrom_Forall (P : Z -> Prop) ids start end_ :
  P start -> P end_ -> Forall P ids ->
  Forall (fun segment => P segment.1 /\ P segment.2) (segmentsFrom ids start end_).
Proof.
  intros Hstart Hend Hids. revert start end_ Hstart Hend.
  induction Hids as [|id ids Hid _ IH]; intros start end_ Hstart Hend.
  - repeat constructor; assumption.
  - cbn [segmentsFrom]. destruct (id =? end_ + 1).
    + apply IH; assumption.
    + constructor; [split; assumption|]. apply IH; assumption.
Qed.

Lemma convertLockIdsToSegments_inRange lockIds :
  Forall (fun id => id < 2 ^ 32) (positiveIds lockIds) ->
  Forall inRange (convertLockIdsToSegments lockIds).
Proof.
  intros Hsmall.
  assert (Forall inWord (merge_sort Z.le (positiveIds lockIds))) as Hall.
  { rewrite merge_sort_Permutation.
    rewrite Forall_forall in *. intros x Hx. split; [|apply Hsmall, Hx].
    unfold positiveIds in Hx. apply list_elem_of_filter in Hx as [Hpos _]. lia. }
  rewrite convertLockIdsToSegments_sorted.
  destruct (merge_sort Z.le (positiveIds lockIds)) as [|first rest];
    [constructor|].
  apply Forall_cons in Hall as [Hfirst Hrest].
  apply (segmentsFrom_Forall inWord); assumption.
Qed.

Lemma decodePacket_groups groups :
  Forall (Forall inRange) groups ->
  concat (map decodePacket (map encodeRanges groups)) = concat groups.
Proof.
  induction 1 as [|group groups Hgroup _ IH]; [reflexivity|].
  cbn [map concat]. rewrite decodePacket_encodeRanges, IH by exact Hgroup.
  reflexivity.
Qed.

Lemma length_encodeRanges group :
  length (encodeRanges group) = (2 + 8 * length group)%nat.
Proof.
  unfold encodeRanges. cbn [length]. rewrite length_flat_map_rangeBytes. lia.
Qed.

(** X17.  For lock ids below 2^32, the LOCK_SEGMENTS commands built from
    a list of lock ids each carry 1 to 25 ranges in at most 202 bytes,
    and the ranges decoded from the commands, in order, are the segments
    of the ids: a number lies in one of them exactly when it is one of
    the positive ids given. *)
Theorem buildLockSegmentsCommand_covers (lockIds : list LockId) :
  Forall (fun id => id < 2 ^ 32) (positiveIds lockIds) ->
  let commands := buildLockSegmentsCommand lockIds in
  let decoded :=
    concat (map (fun c => decodePacket (default [] (cmdData c))) commands) in
  Forall (fun c =>
            cmdName c = "LOCK_SEGMENTS"
            /\ (length (default [] (cmdData c)) <= 202)%nat
            /\ exists group,
                 okGroup group /\ cmdData c = Some (encodeRanges group))
         commands
  /\ decoded = convertLockIdsToSegments lockIds
  /\ forall x, covers decoded x <-> x ∈ positiveIds lockIds.
Proof.
  intros Hsmall commands decoded.
  pose proof (convertLockIdsToSegments_inRange lockIds Hsmall) as Hin.
  destruct (convertSegmentsToPackets_groups (convertLockIdsToSegments lockIds))
    as (groups & Hpackets & Hcat & Hok).
  assert (commands
          = map (fun group => mkCommand "LOCK_SEGMENTS" (Some (encodeRanges group)))
                groups) as Hcommands.
  { unfold commands, buildLockSegmentsCommand. rewrite Hpackets, map_map.
    reflexivity. }
  assert (decoded = convertLockIdsToSegments lockIds) as Hdecoded.
  { unfold decoded. rewrite Hcommands, map_map. cbn -[encodeRanges decodePacket].
    rewrite <- Hcat in Hin. apply Forall_concat_inv in Hin.
    rewrite <- Hcat, <- (decodePacket_groups groups Hin), map_map. reflexivity. }
  split; [|split; [exact Hdecoded|]].
  - rewrite Hcommands, Forall_map.
    eapply Forall_impl; [exact Hok|]. intros group Hgroup.
    cbn -[encodeRanges okGroup].
    split; [reflexivity|]. split; [|exists group; auto].
    rewrite length_encodeRanges. unfold okGroup in Hgroup. lia.
  - intros x. rewrite Hdecoded. apply convertLockIdsToSegments_covers.
Qed.

Lemma length_slice_in {A} (a : list A) (lo hi : nat) :
  (hi <= length a)%nat -> length (slice lo hi a) = (hi - lo)%nat.
Proof. intros H. unfold slice. rewrite length_take, length_drop. lia. Qed.

(** X18.  An unlock log (0x0B) is accepted exactly when it has 13 bytes,
    starts with 0x0B and names one of the four operations 0 to 3; the
    time bytes and the lock id never make it fail. *)
Theorem validateBusinessResponse_unlock_log (response : list Z) :
  isValid (validateBusinessResponse 0x0B response) = true
  <-> length response = 13%nat
      /\ byteAt response 0 = 0x0B
      /\ 0 <= byteAt response 1 <= 3.
Proof.
  unfold validateBusinessResponse, validateUnlockLogData, parseUnlockLogData.
  destruct (Nat.eqb_spec (length response) 0) as [H0|H0];
    [split; [discriminate|lia]|].
  destruct (Z.eqb_spec (byteAt response 0) 11) as [Hc|Hc]; cbn [negb];
    [|split; [discriminate|tauto]].
  change (11 =? 1) with false. change (11 =? 5) with false.
  change (11 =? 6) with false. change (11 =? 8) with false.
  change (11 =? 7) with false. change (11 =? 12) with false.
  change (11 =? 13) with false. change (11 =? 10) with false.
  change (11 =? 11) with true. cbv iota.
  destruct (Nat.eqb_spec (length response) 13) as [H13|H13]; cbn [negb];
    [|split; [discriminate|tauto]].
  unfold bcdToDate. rewrite length_slice_in by lia. cbn [Nat.sub Nat.eqb negb].
  destruct (Z.eqb_spec (byteAt response 1) 0) as [->|];
    [split; [intros _; repeat split; lia|reflexivity]|].
  destruct (Z.eqb_spec (byteAt response 1) 1) as [->|];
    [split; [intros _; repeat split; lia|reflexivity]|].
  destruct (Z.eqb_spec (byteAt response 1) 2) as [->|];
    [split; [intros _; repeat split; lia|reflexivity]|].
  destruct (Z.eqb_spec (byteAt response 1) 3) as [->|];
    [split; [intros _; repeat split; lia|reflexivity]|].
  split; [discriminate|lia].
Qed.

End CommandCodecs.

Lemma timeSync_bcd_roundtrip_witness :
  exists bcd,
    BluetoothKeySDK.cmdData
      (CommandBuilders.buildTimeSyncCommand (CommandUtils.mkDate 2026 10 2 9 30 59))
    = Some (0x05 :: bcd)
    /\ length bcd = 6%nat
    /\ CommandUtils.bcdToDate bcd
       = Ok (CommandUtils.mkDate (2000 + 2026 mod 100) 10 2 9 30 59).
Proof.
  apply (timeSync_bcd_roundtrip (CommandUtils.mkDate 2026 10 2 9 30 59)).
  unfold validDate. cbn. lia.
Defined.

Lemma isDeviceReport_rejects_reports_witness :
  CommandUtils.isDeviceReport statusReport = false
  /\ BluetoothKeySDK.isDeviceReport statusReport = true.
Proof.
  destruct (CommandUtils.parseDeviceStatusReport statusReport) as [report|e] eqn:H;
    [|vm_compute in H; discriminate H].
  apply (isDeviceReport_rejects_reports statusReport report H).
Defined.

Lemma validateBusinessResponse_result_witness :
  CommandUtils.isValid (CommandUtils.validateBusinessResponse 0x0D [0x0D; 0x01]) = true
  <-> [0x0D; 0x01] = [0x0D; 0x01].
Proof.
  apply (validateBusinessResponse_result 0x0D [0x0D; 0x01]).
  unfold resultCoded. rewrite !elem_of_cons. auto.
Defined.

Lemma validateBusinessResponse_status_unlocked_witness :
  exists report,
    CommandUtils.parseDeviceStatusReport [0x07; 0x02; 0x02; 0x01; 0x00; 0x00; 0x00]
    = Ok report
    /\ isLocked (lockStatus report) = false.
Proof.
  apply (validateBusinessResponse_status_unlocked
           [0x07; 0x02; 0x02; 0x01; 0x00; 0x00; 0x00]).
  reflexivity.
Defined.

Lemma buildLockSegmentsCommand_covers_witness :
  Forall (fun id => id < 2 ^ 32)
         (positiveIds [LockIdNumber 3; LockIdString "1"; LockIdNumber 2; LockIdNumber 7])
  /\ CommandBuilders.buildLockSegmentsCommand
       [LockIdNumber 3; LockIdString "1"; LockIdNumber 2; LockIdNumber 7]
     = [BluetoothKeySDK.mkCommand "LOCK_SEGMENTS"
          (Some [0x0D; 2; 1; 0; 0; 0; 3; 0; 0; 0; 7; 0; 0; 0; 7; 0; 0; 0])]
  /\ forall x,
       covers (concat (map (fun c => LockSegmentsFormat.decodePacket
                                       (default [] (BluetoothKeySDK.cmdData c)))
                           (CommandBuilders.buildLockSegmentsCommand
                              [LockIdNumber 3; LockIdString "1"; LockIdNumber 2;
                               LockIdNumber 7]))) x
       <-> x ∈ positiveIds [LockIdNumber 3; LockIdString "1"; LockIdNumber 2;
                             LockIdNumber 7].
Proof.
  assert (Forall (fun id => id < 2 ^ 32)
            (positiveIds [LockIdNumber 3; LockIdString "1"; LockIdNumber 2;
                          LockIdNumber 7])) as Hsmall.
  { change (positiveIds _) with [3; 1; 2; 7].
    repeat (constructor; [reflexivity|]). constructor. }
  split; [exact Hsmall|]. split; [vm_compute; reflexivity|].
  exact (proj2 (proj2 (buildLockSegmentsCommand_covers _ Hsmall))).
Defined.

(** ** The frame response matcher *)

Section Waiters.
Import BluetoothKeySDK.

Lemma waitForFrameResponse_registers s deviceId frameIndex p s1 :
  mapAllocated s deviceId ->
  waitForFrameResponse deviceId frameIndex s = (Ok p, s1) ->
  exists m t,
    p = nextId s
    /\ (p < t < nextId s1)%nat
    /\ pendingFrameResponses s1 !! deviceId = Some m
    /\ (exists waiters,
          frameMaps s1 !! m = Some waiters
          /\ waiters !! frameIndex = Some (mkPendingResponse p t))
    /\ promises s1 = <[p := Pending]> (promises s)
    /\ timers s1 = <[t := FrameTimeout m frameIndex p]> (timers s).
Proof.
  intros Hwf Hwait.
  unfold waitForFrameResponse in Hwait.
  cbv [mbind M_bind newPromise getState setTimeout newFrameMap modify mret M_ret] in Hwait.
  destruct s as [conns fi dk db rt pfr asm ap dd fms ps ts n ev wr].
  unfold mapAllocated in Hwf. cbn in Hwait, Hwf.
  destruct (pfr !! deviceId) as [m|] eqn:Hm; cbn in Hwait; injection Hwait as <- <-.
  - destruct (Hwf m eq_refl) as [fm Hfm].
    exists m, (S n). cbn. repeat split; try lia.
    + apply lookup_insert_eq.
    + exists (<[frameIndex := mkPendingResponse n (S n)]> fm). split.
      * rewrite lookup_alter_eq, Hfm. reflexivity.
      * apply lookup_insert_eq.
  - exists (S n), (S (S n)). cbn. repeat split; try lia.
    + apply lookup_insert_eq.
    + exists (<[frameIndex := mkPendingResponse n (S (S n))]> ∅). split.
      * rewrite lookup_alter_eq, lookup_insert_eq. reflexivity.
      * apply lookup_insert_eq.
Qed.

Lemma resolveFrameResponse_run s deviceId frameIndex data m waiters w :
  pendingFrameResponses s !! deviceId = Some m ->
  frameMaps s !! m = Some waiters ->
  waiters !! frameIndex = Some w ->
  resolveFrameResponse deviceId frameIndex data s
  = (Ok tt,
     set_promises
       (fun ps => match ps !! promise w with
                  | Some Pending => <[promise w := Resolved data]> ps
                  | _ => ps
                  end)
       (set_frameMaps (alter (delete frameIndex) m)
          (set_timers (delete (timer w)) s))).
Proof.
  intros Hm Hfm Hw. unfold resolveFrameResponse.
  rewrite bind_getState, Hm, Hfm.
  change (default ∅ (Some waiters)) with waiters. rewrite Hw.
  unfold clearTimeout, settle. rewrite !bind_modify. unfold modify.
  destruct s; cbn. destruct (_ !! promise w) as [[| |]|]; reflexivity.
Qed.

Lemma resolveFrameResponse_idle s deviceId frameIndex data :
  (forall w, ~ waiting s deviceId frameIndex w) ->
  mapAllocated s deviceId ->
  resolveFrameResponse deviceId frameIndex data s = (Ok tt, s).
Proof.
  intros Hnone Hwf. unfold resolveFrameResponse. rewrite bind_getState.
  destruct (pendingFrameResponses s !! deviceId) as [m|] eqn:Hm; [|reflexivity].
  destruct (Hwf m Hm) as [fm Hfm]. rewrite Hfm.
  change (default ∅ (Some fm)) with fm.
  destruct (fm !! frameIndex) as [w|] eqn:Hw; [|reflexivity].
  exfalso. apply (Hnone w). exists m, fm. auto.
Qed.


Lemma resolved_promise (ps : gmap nat Settlement) p data :
  ps !! p = Some Pending ->
  match ps !! p with
  | Some Pending => <[p := Resolved data]> ps
  | _ => ps
  end !! p = Some (Resolved data).
Proof. intros ->. apply lookup_insert_eq. Qed.

(** X19.  A response that arrives for the frame index a request waits
    on resolves the promise of that request with the response bytes,
    removes the waiter and disarms its timer (no timer armed before is
    lost, none is added). *)
Theorem response_resolves_waiter (s : SDK) (deviceId : string) (frameIndex : Z)
    (data : list Z) (p : nat) (s1 : SDK) :
  mapAllocated s deviceId ->
  waitForFrameResponse deviceId frameIndex s = (Ok p, s1) ->
  let s2 := exec (resolveFrameResponse deviceId frameIndex data) s1 in
  promises s2 !! p = Some (Resolved data)
  /\ (forall w, ~ waiting s2 deviceId frameIndex w)
  /\ (forall t cb, timers s2 !! t = Some cb -> timers s !! t = Some cb).
Proof.
  intros Hwf Hwait s2.
  destruct (waitForFrameResponse_registers _ _ _ _ _ Hwf Hwait)
    as (m & t & -> & Hlt & Hm & (waiters & Hfm & Hw) & Hps & Hts).
  unfold s2, exec.
  rewrite (resolveFrameResponse_run s1 deviceId frameIndex data m waiters _ Hm Hfm Hw).
  cbn [snd promise timer]. destruct s1; cbn in *. subst. repeat split.
  - apply resolved_promise, lookup_insert_eq.
  - intros w (m' & waiters' & Hm' & Hfm' & Hw'). cbn in *.
    assert (m' = m) as -> by congruence.
    rewrite lookup_alter_eq, Hfm in Hfm'. injection Hfm' as <-.
    rewrite lookup_delete_eq in Hw'. discriminate.
  - intros t' cb. rewrite lookup_delete_Some, lookup_insert_Some.
    intros [Hne [[? _]|[_ H]]]; [congruence|exact H].
Qed.


Context (aes : CryptoFactory) (ble : BleClient).

Lemma fireTimer_frameTimeout s t m frameIndex p :
  timers s !! t = Some (FrameTimeout m frameIndex p) ->
  fireTimer aes ble t s
  = (Ok tt,
     set_promises
       (fun ps => match ps !! p with
                  | Some Pending => <[p := Rejected BluetoothKeySDKError.readTimeout]> ps
                  | _ => ps
                  end)
       (set_frameMaps (alter (delete frameIndex) m)
          (set_timers (delete t) s))).
Proof.
  intros Ht. unfold fireTimer. rewrite bind_getState, Ht.
  unfold settle. rewrite !bind_modify. unfold modify.
  destruct s; cbn. destruct (_ !! p) as [[| |]|]; reflexivity.
Qed.

(** X20.  When the timer of a waiter fires first, its promise is
    rejected with the read-timeout error and the waiter is removed; a
    response that arrives later for the same frame index changes nothing:
    the promise stays rejected. *)
Theorem timeout_rejects_waiter (s : SDK) (deviceId : string) (frameIndex : Z)
    (data : list Z) (p : nat) (s1 : SDK) :
  mapAllocated s deviceId ->
  waitForFrameResponse deviceId frameIndex s = (Ok p, s1) ->
  exists t m,
    timers s1 !! t = Some (FrameTimeout m frameIndex p)
    /\ let s2 := exec (fireTimer aes ble t) s1 in
       promises s2 !! p = Some (Rejected BluetoothKeySDKError.readTimeout)
       /\ (forall w, ~ waiting s2 deviceId frameIndex w)
       /\ resolveFrameResponse deviceId frameIndex data s2 = (Ok tt, s2).
Proof.
  intros Hwf Hwait.
  destruct (waitForFrameResponse_registers _ _ _ _ _ Hwf Hwait)
    as (m & t & -> & Hlt & Hm & (waiters & Hfm & Hw) & Hps & Hts).
  exists t, m.
  assert (timers s1 !! t = Some (FrameTimeout m frameIndex (nextId s))) as Ht
    by (rewrite Hts; apply lookup_insert_eq).
  split; [exact Ht|]. intros s2.
  assert (forall w, ~ waiting s2 deviceId frameIndex w) as Hnone.
  { unfold s2, exec. rewrite (fireTimer_frameTimeout _ _ _ _ _ Ht).
    intros w (m' & waiters' & Hm' & Hfm' & Hw'). destruct s1; cbn in *.
    assert (m' = m) as -> by congruence.
    rewrite lookup_alter_eq, Hfm in Hfm'. injection Hfm' as <-.
    rewrite lookup_delete_eq in Hw'. discriminate. }
  split; [|split; [exact Hnone|]].
  - unfold s2, exec. rewrite (fireTimer_frameTimeout _ _ _ _ _ Ht).
    destruct s1; cbn in *. subst.
    rewrite lookup_insert_eq. apply lookup_insert_eq.
  - apply resolveFrameResponse_idle; [exact Hnone|].
    unfold s2, exec. rewrite (fireTimer_frameTimeout _ _ _ _ _ Ht).
    intros m' Hm'. destruct s1; cbn in *.
    assert (m' = m) as -> by congruence.
    rewrite lookup_alter_eq, Hfm. eexists. reflexivity.
Qed.

(** X21.  Two requests waiting on the same frame index of a device
    share one slot of its Map: the second registration replaces the
    first, so the response resolves the second promise and the first
    stays pending, with no waiter left to resolve it. *)
Theorem same_frame_index_overwrites (s : SDK) (deviceId : string)
    (frameIndex : Z) (data : list Z) (p1 : nat) (s1 : SDK) (p2 : nat) (s2 : SDK) :
  mapAllocated s deviceId ->
  waitForFrameResponse deviceId frameIndex s = (Ok p1, s1) ->
  waitForFrameResponse deviceId frameIndex s1 = (Ok p2, s2) ->
  let s3 := exec (resolveFrameResponse deviceId frameIndex data) s2 in
  promises s3 !! p2 = Some (Resolved data)
  /\ promises s3 !! p1 = Some Pending
  /\ (forall w, ~ waiting s3 deviceId frameIndex w).
Proof.
  intros Hwf Hwait1 Hwait2 s3.
  destruct (waitForFrameResponse_registers _ _ _ _ _ Hwf Hwait1)
    as (m1 & t1 & -> & Hlt1 & Hm1 & (waiters1 & Hfm1 & Hw1) & Hps1 & Hts1).
  assert (mapAllocated s1 deviceId) as Hwf1.
  { intros m' Hm'. assert (m' = m1) as -> by congruence. eauto. }
  destruct (waitForFrameResponse_registers _ _ _ _ _ Hwf1 Hwait2)
    as (m2 & t2 & -> & Hlt2 & Hm2 & (waiters2 & Hfm2 & Hw2) & Hps2 & Hts2).
  unfold s3, exec.
  rewrite (resolveFrameResponse_run s2 deviceId frameIndex data m2 waiters2 _
             Hm2 Hfm2 Hw2).
  cbn [snd promise timer]. destruct s2; cbn in *. subst. repeat split.
  - apply resolved_promise, lookup_insert_eq.
  - rewrite lookup_insert_eq, lookup_insert_ne by lia.
    rewrite lookup_insert_ne by lia. rewrite Hps1. apply lookup_insert_eq.
  - intros w (m' & waiters' & Hm' & Hfm' & Hw'). cbn in *.
    assert (m' = m2) as -> by congruence.
    rewrite lookup_alter_eq, Hfm2 in Hfm'. injection Hfm' as <-.
    rewrite lookup_delete_eq in Hw'. discriminate.
Qed.

End Waiters.

(** ** Inbound frames *)

Section Inbound.
Context (aes : CryptoFactory) (ble : BleClient).
Import BluetoothKeySDK.

Lemma application_unpack_pack data frameIndex :
  0 <= frameIndex < 256 -> (length data <= 255)%nat ->
  DefaultApplicationLayer.unpack (DefaultApplicationLayer.pack data frameIndex)
  = mkApplicationData frameIndex data.
Proof.
  intros Hi Hlen.
  unfold DefaultApplicationLayer.unpack, DefaultApplicationLayer.pack, toUint8.
  cbn [length byteAt nth skipn Nat.ltb Nat.leb negb].
  rewrite !Z.mod_small by lia.
  replace (Z.of_nat (length data) =? Z.of_nat (S (S (length data))) - 2)
    with true by (symmetry; apply Z.eqb_eq; lia).
  reflexivity.
Qed.

Lemma resolveFrameResponse_ok deviceId frameIndex data s :
  resolveFrameResponse deviceId frameIndex data s
  = (Ok tt, exec (resolveFrameResponse deviceId frameIndex data) s).
Proof.
  unfold exec, resolveFrameResponse. rewrite bind_getState.
  destruct (pendingFrameResponses s !! deviceId) as [m|]; [|reflexivity].
  destruct (_ !! frameIndex) as [w|]; [|reflexivity].
  unfold clearTimeout, settle. rewrite !bind_modify. reflexivity.
Qed.

(** An encrypted ACK frame that decrypts, under the key of the device,
    to an application message goes to the response matcher. *)
Lemma processPhysicalFrame_ack s deviceId frameIndex data ciphertext :
  0 <= frameIndex < 256 -> data <> [] -> (length data <= 255)%nat ->
  Z.of_nat (length ciphertext) <= 65532 ->
  decrypt ciphertext (default [] (dynamicKeys s !! deviceId))
    = Some (DefaultApplicationLayer.pack data frameIndex) ->
  _processPhysicalFrame aes ble deviceId
    (PhysicalLayer.pack (0x01 :: 0xFD :: ciphertext)) s
  = (Ok tt, exec (resolveFrameResponse deviceId frameIndex data) s).
Proof.
  intros Hi Hdata Hlen Hct Hdec.
  unfold _processPhysicalFrame, tryCatch.
  rewrite pack_payload by (cbn [length]; lia).
  rewrite bind_getState.
  change (0x01 :: 0xFD :: ciphertext)
    with (toUint8 0x01 :: toUint8 (TransportLayerV1.controlByte ACK ENCRYPT)
          :: ciphertext).
  rewrite transport_unpack_table, Hdec. cbn [fmap option_fmap option_map tdata].
  change (length (DefaultApplicationLayer.pack data frameIndex) =? 0)%nat with false.
  cbv iota. rewrite application_unpack_pack by assumption.
  destruct data as [|b data]; [congruence|].
  unfold handleApplicationData. cbn -[resolveFrameResponse].
  rewrite resolveFrameResponse_ok. reflexivity.
Qed.


Lemma takeBufferedFrames_run deviceId s :
  takeBufferedFrames deviceId s
  = let '(frames, remain) :=
      PhysicalLayer.unpackWithRemain (default [] (dataBuffers s !! deviceId)) in
    (Ok frames, set_dataBuffers (<[deviceId := remain]>) s).
Proof.
  unfold takeBufferedFrames. rewrite bind_getState.
  destruct (PhysicalLayer.unpackWithRemain _) as [frames remain].
  rewrite bind_modify. reflexivity.
Qed.

Lemma startReceivingTimeoutTimer_run deviceId s :
  exists s',
    startReceivingTimeoutTimer deviceId s = (Ok tt, s')
    /\ promises s' = promises s
    /\ dataBuffers s' = dataBuffers s
    /\ pendingFrameResponses s' = pendingFrameResponses s
    /\ frameMaps s' = frameMaps s
    /\ events s' = events s
    /\ written s' = written s.
Proof.
  unfold startReceivingTimeoutTimer, cancelReceivingTimeoutTimer.
  cbv [mbind M_bind getState clearTimeout setTimeout modify mret M_ret].
  destruct s; cbn. destruct (_ !! deviceId); cbn; eexists; repeat split.
Qed.

(** One complete frame arriving on an empty buffer is processed and
    leaves the buffer empty. *)
Lemma handleReceivedData_frame s deviceId payload :
  default [] (dataBuffers s !! deviceId) = [] ->
  Z.of_nat (length payload) <= 65534 ->
  let buffered :=
    set_dataBuffers
      (fun b => <[deviceId := []]> (<[deviceId := PhysicalLayer.pack payload]> b)) s in
  handleReceivedData aes ble deviceId (PhysicalLayer.pack payload) s
  = match _processPhysicalFrame aes ble deviceId (PhysicalLayer.pack payload) buffered with
    | (Ok _, s') => startReceivingTimeoutTimer deviceId s'
    | (Throw e, s') => (Throw e, s')
    end.
Proof.
  intros Hbuf Hlen buffered.
  unfold handleReceivedData, appendToBuffer. rewrite bind_modify, Hbuf.
  cbn [app]. rewrite bind_run. unfold _processBufferedFrames.
  rewrite bind_run, takeBufferedFrames_run.
  replace (dataBuffers (set_dataBuffers _ s) !! deviceId)
    with (Some (PhysicalLayer.pack payload))
    by (destruct s; cbn; rewrite lookup_insert_eq; reflexivity).
  cbn [default]. change (id (PhysicalLayer.pack payload)) with (PhysicalLayer.pack payload).
  rewrite unpackWithRemain_pack_frame by exact Hlen.
  cbn [forEach]. rewrite bind_run.
  replace (set_dataBuffers <[deviceId:=[]]> (set_dataBuffers _ s)) with buffered
    by (destruct s; reflexivity).
  destruct (_processPhysicalFrame _ _ _ _ buffered) as [[[]|e] s']; reflexivity.
Qed.

(** X22.  The receive path end to end: when a notification brings, on
    an empty buffer, one frame carrying version 1, the control byte 0xFD
    and a ciphertext that decrypts under the key of the device to the
    application message of a frame index and a non-empty payload, the
    request waiting on that frame index is resolved with the payload, its
    waiter is removed and the buffer is empty again. *)
Theorem handleReceivedData_resolves (s : SDK) (deviceId : string) (frameIndex : Z)
    (data ciphertext : list Z) (w : PendingResponse) :
  default [] (dataBuffers s !! deviceId) = [] ->
  waiting s deviceId frameIndex w ->
  promises s !! promise w = Some Pending ->
  0 <= frameIndex < 256 -> data <> [] -> (length data <= 255)%nat ->
  Z.of_nat (length ciphertext) <= 65532 ->
  decrypt ciphertext (default [] (dynamicKeys s !! deviceId))
    = Some (DefaultApplicationLayer.pack data frameIndex) ->
  let s' := exec (handleReceivedData aes ble deviceId
                    (PhysicalLayer.pack (0x01 :: 0xFD :: ciphertext))) s in
  promises s' !! promise w = Some (Resolved data)
  /\ (forall w', ~ waiting s' deviceId frameIndex w')
  /\ default [] (dataBuffers s' !! deviceId) = [].
Proof.
  intros Hbuf (m & waiters & Hm & Hfm & Hw) Hp Hi Hdata Hlen Hct Hdec s'.
  unfold s', exec.
  rewrite handleReceivedData_frame by (try exact Hbuf; cbn [length]; lia).
  set (buffered := set_dataBuffers _ s).
  rewrite (processPhysicalFrame_ack buffered deviceId frameIndex data ciphertext)
    by (try assumption; destruct s; exact Hdec).
  unfold exec.
  rewrite (resolveFrameResponse_run buffered deviceId frameIndex data m waiters w)
    by (destruct s; assumption).
  cbn [snd].
  match goal with
  | |- context [startReceivingTimeoutTimer deviceId ?s0] =>
    destruct (startReceivingTimeoutTimer_run deviceId s0)
      as (s1 & -> & Hps & Hdb & Hpfr & Hfms & _ & _)
  end.
  cbn [snd]. unfold waiting. rewrite Hps, Hdb, Hpfr, Hfms.
  destruct s; cbn in *. repeat split.
  - rewrite Hp. apply lookup_insert_eq.
  - intros w' (m' & waiters' & Hm' & Hfm' & Hw').
    assert (m' = m) as -> by congruence.
    rewrite lookup_alter_eq, Hfm in Hfm'. injection Hfm' as <-.
    rewrite lookup_delete_eq in Hw'. discriminate.
  - rewrite lookup_insert_eq. reflexivity.
Qed.

End Inbound.

(** ** Notifications and the receive buffer *)

(** A step that changes other fields only. *)
Ltac keeps_fields :=
  repeat first
    [ apply keeps_ret | apply keeps_throw | apply keeps_getState
    | apply keeps_bind; [|intros ?]
    | apply keeps_tryCatch; [|intros ?]
    | match goal with
      | |- keeps _ (match ?x with _ => _ end) => destruct x
      end
    | (unfold keeps, exec; intros [] ?; cbn; repeat case_match; assumption) ].

Section Notifications.
Context (aes : CryptoFactory) (ble : BleClient).
Import BluetoothKeySDK.

Lemma dataBuffers_processPhysicalFrame X deviceId physicalFrame :
  keeps (fun s => dataBuffers s = X)
        (_processPhysicalFrame aes ble deviceId physicalFrame).
Proof.
  unfold _processPhysicalFrame, handleApplicationData, handleRequestWithAckData,
    handleDeviceReport, handleDeviceActiveCommand, sendReply, buildReplyPacket,
    transportPack, BleClient_write, startReceivingTimeoutTimer,
    cancelReceivingTimeoutTimer, _completeAuth, resolveFrameResponse,
    emitEvent, clearTimeout, settle.
  keeps_fields.
Qed.


Lemma processPhysicalFrame_ok deviceId physicalFrame s :
  exists s', _processPhysicalFrame aes ble deviceId physicalFrame s = (Ok tt, s').
Proof.
  unfold _processPhysicalFrame, tryCatch.
  match goal with |- context [?m s] => destruct (m s) as [[[]|e] s'] end.
  - eexists. reflexivity.
  - eexists. reflexivity.
Qed.

Lemma processFrames_run X deviceId frames s :
  dataBuffers s = X ->
  exists s',
    forEach frames (_processPhysicalFrame aes ble deviceId) s = (Ok tt, s')
    /\ dataBuffers s' = X.
Proof.
  revert s. induction frames as [|frame frames IH]; intros s HX.
  - exists s. split; [reflexivity|exact HX].
  - cbn [forEach]. rewrite bind_run.
    pose proof (dataBuffers_processPhysicalFrame X deviceId frame s HX) as Hkeep.
    unfold exec in Hkeep.
    destruct (processPhysicalFrame_ok deviceId frame s) as [s1 Hrun].
    rewrite Hrun in *. cbn in Hkeep. apply IH, Hkeep.
Qed.

Lemma processBufferedFrames_run deviceId s :
  exists s',
    _processBufferedFrames aes ble deviceId s = (Ok tt, s')
    /\ dataBuffers s'
       = <[deviceId := (PhysicalLayer.unpackWithRemain
                          (default [] (dataBuffers s !! deviceId))).2]>
           (dataBuffers s).
Proof.
  unfold _processBufferedFrames. rewrite bind_run, takeBufferedFrames_run.
  destruct (PhysicalLayer.unpackWithRemain _) as [frames remain].
  apply processFrames_run. destruct s; reflexivity.
Qed.

(** X23.  A notification never makes [handleReceivedData] throw,
    whatever the bytes, the cipher and the link do; and when it returns,
    the buffer of the device holds exactly what [unpackWithRemain] left
    of the old buffer followed by the new bytes. *)
Theorem handleReceivedData_buffer (s : SDK) (deviceId : string) (chunk : list Z) :
  exists s',
    handleReceivedData aes ble deviceId chunk s = (Ok tt, s')
    /\ dataBuffers s' !! deviceId
       = Some (PhysicalLayer.unpackWithRemain
                 (default [] (dataBuffers s !! deviceId) ++ chunk)).2.
Proof.
  unfold handleReceivedData, appendToBuffer. rewrite bind_modify, bind_run.
  match goal with
  | |- context [_processBufferedFrames aes ble deviceId ?s0] =>
    destruct (processBufferedFrames_run deviceId s0) as (s1 & -> & Hbuf)
  end.
  destruct (startReceivingTimeoutTimer_run deviceId s1)
    as (s2 & -> & _ & Hdb & _).
  exists s2. split; [reflexivity|].
  rewrite Hdb, Hbuf, lookup_insert_eq.
  destruct s; cbn. rewrite lookup_insert_eq. reflexivity.
Qed.

(** X24.  When the idle timer of a device fires, the complete frames of
    its buffer are processed and the buffer is emptied: the bytes of an
    unfinished frame are dropped, not kept for the next notification. *)
Theorem receivingTimeout_flushes (s : SDK) (t : nat) (deviceId : string) :
  timers s !! t = Some (ReceivingTimeout deviceId) ->
  exists s',
    fireTimer aes ble t s = (Ok tt, s')
    /\ default [] (dataBuffers s' !! deviceId) = [].
Proof.
  intros Ht. unfold fireTimer. rewrite bind_getState, Ht, bind_modify, bind_getState.
  set (s0 := set_timers (delete t) s).
  destruct (0 <? length (default [] (dataBuffers s0 !! deviceId)))%nat eqn:Hlen.
  - rewrite bind_run.
    destruct (processBufferedFrames_run deviceId s0) as (s1 & -> & _).
    eexists. split; [reflexivity|].
    destruct s1; cbn. rewrite lookup_insert_eq. reflexivity.
  - exists s0. split; [reflexivity|].
    apply Nat.ltb_ge in Hlen. destruct (default [] _); [reflexivity|cbn in Hlen; lia].
Qed.

End Notifications.

(** ** The authentication handshake *)

Section Authentication.
Context (aes : CryptoFactory) (ble : BleClient).
Import BluetoothKeySDK.

(** What [sendReply] returns and writes: the reply packet goes to the
    link when the cipher gives one. *)
Lemma sendReply_run deviceId replyData frameIndex s :
  sendReply aes ble deviceId replyData frameIndex s
  = match replyWire aes (default [] (dynamicKeys s !! deviceId)) frameIndex replyData with
    | Some packet =>
      (if bleWrite (written s) deviceId packet then Ok tt
       else Throw (PlainError "BleClient.write"),
       set_written (fun w => w ++ [(deviceId, packet)]) s)
    | None => (Throw (BluetoothKeySDKError.protocolError "回复数据包构建失败"), s)
    end.
Proof.
  unfold replyWire.
  cbv [sendReply buildReplyPacket BleClient_write transportPack
       tryCatch mbind M_bind mret M_ret mthrow M_throw getState modify].
  destruct (TransportLayerV1.pack _ _ _) as [transportData|];
    cbn [fmap option_fmap option_map]; [|reflexivity].
  destruct (bleWrite _ _ _); reflexivity.
Qed.

Lemma isDeviceReport_auth data :
  byteAt data 0 = 0x02 \/ byteAt data 0 = 0x03 \/ byteAt data 0 = 0x04 ->
  isDeviceReport data = false.
Proof.
  unfold isDeviceReport. destruct (length data =? 0)%nat; [reflexivity|].
  intros [-> | [-> | ->]]; reflexivity.
Qed.

Lemma written_completeAuth W deviceId success error :
  keeps (fun s => written s = W) (_completeAuth deviceId success error).
Proof. unfold _completeAuth, clearTimeout, settle. keeps_fields. Qed.

Lemma xor_reply_accepted data :
  data <> [] ->
  checkXorValidation data
    (byteAt data 0 :: map (fun b => Z.lxor b 0x5A) (drop 1 data)) = true.
Proof.
  intros Hdata. apply checkXorValidation_accepted. unfold xorAccepted.
  split; [exact Hdata|]. split; [discriminate|]. split; [reflexivity|].
  change (drop 1 (_ :: ?l)) with l. split; [apply length_map|].
  intros i Hi. rewrite !byteAt_lookup, list_lookup_fmap.
  destruct (lookup_lt_is_Some_2 _ _ Hi) as [b ->]. reflexivity.
Qed.

(** X25.  Authentication step 2: to a device message [0x02, r1, ..., rn]
    the engine answers, under the frame index of the message, with
    [0x02, r1 ^ 0x5A, ..., rn ^ 0x5A]; this is the one packet it writes,
    and the answer is what [checkXorValidation] accepts for the
    message. *)
Theorem auth_step2_reply (s : SDK) (deviceId : string) (frameIndex : Z)
    (data : list Z) :
  byteAt data 0 = 0x02 ->
  let reply := 0x02 :: map (fun b => Z.lxor b 0x5A) (drop 1 data) in
  let s' := exec (handleRequestWithAckData aes ble deviceId frameIndex
                    (byteAt data 0) data) s in
  checkXorValidation data reply = true
  /\ written s'
     = written s
       ++ match replyWire aes (default [] (dynamicKeys s !! deviceId))
                  frameIndex reply with
          | Some packet => [(deviceId, packet)]
          | None => []
          end.
Proof.
  intros Hop reply s'. split.
  - unfold reply. rewrite <- Hop. apply xor_reply_accepted.
    intros ->. discriminate Hop.
  - unfold s', exec, handleRequestWithAckData, tryCatch.
    rewrite isDeviceReport_auth by auto. rewrite Hop.
    change (2 =? 2) with true. cbv iota.
    rewrite bind_run, sendReply_run. cbn [app]. fold reply.
    destruct (replyWire _ _ _ reply) as [packet|].
    + destruct (bleWrite _ _ _); cbv beta iota.
      * match goal with
        | |- context [startReceivingTimeoutTimer deviceId ?s0] =>
          destruct (startReceivingTimeoutTimer_run deviceId s0)
            as (s1 & -> & _ & _ & _ & _ & _ & Hw)
        end.
        cbn [snd]. rewrite Hw. destruct s; reflexivity.
      * match goal with
        | |- written (_completeAuth ?d ?b ?e ?s0).2 = ?W =>
          apply (written_completeAuth W d b e s0)
        end.
        destruct s; reflexivity.
    + cbv beta iota.
      match goal with
      | |- written (_completeAuth ?d ?b ?e ?s0).2 = ?W =>
        apply (written_completeAuth W d b e s0)
      end.
      rewrite app_nil_r. reflexivity.
Qed.


Lemma completeAuth_run s deviceId success error authPromise :
  authPromises s !! deviceId = Some authPromise ->
  promises s !! promise authPromise = Some Pending ->
  exists s',
    _completeAuth deviceId success error s = (Ok tt, s')
    /\ authPromises s' !! deviceId = None
    /\ timers s' !! timer authPromise = None
    /\ authStatusMap s' !! deviceId = Some success
    /\ promises s' !! promise authPromise
       = Some (if success then Resolved []
               else Rejected (default (BluetoothKeySDKError.unknownError "多步认证失败")
                                      error))
    /\ written s' = written s
    /\ dynamicKeys s' = dynamicKeys s.
Proof.
  intros Hap Hp. unfold _completeAuth. rewrite bind_getState, Hap.
  unfold clearTimeout, settle. rewrite !bind_modify. unfold modify.
  destruct s, success; cbn in *; rewrite Hp; eexists;
    (split; [reflexivity|]); cbn;
    rewrite ?lookup_delete_eq, ?lookup_insert_eq; repeat split.
Qed.

(** X26.  Authentication steps 3 and 4: the bytes after the opcode become
    the key of the device before the answer is built, so the answer (the
    opcode and the new key) is encrypted under the new key, not the old
    one; and the new key stays the key of the device whether or not the
    answer could be sent. *)
Theorem auth_key_update (s : SDK) (deviceId : string) (frameIndex : Z)
    (data : list Z) :
  byteAt data 0 = 0x03 \/ byteAt data 0 = 0x04 ->
  let newKey := drop 1 data in
  let s' := exec (handleRequestWithAckData aes ble deviceId frameIndex
                    (byteAt data 0) data) s in
  dynamicKeys s' !! deviceId = Some newKey
  /\ written s'
     = written s
       ++ match replyWire aes newKey frameIndex (byteAt data 0 :: newKey) with
          | Some packet => [(deviceId, packet)]
          | None => []
          end.
Proof.
  intros Hop newKey s'.
  set (W := written s ++ _).
  unfold s', exec, handleRequestWithAckData, tryCatch.
  rewrite isDeviceReport_auth by tauto.
  assert (forall (continue : M unit),
            keeps (fun x => dynamicKeys x !! deviceId = Some newKey /\ written x = W)
                  continue ->
            let x := exec (tryCatch
                             (modify (set_dynamicKeys (<[deviceId := newKey]>)) ;;
                              sendReply aes ble deviceId ([byteAt data 0] ++ newKey)
                                frameIndex ;;
                              continue)
                             (fun error => _completeAuth deviceId false (Some error))) s in
            dynamicKeys x !! deviceId = Some newKey /\ written x = W) as Hrun.
  { intros continue Hcontinue.
    unfold exec, tryCatch. rewrite bind_modify, bind_run, sendReply_run.
    replace (dynamicKeys (set_dynamicKeys _ s) !! deviceId) with (Some newKey)
      by (destruct s; cbn; rewrite lookup_insert_eq; reflexivity).
    cbn [default app]. change (id newKey) with newKey.
    assert (keeps (fun x => dynamicKeys x !! deviceId = Some newKey /\ written x = W)
                  (_completeAuth deviceId false
                     (Some (BluetoothKeySDKError.protocolError "回复数据包构建失败"))))
      as Hfail1 by (unfold _completeAuth, clearTimeout, settle; keeps_fields).
    assert (keeps (fun x => dynamicKeys x !! deviceId = Some newKey /\ written x = W)
                  (_completeAuth deviceId false (Some (PlainError "BleClient.write"))))
      as Hfail2 by (unfold _completeAuth, clearTimeout, settle; keeps_fields).
    unfold W. destruct (replyWire aes newKey frameIndex _) as [packet|].
    - assert (dynamicKeys (set_written (fun w => w ++ [(deviceId, packet)])
                             (set_dynamicKeys <[deviceId:=newKey]> s)) !! deviceId
              = Some newKey
              /\ written (set_written (fun w => w ++ [(deviceId, packet)])
                            (set_dynamicKeys <[deviceId:=newKey]> s))
                 = written s ++ [(deviceId, packet)]) as Hstart
        by (destruct s; cbn; rewrite lookup_insert_eq; split; reflexivity).
      destruct (bleWrite _ _ _); cbv beta iota.
      + specialize (Hcontinue _ Hstart). unfold exec in Hcontinue.
        destruct (continue _) as [[[]|e] x]; cbn [snd] in *; [exact Hcontinue|].
        assert (keeps (fun x => dynamicKeys x !! deviceId = Some newKey
                                /\ written x = written s ++ [(deviceId, packet)])
                      (_completeAuth deviceId false (Some e)))
          as Hfail by (unfold _completeAuth, clearTimeout, settle; keeps_fields).
        apply Hfail, Hcontinue.
      + apply Hfail2, Hstart.
    - apply Hfail1. destruct s; cbn. rewrite lookup_insert_eq, app_nil_r.
      split; reflexivity. }
  destruct Hop as [Hop|Hop]; rewrite Hop in *.
  - change (3 =? 2) with false. change (3 =? 3) with true. cbv iota.
    apply (Hrun (startReceivingTimeoutTimer deviceId)).
    unfold startReceivingTimeoutTimer, cancelReceivingTimeoutTimer, clearTimeout.
    keeps_fields.
  - change (4 =? 2) with false. change (4 =? 3) with false.
    change (4 =? 4) with true. cbv iota.
    apply (Hrun (_completeAuth deviceId true None)).
    unfold _completeAuth, clearTimeout, settle. keeps_fields.
Qed.


(** X27.  Authentication step 4 settles the authentication promise of
    the device once: when the answer is encrypted and written, the
    promise is resolved and the device is marked authenticated; when the
    cipher or the write fails, the promise is rejected and the device is
    marked not authenticated; either way the promise is unregistered and
    its timer disarmed. *)
Theorem auth_step4_completes (s : SDK) (deviceId : string) (frameIndex : Z)
    (data : list Z) (authPromise : PendingResponse) :
  byteAt data 0 = 0x04 ->
  authPromises s !! deviceId = Some authPromise ->
  promises s !! promise authPromise = Some Pending ->
  let s' := exec (handleRequestWithAckData aes ble deviceId frameIndex
                    (byteAt data 0) data) s in
  let sent :=
    match replyWire aes (drop 1 data) frameIndex (0x04 :: drop 1 data) with
    | Some packet => bleWrite (written s) deviceId packet
    | None => false
    end in
  authPromises s' !! deviceId = None
  /\ timers s' !! timer authPromise = None
  /\ authStatusMap s' !! deviceId = Some sent
  /\ if sent then promises s' !! promise authPromise = Some (Resolved [])
     else exists error, promises s' !! promise authPromise = Some (Rejected error).
Proof.
  intros Hop Hap Hp s' sent.
  unfold s', exec, handleRequestWithAckData, tryCatch.
  rewrite isDeviceReport_auth by tauto. rewrite Hop.
  change (4 =? 2) with false. change (4 =? 3) with false.
  change (4 =? 4) with true. cbv iota.
  rewrite bind_modify, bind_run, sendReply_run.
  replace (dynamicKeys (set_dynamicKeys _ s) !! deviceId) with (Some (drop 1 data))
    by (destruct s; cbn; rewrite lookup_insert_eq; reflexivity).
  cbn [default app]. change (id (drop 1 data)) with (drop 1 data).
  replace (written (set_dynamicKeys <[deviceId:=drop 1 data]> s)) with (written s)
    by (destruct s; reflexivity).
  unfold sent.
  destruct (replyWire aes (drop 1 data) frameIndex _) as [packet|].
  - destruct (bleWrite (written s) deviceId packet); cbv beta iota;
      match goal with
      | |- context [_completeAuth deviceId ?success ?error ?s0] =>
        destruct (completeAuth_run s0 deviceId success error authPromise)
          as (s1 & Hrun & H1 & H2 & H3 & H4 & _);
          [destruct s; exact Hap|destruct s; exact Hp|]
      end; rewrite Hrun; cbn [snd]; repeat split; eauto.
  - cbv beta iota.
    match goal with
    | |- context [_completeAuth deviceId ?success ?error ?s0] =>
      destruct (completeAuth_run s0 deviceId success error authPromise)
        as (s1 & Hrun & H1 & H2 & H3 & H4 & _);
        [destruct s; exact Hap|destruct s; exact Hp|]
    end.
    rewrite Hrun. cbn [snd]. repeat split; eauto.
Qed.

End Authentication.

(** ** Disconnections *)

Section Disconnections.
Context (aes : CryptoFactory) (ble : BleClient).
Import BluetoothKeySDK.

(** X28.  After the link is dropped by the device, everything the
    engine keeps for the device is gone (counter, key, buffer, waiter
    Map, authentication state, idle timer) and one disconnected event
    is emitted, but the connection record stays, marked DISCONNECTED and
    not connected: a command sent then throws the DEVICE_NOT_CONNECTED
    error and changes nothing. *)
Theorem handleDeviceDisconnected_cleanup (s : SDK) (deviceId : string)
    (command : BluetoothKeyCommand) (transportOptions : option PackOptions) :
  deviceId ∉ disconnectingDevices s ->
  let s' := exec (_handleDeviceDisconnected deviceId) s in
  connections s' !! deviceId
    = (fun _ => mkConnection false DISCONNECTED) <$> connections s !! deviceId
  /\ frameIndexes s' !! deviceId = None
  /\ dynamicKeys s' !! deviceId = None
  /\ dataBuffers s' !! deviceId = None
  /\ pendingFrameResponses s' !! deviceId = None
  /\ authStatusMap s' !! deviceId = None
  /\ authPromises s' !! deviceId = None
  /\ receivingTimeoutTimers s' !! deviceId = None
  /\ events s' = events s ++ [EvDisconnected deviceId]
  /\ sendCommand aes ble deviceId command transportOptions s'
     = (Throw BluetoothKeySDKError.deviceNotConnected, s').
Proof.
  intros Hdisc s'.
  assert (exists conns fi dk db rt pfr asm ap dd fms ps ts n ev wr,
            s' = mkSDK conns fi dk db rt pfr asm ap dd fms ps ts n ev wr
            /\ conns !! deviceId
               = (fun _ => mkConnection false DISCONNECTED) <$> connections s !! deviceId
            /\ fi !! deviceId = None /\ dk !! deviceId = None /\ db !! deviceId = None
            /\ pfr !! deviceId = None /\ asm !! deviceId = None
            /\ ap !! deviceId = None /\ rt !! deviceId = None
            /\ ev = events s ++ [EvDisconnected deviceId])
    as (conns & fi & dk & db & rt & pfr & asm & ap & dd & fms & ps & ts & n & ev & wr
        & -> & Hc & ? & ? & ? & ? & ? & ? & ? & ?).
  { unfold s', exec, _handleDeviceDisconnected, clearAuthAndTimers, tryFinally,
      tryCatch, emitEvent, clearTimeout.
    cbv [mbind M_bind getState modify mret M_ret].
    rewrite decide_False by exact Hdisc.
    destruct s as [conns fi dk db rt pfr asm ap dd fms ps ts n ev wr]. cbn in *.
    destruct (conns !! deviceId) eqn:Hc; cbn;
      destruct (ap !! deviceId) eqn:Ha; cbn;
      destruct (rt !! deviceId) eqn:Hr; cbn;
      do 15 eexists; (split; [reflexivity|]);
      rewrite ?lookup_insert_eq, ?lookup_delete_eq; repeat split; assumption. }
  cbn. repeat split; try assumption.
  unfold sendCommand. rewrite bind_getState. cbn. rewrite Hc.
  destruct (connections s !! deviceId); reflexivity.
Qed.


Lemma clearPendingFrameResponses_fields deviceId s :
  exists fms ps ts,
    clearPendingFrameResponses deviceId s
    = (Ok tt,
       set_frameMaps (fun _ => fms)
         (set_promises (fun _ => ps) (set_timers (fun _ => ts) s))).
Proof.
  destruct (pendingFrameResponses s !! deviceId) as [m|] eqn:Hm.
  - rewrite (clearPendingFrameResponses_run deviceId m s Hm). cbv zeta.
    exists (alter (fun _ => ∅) m (frameMaps s)),
      (rejectAll (map_to_list (default ∅ (frameMaps s !! m))) (promises s)),
      (clearTimers (map_to_list (default ∅ (frameMaps s !! m))) (timers s)).
    destruct s; reflexivity.
  - unfold clearPendingFrameResponses. rewrite bind_getState, Hm.
    exists (frameMaps s), (promises s), (timers s). destruct s; reflexivity.
Qed.

(** X29.  [disconnectDevice] on a known device always clears its
    disconnecting mark.  When [BleClient.disconnect] resolves, the
    connection record and everything kept for the device are removed and
    one disconnected event is emitted.  When it rejects, the call throws
    the unknown error, no event is emitted, counter, key and buffer stay,
    and the connection record stays with the status DISCONNECTING and
    its connected flag as it was. *)
Theorem disconnectDevice_outcome (s : SDK) (deviceId : string)
    (connection : BluetoothKeyConnection) :
  connections s !! deviceId = Some connection ->
  deviceId ∉ disconnectingDevices s ->
  let r := (disconnectDevice ble deviceId s).1 in
  let s' := (disconnectDevice ble deviceId s).2 in
  (deviceId ∉ disconnectingDevices s')
  /\ (if bleDisconnect deviceId then
       r = Ok tt
       /\ connections s' !! deviceId = None
       /\ frameIndexes s' !! deviceId = None
       /\ dynamicKeys s' !! deviceId = None
       /\ dataBuffers s' !! deviceId = None
       /\ pendingFrameResponses s' !! deviceId = None
       /\ authStatusMap s' !! deviceId = None
       /\ authPromises s' !! deviceId = None
       /\ receivingTimeoutTimers s' !! deviceId = None
       /\ events s' = events s ++ [EvDisconnected deviceId]
     else
       r = Throw (BluetoothKeySDKError.unknownError "断开连接失败")
       /\ connections s' !! deviceId
          = Some (mkConnection (connIsConnected connection) DISCONNECTING)
       /\ frameIndexes s' = frameIndexes s
       /\ dynamicKeys s' = dynamicKeys s
       /\ dataBuffers s' = dataBuffers s
       /\ events s' = events s).
Proof.
  intros Hconn Hdisc. cbv zeta.
  unfold disconnectDevice. rewrite bind_getState, Hconn.
  rewrite decide_False by exact Hdisc.
  unfold tryFinally, tryCatch. rewrite !bind_modify, bind_run.
  match goal with
  | |- context [clearPendingFrameResponses deviceId ?s0] =>
    destruct (clearPendingFrameResponses_fields deviceId s0) as (fms & ps & ts & ->)
  end.
  unfold clearAuthAndTimers, emitEvent, clearTimeout.
  cbv [mbind M_bind getState modify mret M_ret mthrow M_throw].
  destruct s as [conns fi dk db rt pfr asm ap dd fms0 ps0 ts0 n ev wr]. cbn in *.
  destruct (bleDisconnect deviceId); cbn.
  - destruct (ap !! deviceId) eqn:Ha; cbn;
      destruct (rt !! deviceId) eqn:Hr; cbn;
      rewrite ?lookup_delete_eq; repeat split; try assumption;
      apply not_elem_of_difference; right; apply elem_of_singleton; reflexivity.
  - rewrite lookup_insert_eq. repeat split.
    apply not_elem_of_difference. right. apply elem_of_singleton. reflexivity.
Qed.

End Disconnections.

(** ** The properties on the example sessions *)

Lemma connectedSession_allocated : mapAllocated connectedSession "lock-1".
Proof.
  intros m Hm. vm_compute in Hm. injection Hm as <-.
  exists ∅. vm_compute. reflexivity.
Qed.

Lemma oneWaiter_waiting : waiting oneWaiter "lock-1" 0 (mkPendingResponse 1 2).
Proof.
  exists 0%nat, {[0 := mkPendingResponse 1 2]}.
  repeat split; vm_compute; reflexivity.
Qed.

Lemma response_resolves_waiter_witness :
  promises (exec (BluetoothKeySDK.resolveFrameResponse "lock-1" 0 [0x05; 0x01]) oneWaiter)
    !! 1%nat = Some (Resolved [0x05; 0x01]).
Proof.
  refine (proj1 (response_resolves_waiter connectedSession "lock-1" 0 [0x05; 0x01]
                   1%nat oneWaiter connectedSession_allocated _)).
  vm_compute. reflexivity.
Defined.

Lemma timeout_rejects_waiter_witness :
  exists t m,
    timers oneWaiter !! t = Some (FrameTimeout m 0 1)
    /\ let s2 := exec (BluetoothKeySDK.fireTimer plainCrypto reliableBle t) oneWaiter in
       promises s2 !! 1%nat = Some (Rejected BluetoothKeySDKError.readTimeout)
       /\ (forall w, ~ waiting s2 "lock-1" 0 w)
       /\ BluetoothKeySDK.resolveFrameResponse "lock-1" 0 [0x05; 0x01] s2 = (Ok tt, s2).
Proof.
  refine (timeout_rejects_waiter plainCrypto reliableBle connectedSession "lock-1" 0
            [0x05; 0x01] 1%nat oneWaiter connectedSession_allocated _).
  vm_compute. reflexivity.
Defined.

Lemma same_frame_index_overwrites_witness :
  let s2 := exec (BluetoothKeySDK.waitForFrameResponse "lock-1" 0) oneWaiter in
  let s3 := exec (BluetoothKeySDK.resolveFrameResponse "lock-1" 0 [0x05; 0x01]) s2 in
  promises s3 !! 3%nat = Some (Resolved [0x05; 0x01])
  /\ promises s3 !! 1%nat = Some Pending
  /\ (forall w, ~ waiting s3 "lock-1" 0 w).
Proof.
  refine (same_frame_index_overwrites connectedSession "lock-1" 0 [0x05; 0x01]
            1%nat oneWaiter 3%nat
            (exec (BluetoothKeySDK.waitForFrameResponse "lock-1" 0) oneWaiter)
            connectedSession_allocated _ _);
    vm_compute; reflexivity.
Defined.

Lemma handleReceivedData_resolves_witness :
  let s' := exec (BluetoothKeySDK.handleReceivedData plainCrypto reliableBle "lock-1"
                    (PhysicalLayer.pack [0x01; 0xFD; 0x00; 0x02; 0x05; 0x01])) oneWaiter in
  promises s' !! 1%nat = Some (Resolved [0x05; 0x01])
  /\ (forall w', ~ waiting s' "lock-1" 0 w')
  /\ default [] (dataBuffers s' !! "lock-1") = [].
Proof.
  refine (handleReceivedData_resolves plainCrypto reliableBle oneWaiter "lock-1" 0
            [0x05; 0x01] [0x00; 0x02; 0x05; 0x01] (mkPendingResponse 1 2)
            _ oneWaiter_waiting _ _ _ _ _ _).
  - vm_compute. reflexivity.
  - vm_compute. reflexivity.
  - lia.
  - discriminate.
  - cbn. lia.
  - cbn. lia.
  - vm_compute. reflexivity.
Defined.

Lemma receivingTimeout_flushes_witness :
  dataBuffers buffering !! "lock-1" = Some [0xA5; 0x5A; 0x05]
  /\ exists s',
       BluetoothKeySDK.fireTimer plainCrypto reliableBle 1 buffering = (Ok tt, s')
       /\ default [] (dataBuffers s' !! "lock-1") = [].
Proof.
  split; [vm_compute; reflexivity|].
  refine (receivingTimeout_flushes plainCrypto reliableBle buffering 1 "lock-1" _).
  vm_compute. reflexivity.
Defined.

Lemma auth_step2_reply_witness :
  BluetoothKeySDK.checkXorValidation [0x02; 0x10; 0x20] [0x02; 0x4A; 0x7A] = true
  /\ written (exec (BluetoothKeySDK.handleRequestWithAckData plainCrypto reliableBle
                      "lock-1" 7 (byteAt [0x02; 0x10; 0x20] 0) [0x02; 0x10; 0x20])
                   authenticating)
     = written authenticating
       ++ match replyWire plainCrypto
                  (default [] (dynamicKeys authenticating !! "lock-1")) 7
                  [0x02; 0x4A; 0x7A] with
          | Some packet => [("lock-1", packet)]
          | None => []
          end.
Proof.
  apply (auth_step2_reply plainCrypto reliableBle authenticating "lock-1" 7
           [0x02; 0x10; 0x20]).
  reflexivity.
Defined.

Lemma auth_key_update_witness :
  let s' := exec (BluetoothKeySDK.handleRequestWithAckData plainCrypto reliableBle
                    "lock-1" 8 (byteAt [0x03; 0x11; 0x22] 0) [0x03; 0x11; 0x22])
                 authenticating in
  dynamicKeys s' !! "lock-1" = Some [0x11; 0x22]
  /\ written s'
     = written authenticating
       ++ match replyWire plainCrypto [0x11; 0x22] 8 [0x03; 0x11; 0x22] with
          | Some packet => [("lock-1", packet)]
          | None => []
          end.
Proof.
  apply (auth_key_update plainCrypto reliableBle authenticating "lock-1" 8
           [0x03; 0x11; 0x22]).
  left. reflexivity.
Defined.

Lemma auth_step4_completes_witness :
  let s' := exec (BluetoothKeySDK.handleRequestWithAckData plainCrypto brokenBle
                    "lock-1" 9 (byteAt [0x04; 0x33; 0x44] 0) [0x04; 0x33; 0x44])
                 authenticating in
  authPromises s' !! "lock-1" = None
  /\ timers s' !! 2%nat = None
  /\ authStatusMap s' !! "lock-1" = Some false
  /\ exists error, promises s' !! 1%nat = Some (Rejected error).
Proof.
  refine (auth_step4_completes plainCrypto brokenBle authenticating "lock-1" 9
            [0x04; 0x33; 0x44] (mkPendingResponse 1 2) _ _ _);
    vm_compute; reflexivity.
Defined.

Lemma handleDeviceDisconnected_cleanup_witness :
  let s' := exec (BluetoothKeySDK._handleDeviceDisconnected "lock-1") oneWaiter in
  connections s' !! "lock-1" = Some (mkConnection false DISCONNECTED)
  /\ BluetoothKeySDK.sendCommand plainCrypto reliableBle "lock-1"
       (BluetoothKeySDK.mkCommand "READ_DEVICE_INFO" (Some [0x06])) None s'
     = (Throw BluetoothKeySDKError.deviceNotConnected, s').
Proof.
  destruct (handleDeviceDisconnected_cleanup plainCrypto reliableBle oneWaiter "lock-1"
              (BluetoothKeySDK.mkCommand "READ_DEVICE_INFO" (Some [0x06])) None)
    as (Hc & _ & _ & _ & _ & _ & _ & _ & _ & Hsend).
  - intros H. vm_compute in H. discriminate H.
  - split; [exact Hc|exact Hsend].
Defined.

Lemma disconnectDevice_outcome_witness :
  (BluetoothKeySDK.disconnectDevice brokenBle "lock-1" oneWaiter).1
    = Throw (BluetoothKeySDKError.unknownError "断开连接失败")
  /\ connections (BluetoothKeySDK.disconnectDevice brokenBle "lock-1" oneWaiter).2
       !! "lock-1"
     = Some (mkConnection true DISCONNECTING).
Proof.
  destruct (disconnectDevice_outcome brokenBle oneWaiter "lock-1"
              (mkConnection true CONNECTED)) as (_ & Hr & Hc & _).
  - vm_compute. reflexivity.
  - intros H. vm_compute in H. discriminate H.
  - split; [exact Hr|exact Hc].
Defined.

Lemma disconnectDevice_rejects_waiters_witness :
  cancelled (mkPendingResponse 1 2)
            (exec (BluetoothKeySDK.disconnectDevice brokenBle "lock-1") oneWaiter).
Proof.
  refine (disconnectDevice_rejects_waiters brokenBle oneWaiter "lock-1"
            (mkConnection true CONNECTED) 0%nat {[0 := mkPendingResponse 1 2]} 0
            (mkPendingResponse 1 2) _ _ _ _ _ _).
  - vm_compute. reflexivity.
  - intros H. vm_compute in H. discriminate H.
  - vm_compute. reflexivity.
  - vm_compute. reflexivity.
  - vm_compute. reflexivity.
  - vm_compute. reflexivity.
Defined.

Lemma convertLockIdsToSegments_distinct_witness :
  Forall (fun segment => segment.1 <= segment.2)
         (CommandUtils.convertLockIdsToSegments
            [LockIdNumber 3; LockIdString "1"; LockIdNumber 2; LockIdNumber 7])
  /\ StronglySorted apart
       (CommandUtils.convertLockIdsToSegments
          [LockIdNumber 3; LockIdString "1"; LockIdNumber 2; LockIdNumber 7]).
Proof.
  apply (convertLockIdsToSegments_distinct
           [LockIdNumber 3; LockIdString "1"; LockIdNumber 2; LockIdNumber 7]);
    change (positiveIds _) with [3; 1; 2; 7].
  { repeat (constructor; [reflexivity|]). constructor. }
  repeat (apply NoDup_cons; split;
          [rewrite ?elem_of_cons, elem_of_nil; intros H;
           repeat destruct H as [H|H]; try discriminate H; exact H|]).
  apply NoDup_nil. exact I.
Defined.

(** ** Examples *)

Example pack_sample :
  PhysicalLayer.pack [0x01; 0xF6; 0x10]
  = [0xA5; 0x5A; 0x04; 0x00; 0x01; 0xF6; 0x10; 0x0A].
Proof. reflexivity. Qed.

(** Noise, a frame, and the beginning of another frame. *)
Example unpackWithRemain_sample :
  PhysicalLayer.unpackWithRemain
    ([0x00; 0xA5] ++ PhysicalLayer.pack [0x01; 0xF6; 0x10] ++ [0xA5; 0x5A; 0x09])
  = ([PhysicalLayer.pack [0x01; 0xF6; 0x10]], [0xA5; 0x5A; 0x09]).
Proof. reflexivity. Qed.

(** The same bytes in three notifications. *)
Example feedChunks_sample :
  PhysicalLayer.feedChunks []
    [[0x00; 0xA5; 0xA5; 0x5A; 0x04]; [0x00; 0x01; 0xF6]; [0x10; 0x0A; 0xA5; 0x5A; 0x09]]
  = ([PhysicalLayer.pack [0x01; 0xF6; 0x10]], [0xA5; 0x5A; 0x09]).
Proof. reflexivity. Qed.

(** The scenario of the spec: the status report is parsed as locked,
    battery 100, lock 1, and answered with [0x07, 0x01] under its own
    frame index 9 as an encrypted ACK. *)
Example status_report_scenario :
  CommandUtils.parseDeviceStatusReport statusReport
  = Ok (mkDeviceStatusReport 0x07 (mkLockStatus LOCKED_CLOSED true 100 true) 1 1 None)
  /\ written (exec (BluetoothKeySDK.handleRequestWithAckData plainCrypto reliableBle
                      "lock-1" 9 (byteAt statusReport 0) statusReport) oneWaiter)
     = [("lock-1", PhysicalLayer.pack [0x01; 0xFD; 9; 2; 0x07; 0x01])].
Proof. split; vm_compute; reflexivity. Qed.

Example lock_ids_sample :
  CommandUtils.convertLockIdsToSegments
    [LockIdString " 12abc"; LockIdNumber 10; LockIdString "-3"; LockIdString "x";
     LockIdNumber 11; LockIdNumber 5; LockIdString "+13"]
  = [(5, 5); (10, 13)].
Proof. vm_compute. reflexivity. Qed.

(** Fifty-one segments travel in three packets of 25, 25 and 1 ranges. *)
Example segment_packets_sample :
  map length
    (CommandUtils.convertSegmentsToPackets
       (map (fun i : nat => (Z.of_nat (2 * i), Z.of_nat (2 * i))) (seq 1 51)))
  = [202; 202; 10]%nat.
Proof. vm_compute. reflexivity. Qed.

(** A request goes out on frame index 0 and awaits its response; the
    counter moves to 1. *)
Example sendCommand_sample :
  (BluetoothKeySDK.sendCommand plainCrypto reliableBle "lock-1"
     (BluetoothKeySDK.mkCommand "UNLOCK" (Some [0x08; 0x00; 0xD2; 0x04; 0x00; 0x00]))
     None oneWaiter).1
  = Ok (BluetoothKeySDK.Awaiting 3 0)
  /\ frameIndexes
       (exec (BluetoothKeySDK.sendCommand plainCrypto reliableBle "lock-1"
                (BluetoothKeySDK.mkCommand "UNLOCK"
                   (Some [0x08; 0x00; 0xD2; 0x04; 0x00; 0x00]))
                None) oneWaiter) !! "lock-1"
     = Some 1.
Proof. split; vm_compute; reflexivity. Qed.
